(** * Trading Arena: the AMM market engine, its candles, the PnL replay,
      candle aggregation and the player store.

    The Python sources carry every amount as a [float].  The model is
    written once over an interface [Arith] of the arithmetic the code uses
    and is run at two instances:

    - [binary64]: the kernel's IEEE-754 double precision floats, the
      arithmetic Python performs (round to nearest, ties to even);
    - [Qc]: exact rationals, the arithmetic the formulas of the design
      are written in.

    Time ([time.time()]) and the random draws of the seeder are inputs of
    the operations.  The SQLite tables are finite maps and a list: the
    engine lock serialises every access, so each operation is a function
    from the state before to the state after. *)

From Stdlib Require Import ZArith QArith Qcanon Qabs Floats String Ascii List Lia Lqa.
From stdpp Require Import gmap strings sorting.

Set Default Proof Using "Type".

(** ** The arithmetic of the sources *)

Declare Scope num_scope.
Delimit Scope num_scope with num.

(** [trunc] is Python's [int(x)] on a float: truncation toward zero, and
    [None] where Python raises (infinities and NaN).  [finite] is
    [math.isfinite]: false on the two infinities and on NaN. *)
Class Arith (F : Type) := {
  of_Z : Z -> F;
  fadd : F -> F -> F;
  fsub : F -> F -> F;
  fmul : F -> F -> F;
  fdiv : F -> F -> F;
  fopp : F -> F;
  fabs : F -> F;
  fltb : F -> F -> bool;
  fleb : F -> F -> bool;
  feqb : F -> F -> bool;
  trunc : F -> option Z;
  finite : F -> bool
}.

Infix "+" := fadd : num_scope.
Infix "-" := fsub : num_scope.
Infix "*" := fmul : num_scope.
Infix "/" := fdiv : num_scope.
Notation "- x" := (fopp x) : num_scope.
Infix "<?" := fltb (at level 70) : num_scope.
Infix "<=?" := fleb (at level 70) : num_scope.
Infix "=?" := feqb (at level 70) : num_scope.

Section Python.
Context {F : Type} `{Arith F}.
Local Open Scope num_scope.

(** A decimal literal [m e-k] of the sources, such as [1e-9] or
    [0.0001]: the quotient of two integers, rounded once. *)
Definition dec (m : Z) (k : nat) : F := of_Z m / of_Z (10 ^ Z.of_nat k).

(** Python's [max(a, b)] and [min(a, b)] on two arguments: the first
    one unless the second is strictly larger (smaller). *)
Definition pymax (a b : F) : F := if a <? b then b else a.
Definition pymin (a b : F) : F := if b <? a then b else a.

(** [a != b] as Python evaluates it. *)
Definition fneb (a b : F) : bool := negb (a =? b).

(** [x == x]: a number, that is, anything but a NaN. *)
Definition is_num (x : F) : bool := x =? x.
End Python.

(** *** Double precision *)

Definition b64_of_Z (z : Z) : float :=
  SF2Prim (binary_normalize prec emax z 0 false).

(** The integer part of a finite double [(-1)^s * m * 2^e]. *)
Definition b64_trunc (x : float) : option Z :=
  match Prim2SF x with
  | S754_zero _ => Some 0%Z
  | S754_finite s m e =>
      let a := match e with
               | Zneg p => Z.shiftr (Zpos m) (Zpos p)
               | _ => Z.shiftl (Zpos m) e
               end in
      Some (if s then Z.opp a else a)
  | S754_infinity _ | S754_nan => None
  end.

#[export] Instance binary64 : Arith float := {
  of_Z := b64_of_Z;
  fadd := PrimFloat.add;
  fsub := PrimFloat.sub;
  fmul := PrimFloat.mul;
  fdiv := PrimFloat.div;
  fopp := PrimFloat.opp;
  fabs := PrimFloat.abs;
  fltb := PrimFloat.ltb;
  fleb := PrimFloat.leb;
  feqb := PrimFloat.eqb;
  trunc := b64_trunc;
  finite := PrimFloat.is_finite
}.

(** *** Exact rationals *)

Definition Qc_leb (a b : Qc) : bool := Qle_bool a b.
Definition Qc_ltb (a b : Qc) : bool := negb (Qle_bool b a).
Definition Qc_eqb (a b : Qc) : bool := Qeq_bool a b.
Definition Qc_abs (a : Qc) : Qc := Q2Qc (Qabs a).
Definition Qc_trunc (a : Qc) : option Z :=
  Some (Z.quot (Qnum a) (Zpos (Qden a))).

#[export] Instance exact : Arith Qc := {
  of_Z := fun z => Q2Qc (inject_Z z);
  fadd := Qcplus;
  fsub := Qcminus;
  fmul := Qcmult;
  fdiv := Qcdiv;
  fopp := Qcopp;
  fabs := Qc_abs;
  fltb := Qc_ltb;
  fleb := Qc_leb;
  feqb := Qc_eqb;
  trunc := Qc_trunc;
  finite := fun _ => true
}.

(** ** Strings *)

(** [str.strip()] with no argument, on the ASCII range: Python strips the
    characters for which [str.isspace] holds, which below 128 are 9 to 13,
    28 to 31 and 32. *)
Definition is_space (a : ascii) : bool :=
  let n := nat_of_ascii a in
  ((9 <=? n)%nat && (n <=? 13)%nat) || ((28 <=? n)%nat && (n <=? 32)%nat).

Fixpoint lstrip (s : string) : string :=
  match s with
  | String a s' => if is_space a then lstrip s' else s
  | EmptyString => EmptyString
  end.

Definition strip (s : string) : string :=
  String.rev (lstrip (String.rev (lstrip s))).

(** [" " in s] *)
Fixpoint has_blank (s : string) : bool :=
  match s with
  | String a s' => Ascii.eqb a " "%char || has_blank s'
  | EmptyString => false
  end.

(** ** Data model *)

Inductive Side := BUY | SELL.

(** What a call does besides changing the state: it returns a value or an
    exception leaves it. *)
Inductive Exn :=
  | ZeroDivisionError
  | KeyError (k : string)
  | ValueError
  | TypeError.

Inductive Outcome (A : Type) :=
  | Returns (a : A)
  | Raises (e : Exn).
Arguments Returns {A} a.
Arguments Raises {A} e.

(** How a call that takes the engine lock ends.  The lock is a
    [threading.Lock], which is not reentrant: a call that asks for it
    while it holds it waits for ever. *)
Inductive Ending (A : Type) :=
  | Ends (o : Outcome A)
  | Deadlock.
Arguments Ends {A} o.
Arguments Deadlock {A}.

(** The [{"ok": False, "error": ...}] results of the two market orders,
    in the order the sources test for them:
    "code inválido", "usd_in inválido" / "rich_in inválido",
    "mercado não iniciado (start_game)", "pool inválido",
    "player não existe", "saldo USD insuficiente",
    "usd_in pequeno demais (fee)" / "resultado pequeno demais (fee)",
    "liquidez insuficiente",
    "margem insuficiente / alavancagem excedida". *)
Inductive TradeError :=
  | InvalidCode
  | InvalidAmount
  | NotStarted
  | InvalidPool
  | UnknownPlayer
  | InsufficientFunds
  | FeeUnderflow
  | InsufficientLiquidity
  | MarginRefused.

Section Data.
Context {F : Type}.

(** [MarketConfig] (market.py) *)
Record MarketConfig := {
  candle_seconds : Z;
  tick_seconds : F;
  start_price : F;
  initial_usd_liquidity : F;
  seed_enabled : bool;
  seed_seconds : Z;
  seed_candle_seconds : Z;
  seed_step_pct : F;
  fee_rate : F;
  min_equity : F;
  leverage_max : F;
  stopout_equity : F
}.

(** The fields of [MarketEngine] that the lock protects. *)
Record Engine := {
  pool_x : F;
  pool_y : F;
  pool_k : F;
  price : F;
  candle_ts : Z;
  candle_o : F;
  candle_h : F;
  candle_l : F;
  candle_c : F;
  started : bool
}.

(** A row of [players]; the key [code] is the key of the map. *)
Record Player := {
  nick : string;
  cash : F;
  pos : F;
  created_at : Z;
  updated_at : Z
}.

(** A row of [trades]; [id] is the position in the list, from 1. *)
Record Trade := {
  t_code : string;
  t_ts : Z;
  t_side : Side;
  t_qty : F;
  t_price : F;
  t_notional : F;
  t_fee : F;
  t_cash_after : F;
  t_pos_after : F
}.

(** A row of [candles]; the key [ts] is the key of the map. *)
Record Candle := {
  c_open : F;
  c_high : F;
  c_low : F;
  c_close : F
}.

(** A value of [market_state].  The table stores text; [str] of a float
    or of an integer reads back as the same number, so the model keeps
    the values: [SNum x] is [str(x)] of a float, [SInt z] of an integer,
    [SFlag b] is ["1"] or ["0"], and [STag] is the seed tag, which the
    sources write and never read. *)
Inductive StateVal :=
  | SNum (x : F)
  | SInt (z : Z)
  | SFlag (b : bool)
  | STag (secs cs : Z) (step p0 : F).

Record Db := {
  players : gmap string Player;
  trades : list Trade;
  candles : gmap Z Candle;
  market_state : gmap string StateVal
}.

Record World := {
  engine : Engine;
  db : Db
}.

(** The dictionaries a trade call returns on success. *)
Record TradeOk := {
  r_side : Side;
  r_ts : Z;
  r_amount_in : F;   (* "usd_in" of a BUY, "rich_in" of a SELL *)
  r_fee : F;
  r_amount_out : F;  (* "rich_out" of a BUY, "usd_out" of a SELL *)
  r_avg_price : F;
  r_price_after : F;
  r_cash_after : F;
  r_pos_after : F
}.

Inductive TradeResult :=
  | Accepted (r : TradeOk)
  | Rejected (e : TradeError).
End Data.

Arguments MarketConfig : clear implicits.
Arguments Engine : clear implicits.
Arguments Player : clear implicits.
Arguments Trade : clear implicits.
Arguments Candle : clear implicits.
Arguments StateVal : clear implicits.
Arguments Db : clear implicits.
Arguments World : clear implicits.
Arguments TradeOk : clear implicits.
Arguments TradeResult : clear implicits.

(** ** The store (db.py) *)

Section Store.
Context {F : Type} `{Arith F}.
Local Open Scope num_scope.

Definition with_players (d : Db F) (ps : gmap string (Player F)) : Db F :=
  {| players := ps; trades := trades d; candles := candles d;
     market_state := market_state d |}.

Definition with_trades (d : Db F) (ts : list (Trade F)) : Db F :=
  {| players := players d; trades := ts; candles := candles d;
     market_state := market_state d |}.

Definition with_candles (d : Db F) (cs : gmap Z (Candle F)) : Db F :=
  {| players := players d; trades := trades d; candles := cs;
     market_state := market_state d |}.

Definition with_market_state (d : Db F) (st : gmap string (StateVal F)) : Db F :=
  {| players := players d; trades := trades d; candles := candles d;
     market_state := st |}.

(** The database [init_db] creates: four empty tables. *)
Definition init_db : Db F :=
  {| players := ∅; trades := []; candles := ∅; market_state := ∅ |}.

Definition get_state (key : string) (d : Db F) : option (StateVal F) :=
  market_state d !! key.

Definition set_state (key : string) (value : StateVal F) (d : Db F) : Db F :=
  with_market_state d (<[key := value]> (market_state d)).

(** [upsert_player]: [INSERT ... ON CONFLICT(code) DO UPDATE SET nick,
    updated_at]. *)
Definition upsert_player (code nick0 : string) (initial_cash : F) (now : Z)
    (d : Db F) : Db F :=
  match players d !! code with
  | None =>
      with_players d
        (<[code := {| nick := nick0; cash := initial_cash; pos := of_Z 0;
                      created_at := now; updated_at := now |}]> (players d))
  | Some p =>
      with_players d
        (<[code := {| nick := nick0; cash := cash p; pos := pos p;
                      created_at := created_at p; updated_at := now |}]>
           (players d))
  end.

Definition get_player (code : string) (d : Db F) : option (Player F) :=
  players d !! code.

(** [UPDATE players SET cash = ?, pos = ?, updated_at = ? WHERE code = ?] *)
Definition update_player_wallet (code : string) (cash' pos' : F) (now : Z)
    (d : Db F) : Db F :=
  match players d !! code with
  | None => d
  | Some p =>
      with_players d
        (<[code := {| nick := nick p; cash := cash'; pos := pos';
                      created_at := created_at p; updated_at := now |}]>
           (players d))
  end.

Definition insert_trade (t : Trade F) (d : Db F) : Db F :=
  with_trades d (trades d ++ [t]).

(** [upsert_candle]: insert, or overwrite the row of the same [ts]. *)
Definition upsert_candle (ts : Z) (o h l c : F) (d : Db F) : Db F :=
  with_candles d
    (<[ts := {| c_open := o; c_high := h; c_low := l; c_close := c |}]>
       (candles d)).

(** [SELECT ts FROM candles ORDER BY ts ASC LIMIT 1] and its [DESC] twin. *)
Definition earliest_ts (cs : gmap Z (Candle F)) : option Z :=
  map_fold (fun ts _ acc =>
              match acc with
              | None => Some ts
              | Some m => Some (Z.min ts m)
              end) None cs.

Definition latest_ts (cs : gmap Z (Candle F)) : option Z :=
  map_fold (fun ts _ acc =>
              match acc with
              | None => Some ts
              | Some m => Some (Z.max ts m)
              end) None cs.

Definition get_last_candle (d : Db F) : option (Candle F) :=
  match latest_ts (candles d) with
  | Some ts => candles d !! ts
  | None => None
  end.
End Store.

(** ** The market engine (market.py) *)

Section Engine.
Context {F : Type} `{Arith F}.
Local Open Scope num_scope.

Definition STATE_PRICE : string := "price".
Definition STATE_CANDLE_TS : string := "candle_ts".
Definition STATE_POOL_X : string := "pool_x".
Definition STATE_POOL_Y : string := "pool_y".
Definition STATE_POOL_K : string := "pool_k".
Definition STATE_STARTED : string := "started".
Definition STATE_SEEDED_TAG : string := "seeded_tag".

(** [MarketEngine.__init__] *)
Definition new_engine (cfg : MarketConfig F) : Engine F :=
  {| pool_x := of_Z 0; pool_y := of_Z 0; pool_k := of_Z 0;
     price := start_price cfg;
     candle_ts := 0;
     candle_o := start_price cfg; candle_h := start_price cfg;
     candle_l := start_price cfg; candle_c := start_price cfg;
     started := false |}.

Definition with_pool (e : Engine F) (x y p : F) : Engine F :=
  {| pool_x := x; pool_y := y; pool_k := pool_k e; price := p;
     candle_ts := candle_ts e;
     candle_o := candle_o e; candle_h := candle_h e;
     candle_l := candle_l e; candle_c := candle_c e;
     started := started e |}.

Definition with_candle (e : Engine F) (ts : Z) (o h l c : F) : Engine F :=
  {| pool_x := pool_x e; pool_y := pool_y e; pool_k := pool_k e;
     price := price e;
     candle_ts := ts;
     candle_o := o; candle_h := h; candle_l := l; candle_c := c;
     started := started e |}.

(** [float(v)] of a stored text, [None] where the parse fails. *)
Definition _get_state_float (key : string) (d : Db F) : option F :=
  match get_state key d with
  | Some (SNum x) => Some x
  | Some (SInt z) => Some (of_Z z)
  | Some (SFlag b) => Some (of_Z (if b then 1 else 0))
  | Some (STag _ _ _ _) => None
  | None => None
  end.

Definition _set_pool_state (e : Engine F) (d : Db F) : Db F :=
  set_state STATE_STARTED (SFlag (started e))
    (set_state STATE_CANDLE_TS (SInt (candle_ts e))
      (set_state STATE_PRICE (SNum (price e))
        (set_state STATE_POOL_K (SNum (pool_k e))
          (set_state STATE_POOL_Y (SNum (pool_y e))
            (set_state STATE_POOL_X (SNum (pool_x e)) d))))).

Definition _equity (cash0 pos0 price0 : F) : F := cash0 + pos0 * price0.

Definition _margin_ok (cfg : MarketConfig F)
    (cash_after pos_after price_after : F) : bool :=
  let equity := _equity cash_after pos_after price_after in
  if equity <? min_equity cfg then false
  else
    let lev := leverage_max cfg in
    if lev <=? of_Z 0 then false
    else
      let exposure := fabs pos_after * price_after in
      let max_exposure := equity * lev in
      exposure <=? (max_exposure + dec 1 9).

(** [_touch_candle]: the live candle against the price [p] at [now_s]. *)
Definition _touch_candle (cfg : MarketConfig F) (now_s : Z) (p : F)
    (w : World F) : World F :=
  let e := engine w in
  let cs := Z.max 1 (candle_seconds cfg) in
  let ts_bucket := (now_s / cs * cs)%Z in
  if negb (ts_bucket =? candle_ts e)%Z then
    {| engine := with_candle e ts_bucket p p p p;
       db := upsert_candle (candle_ts e) (candle_o e) (candle_h e)
               (candle_l e) (candle_c e) (db w) |}
  else
    let h := if candle_h e <? p then p else candle_h e in
    let l := if p <? candle_l e then p else candle_l e in
    {| engine := with_candle e (candle_ts e) (candle_o e) h l p;
       db := db w |}.
End Engine.

Section Lifecycle.
Context {F : Type} `{Arith F}.
Local Open Scope num_scope.

(** Python raises [ZeroDivisionError] on a float division by [0.0] or
    [-0.0]; every [/] of the sources is modelled behind this test. *)
Definition is_zero (x : F) : bool := x =? of_Z 0.

Definition _seed_tag (cfg : MarketConfig F) : StateVal F :=
  STag (seed_seconds cfg) (seed_candle_seconds cfg) (seed_step_pct cfg)
    (start_price cfg).

(** The body of [for ts in range(target_start, end_ts, seed_cs)], run [n]
    times from [ts]; [u i] is the [i]-th draw of [random.uniform(-1, 1)]. *)
Fixpoint seed_loop (cfg : MarketConfig F) (u : nat -> F) (seed_cs : Z)
    (n i : nat) (ts : Z) (last_close : F) (d : Db F) : Outcome unit * Db F :=
  match n with
  | O => (Returns tt, d)
  | S n' =>
      let step := u i * seed_step_pct cfg in
      if is_zero (start_price cfg) then (Raises ZeroDivisionError, d)
      else
        let mr := (start_price cfg - last_close) / start_price cfg * dec 15 3 in
        let ret := step + mr in
        let close := pymax (dec 1 4) (last_close * (of_Z 1 + ret)) in
        let o := last_close in
        let h := pymax o close in
        let l := pymin o close in
        seed_loop cfg u seed_cs n' (S i) (ts + seed_cs)%Z close
          (upsert_candle ts o h l close d)
  end.

(** [len(range(a, b, s))] for a positive step. *)
Definition range_len (a b s : Z) : nat := Z.to_nat ((b - a + s - 1) / s).

Definition seed_history_if_needed (cfg : MarketConfig F) (now : Z)
    (u : nat -> F) (d : Db F) : Outcome unit * Db F :=
  if negb (seed_enabled cfg) then (Returns tt, d)
  else
    let seed_cs := Z.max 1 (seed_candle_seconds cfg) in
    let target_start := ((now - seed_seconds cfg) / seed_cs * seed_cs)%Z in
    let earliest := earliest_ts (candles d) in
    let covered := match earliest with
                   | Some e => (e <=? target_start)%Z
                   | None => false
                   end in
    if covered then (Returns tt, set_state STATE_SEEDED_TAG (_seed_tag cfg) d)
    else
      let end_ts := match earliest with
                    | Some e => e
                    | None => (now / seed_cs * seed_cs)%Z
                    end in
      let last_close :=
        match earliest with
        | Some e => match candles d !! e with
                    | Some row => c_open row
                    | None => start_price cfg
                    end
        | None => start_price cfg
        end in
      match seed_loop cfg u seed_cs (range_len target_start end_ts seed_cs)
              O target_start last_close d with
      | (Returns _, d') =>
          (Returns tt, set_state STATE_SEEDED_TAG (_seed_tag cfg) d')
      | (Raises ex, d') => (Raises ex, d')
      end.

(** [init_or_load]; [now0] is the clock the seeder reads and [now] the
    one read after it. *)
Definition init_or_load (cfg : MarketConfig F) (now0 now : Z) (u : nat -> F)
    (w : World F) : Outcome unit * World F :=
  match seed_history_if_needed cfg now0 u (db w) with
  | (Raises ex, d) => (Raises ex, {| engine := engine w; db := d |})
  | (Returns _, d) =>
      let e := engine w in
      let p := match get_last_candle d with
               | Some last => c_close last
               | None => start_price cfg
               end in
      let cs := Z.max 1 (candle_seconds cfg) in
      let cts := (now / cs * cs)%Z in
      let st := match get_state STATE_STARTED d with
                | Some (SFlag b) => b
                | Some (SInt z) => (z =? 1)%Z
                | _ => false
                end in
      let e1 := {| pool_x := pool_x e; pool_y := pool_y e; pool_k := pool_k e;
                   price := p; candle_ts := cts;
                   candle_o := p; candle_h := p; candle_l := p; candle_c := p;
                   started := st |} in
      let reload :=
        match _get_state_float STATE_POOL_X d,
              _get_state_float STATE_POOL_Y d,
              _get_state_float STATE_POOL_K d with
        | Some x, Some y, Some k =>
            if (of_Z 0 <? x) && (of_Z 0 <? y) && (of_Z 0 <? k)
            then Some (x, y, k) else None
        | _, _, _ => None
        end in
      match reload with
      | Some (x, y, k) =>
          let e2 := {| pool_x := x; pool_y := y; pool_k := k;
                       price := p; candle_ts := cts;
                       candle_o := p; candle_h := p; candle_l := p;
                       candle_c := p; started := st |} in
          if is_zero x then (Raises ZeroDivisionError, {| engine := e2; db := d |})
          else
            let e3 := with_pool e2 x y (y / x) in
            (Returns tt,
             {| engine := e3;
                db := set_state STATE_CANDLE_TS (SInt cts)
                        (set_state STATE_PRICE (SNum (price e3)) d) |})
      | None =>
          (Returns tt,
           {| engine := e1;
              db := set_state STATE_CANDLE_TS (SInt cts)
                      (set_state STATE_PRICE (SNum p) d) |})
      end
  end.

(** [start_game]: seeds the pool unless the game runs already.  On a
    running game the sources [return self.snapshot()] inside [with
    self._lock], and [snapshot] asks for the same lock: the call never
    returns, and the lock stays taken.  Otherwise [snapshot] is called
    once the lock is released. *)
Definition start_game (cfg : MarketConfig F) (now : Z) (w : World F)
    : Ending unit * World F :=
  let e := engine w in
  if started e && (of_Z 0 <? pool_x e) && (of_Z 0 <? pool_y e)
  then (Deadlock, w)
  else
    let usd_liq := pymax (of_Z 1000) (initial_usd_liquidity cfg) in
    let p0 := pymax (dec 1 4) (price e) in
    if is_zero p0 then (Ends (Raises ZeroDivisionError), w)
    else
      let x := usd_liq / p0 in
      let y := usd_liq in
      let k := x * y in
      let e1 := {| pool_x := x; pool_y := y; pool_k := k; price := price e;
                   candle_ts := candle_ts e;
                   candle_o := candle_o e; candle_h := candle_h e;
                   candle_l := candle_l e; candle_c := candle_c e;
                   started := started e |} in
      if is_zero x
      then (Ends (Raises ZeroDivisionError), {| engine := e1; db := db w |})
      else
        let p := y / x in
        let cs := Z.max 1 (candle_seconds cfg) in
        let e2 := {| pool_x := x; pool_y := y; pool_k := k; price := p;
                     candle_ts := (now / cs * cs)%Z;
                     candle_o := p; candle_h := p; candle_l := p; candle_c := p;
                     started := true |} in
        (Ends (Returns tt),
         {| engine := e2; db := _set_pool_state e2 (db w) |}).
End Lifecycle.

Section Orders.
Context {F : Type} `{Arith F}.
Local Open Scope num_scope.

Definition reject (err : TradeError) (w : World F)
    : Outcome (TradeResult F) * World F :=
  (Returns (Rejected err), w).

Definition with_engine (w : World F) (e : Engine F) : World F :=
  {| engine := e; db := db w |}.

(** The tail both market orders share once the margin test has passed:
    [UPDATE players], [INSERT INTO trades], [_touch_candle] at the new
    price and [_set_pool_state]; [e1] is the engine with the new pool. *)
Definition commit_trade (cfg : MarketConfig F) (now : Z) (t : Trade F)
    (e1 : Engine F) (d : Db F) : World F :=
  let d1 := update_player_wallet (t_code t) (t_cash_after t) (t_pos_after t)
              now d in
  let d2 := insert_trade t d1 in
  let w1 := _touch_candle cfg now (price e1) {| engine := e1; db := d2 |} in
  {| engine := engine w1; db := _set_pool_state (engine w1) (db w1) |}.

(** [market_buy(code, usd_in)] at clock [now]. *)
Definition market_buy (cfg : MarketConfig F) (now : Z) (code0 : string)
    (usd_in : F) (w : World F) : Outcome (TradeResult F) * World F :=
  let code := strip code0 in
  if String.eqb code "" then reject InvalidCode w
  else if usd_in <=? of_Z 0 then reject InvalidAmount w
  else
    let e := engine w in
    if negb (started e) then reject NotStarted w
    else if (pool_x e <=? of_Z 0) || (pool_y e <=? of_Z 0)
            || (pool_k e <=? of_Z 0) then reject InvalidPool w
    else
      match players (db w) !! code with
      | None => reject UnknownPlayer w
      | Some row =>
          let cash0 := cash row in
          let pos0 := pos row in
          if cash0 <? usd_in then reject InsufficientFunds w
          else
            let fee := usd_in * fee_rate cfg in
            let usd_effective := usd_in - fee in
            if usd_effective <=? of_Z 0 then reject FeeUnderflow w
            else
              (* AMM: Y' = Y + usd_effective ; X' = K / Y' *)
              let y_new := pool_y e + usd_effective in
              if is_zero y_new then (Raises ZeroDivisionError, w)
              else
                let x_new := pool_k e / y_new in
                let rich_out := pool_x e - x_new in
                if (rich_out <=? of_Z 0) || (x_new <=? of_Z 0)
                then reject InsufficientLiquidity w
                else if is_zero x_new
                then (Raises ZeroDivisionError,
                      with_engine w (with_pool e x_new y_new (price e)))
                else
                  let e1 := with_pool e x_new y_new (y_new / x_new) in
                  if is_zero rich_out
                  then (Raises ZeroDivisionError, with_engine w e1)
                  else
                    let trade_price := usd_effective / rich_out in
                    let notional := usd_in in
                    let cash_after := cash0 - usd_in in
                    let pos_after := pos0 + rich_out in
                    if negb (_margin_ok cfg cash_after pos_after (price e1))
                    then
                      (* the pool is put back *)
                      let y_back := pool_y e1 - usd_effective in
                      let x_back := pool_x e1 + rich_out in
                      if is_zero x_back
                      then (Raises ZeroDivisionError,
                            with_engine w (with_pool e1 x_back y_back (price e1)))
                      else
                        reject MarginRefused
                          (with_engine w
                             (with_pool e1 x_back y_back (y_back / x_back)))
                    else
                      let w2 := commit_trade cfg now
                                  {| t_code := code; t_ts := now; t_side := BUY;
                                     t_qty := rich_out; t_price := trade_price;
                                     t_notional := notional; t_fee := fee;
                                     t_cash_after := cash_after;
                                     t_pos_after := pos_after |} e1 (db w) in
                      (Returns
                         (Accepted
                            {| r_side := BUY; r_ts := now;
                               r_amount_in := usd_in; r_fee := fee;
                               r_amount_out := rich_out;
                               r_avg_price := trade_price;
                               r_price_after := price (engine w2);
                               r_cash_after := cash_after;
                               r_pos_after := pos_after |}),
                       w2)
      end.

(** [market_sell(code, rich_in)] at clock [now]. *)
Definition market_sell (cfg : MarketConfig F) (now : Z) (code0 : string)
    (rich_in : F) (w : World F) : Outcome (TradeResult F) * World F :=
  let code := strip code0 in
  if String.eqb code "" then reject InvalidCode w
  else if rich_in <=? of_Z 0 then reject InvalidAmount w
  else
    let e := engine w in
    if negb (started e) then reject NotStarted w
    else if (pool_x e <=? of_Z 0) || (pool_y e <=? of_Z 0)
            || (pool_k e <=? of_Z 0) then reject InvalidPool w
    else
      match players (db w) !! code with
      | None => reject UnknownPlayer w
      | Some row =>
          let cash0 := cash row in
          let pos0 := pos row in
          (* AMM: X' = X + rich_in ; Y' = K / X' *)
          let x_new := pool_x e + rich_in in
          if is_zero x_new then (Raises ZeroDivisionError, w)
          else
            let y_new := pool_k e / x_new in
            let usd_out_gross := pool_y e - y_new in
            if (usd_out_gross <=? of_Z 0) || (y_new <=? of_Z 0)
            then reject InsufficientLiquidity w
            else
              let fee := usd_out_gross * fee_rate cfg in
              let usd_out := usd_out_gross - fee in
              if usd_out <=? of_Z 0 then reject FeeUnderflow w
              else
                let e1 := with_pool e x_new y_new (y_new / x_new) in
                if is_zero rich_in
                then (Raises ZeroDivisionError, with_engine w e1)
                else
                  let trade_price := usd_out / rich_in in
                  let notional := usd_out in
                  let cash_after := cash0 + usd_out in
                  let pos_after := pos0 - rich_in in
                  if negb (_margin_ok cfg cash_after pos_after (price e1))
                  then
                    (* the pool is put back *)
                    let x_back := pool_x e1 - rich_in in
                    let y_back := pool_y e1 + usd_out_gross in
                    if is_zero x_back
                    then (Raises ZeroDivisionError,
                          with_engine w (with_pool e1 x_back y_back (price e1)))
                    else
                      reject MarginRefused
                        (with_engine w
                           (with_pool e1 x_back y_back (y_back / x_back)))
                  else
                    let w2 := commit_trade cfg now
                                {| t_code := code; t_ts := now; t_side := SELL;
                                   t_qty := rich_in; t_price := trade_price;
                                   t_notional := notional; t_fee := fee;
                                   t_cash_after := cash_after;
                                   t_pos_after := pos_after |} e1 (db w) in
                    (Returns
                       (Accepted
                          {| r_side := SELL; r_ts := now;
                             r_amount_in := rich_in; r_fee := fee;
                             r_amount_out := usd_out;
                             r_avg_price := trade_price;
                             r_price_after := price (engine w2);
                             r_cash_after := cash_after;
                             r_pos_after := pos_after |}),
                     w2)
      end.

(** [_liquidate_if_needed]: the stop-out of the ticker.  The rows are
    visited in the order of the map's listing; SQLite promises none. *)
Definition liquidate_row (cfg : MarketConfig F) (now : Z) (mark : F)
    (d : Db F) (r : string * Player F) : Db F :=
  let code := fst r in
  let equity := _equity (cash (snd r)) (pos (snd r)) mark in
  if equity <=? stopout_equity cfg then
    let side := if of_Z 0 <? pos (snd r) then SELL else BUY in
    let qty := fabs (pos (snd r)) in
    let notional := qty * mark in
    insert_trade
      {| t_code := code; t_ts := now; t_side := side;
         t_qty := qty; t_price := mark; t_notional := notional;
         t_fee := of_Z 0; t_cash_after := of_Z 0; t_pos_after := of_Z 0 |}
      (update_player_wallet code (of_Z 0) (of_Z 0) now d)
  else d.

Definition _liquidate_if_needed (cfg : MarketConfig F) (now : Z)
    (w : World F) : World F :=
  let rows := filter (fun r => fneb (pos (snd r)) (of_Z 0) = true)
                (map_to_list (players (db w))) in
  {| engine := engine w;
     db := fold_left (liquidate_row cfg now (price (engine w))) rows (db w) |}.

(** [_tick]: [now_s] is the clock of the candle, [now] that of the
    stop-out. *)
Definition _tick (cfg : MarketConfig F) (now_s now : Z) (w : World F)
    : World F :=
  let w1 := _touch_candle cfg now_s (price (engine w)) w in
  let w2 := {| engine := engine w1;
               db := set_state STATE_CANDLE_TS (SInt (candle_ts (engine w1)))
                       (set_state STATE_PRICE (SNum (price (engine w1)))
                          (db w1)) |} in
  if of_Z 0 <? stopout_equity cfg then _liquidate_if_needed cfg now w2
  else w2.
End Orders.

(** ** The application layer (app.py) *)

Section Join.
Context {F : Type} `{Arith F}.

(** [INITIAL_CASH = 10_000.0] *)
Definition INITIAL_CASH : F := of_Z 10000.

Inductive JoinResult :=
  | Joined (code nick0 : string)
  | BadRequest.

(** The length bounds of the [JoinReq] model ([Field(min_length=...,
    max_length=...)]), checked before the handler runs. *)
Definition JoinReq_valid (code nick0 : string) : bool :=
  ((4 <=? String.length code)%nat && (String.length code <=? 64)%nat)
  && ((1 <=? String.length nick0)%nat && (String.length nick0 <=? 32)%nat).

(** [POST /api/join] *)
Definition join (now : Z) (code0 nick0 : string) (d : Db F)
    : JoinResult * Db F :=
  if negb (JoinReq_valid code0 nick0) then (BadRequest, d)
  else
    let code := strip code0 in
    let nick1 := strip nick0 in
    if has_blank code then (BadRequest, d)
    else if String.eqb nick1 "" then (BadRequest, d)
    else (Joined code nick1, upsert_player code nick1 INITIAL_CASH now d).
End Join.

Section Stats.
Context {F : Type} `{Arith F}.
Local Open Scope num_scope.

(** The state of the replay: [(pos, avg, realized)]. *)
Record Stats := {
  s_pos : F;
  s_avg : F;
  s_realized : F
}.

(** One turn of the loop of [_compute_stats_from_trades]. *)
Definition stats_step (s : Stats) (t : Trade F) : Stats :=
  let qty := t_qty t in
  let price0 := t_price t in
  let fee := t_fee t in
  match t_side t with
  | BUY =>
      if of_Z 0 <=? s_pos s then
        let new_pos := s_pos s + qty in
        let avg := if fneb new_pos (of_Z 0)
                   then (s_pos s * s_avg s + qty * price0) / new_pos
                   else of_Z 0 in
        {| s_pos := new_pos; s_avg := avg; s_realized := s_realized s - fee |}
      else
        let cover := pymin qty (fabs (s_pos s)) in
        let realized := s_realized s + (s_avg s - price0) * cover in
        let pos1 := s_pos s + cover in
        let leftover := qty - cover in
        let '(pos2, avg2) := if fabs pos1 <? dec 1 12
                             then (of_Z 0, of_Z 0) else (pos1, s_avg s) in
        let '(pos3, avg3) := if of_Z 0 <? leftover
                             then (leftover, price0) else (pos2, avg2) in
        {| s_pos := pos3; s_avg := avg3; s_realized := realized - fee |}
  | SELL =>
      if s_pos s <=? of_Z 0 then
        let new_pos := s_pos s - qty in
        let abs_old := fabs (s_pos s) in
        let abs_new := fabs new_pos in
        let avg := if fneb abs_new (of_Z 0)
                   then (abs_old * s_avg s + qty * price0) / abs_new
                   else of_Z 0 in
        {| s_pos := new_pos; s_avg := avg; s_realized := s_realized s - fee |}
      else
        let close := pymin qty (s_pos s) in
        let realized := s_realized s + (price0 - s_avg s) * close in
        let pos1 := s_pos s - close in
        let leftover := qty - close in
        let '(pos2, avg2) := if fabs pos1 <? dec 1 12
                             then (of_Z 0, of_Z 0) else (pos1, s_avg s) in
        let '(pos3, avg3) := if of_Z 0 <? leftover
                             then (- leftover, price0) else (pos2, avg2) in
        {| s_pos := pos3; s_avg := avg3; s_realized := realized - fee |}
  end.

Definition stats_init : Stats :=
  {| s_pos := of_Z 0; s_avg := of_Z 0; s_realized := of_Z 0 |}.

(** The loop over the trades, from [pos = avg = realized = 0.0]. *)
Definition replay (ts : list (Trade F)) : Stats :=
  fold_left stats_step ts stats_init.

(** [_list_trades_asc(code)] and [_last_trade_id(code)]: the rows of one
    player in [id] order, and the largest [id] among them, 0 if none. *)
Fixpoint trades_of (code : string) (id : Z) (ts : list (Trade F))
    : list (Z * Trade F) :=
  match ts with
  | [] => []
  | t :: ts' =>
      if String.eqb (t_code t) code
      then (id, t) :: trades_of code (id + 1) ts'
      else trades_of code (id + 1) ts'
  end.

Definition _list_trades_asc (code : string) (d : Db F) : list (Trade F) :=
  map snd (trades_of code 1 (trades d)).

Definition _last_trade_id (code : string) (d : Db F) : Z :=
  fold_left Z.max (map fst (trades_of code 1 (trades d))) 0%Z.

(** The two module dictionaries [_STATS_CACHE] and [_STATS_CACHE_TS]. *)
Record StatsCache := {
  cache : gmap string (Z * F * F * F);
  cache_ts : gmap string F
}.

(** [_STATS_CACHE_TTL_SEC = 2.0] *)
Definition _STATS_CACHE_TTL_SEC : F := of_Z 2.

(** [_compute_stats_from_trades(code)] at clock [now] ([time.time()], a
    float): returns [(avg, realized, pos)]. *)
Definition _compute_stats_from_trades (now : F) (code : string)
    (d : Db F) (c : StatsCache) : (F * F * F) * StatsCache :=
  let ttl_ok := (now - default (of_Z 0) (cache_ts c !! code))
                <=? _STATS_CACHE_TTL_SEC in
  let last_id := _last_trade_id code d in
  let hit := match cache c !! code with
             | Some (id, avg, realized, pos0) =>
                 if ttl_ok && (id =? last_id)%Z
                 then Some (avg, realized, pos0) else None
             | None => None
             end in
  match hit with
  | Some r => (r, c)
  | None =>
      let s := replay (_list_trades_asc code d) in
      ((s_avg s, s_realized s, s_pos s),
       {| cache := <[code := (last_id, s_avg s, s_realized s, s_pos s)]> (cache c);
          cache_ts := <[code := now]> (cache_ts c) |})
  end.
End Stats.

Arguments Stats : clear implicits.
Arguments StatsCache : clear implicits.

(** ** Candle aggregation (app.py) *)

#[export] Instance Outcome_ret : MRet Outcome := fun _ a => Returns a.
#[export] Instance Outcome_bind : MBind Outcome := fun _ _ f m =>
  match m with
  | Returns a => f a
  | Raises e => Raises e
  end.

#[export] Instance Outcome_fmap : FMap Outcome := fun _ _ f m =>
  match m with
  | Returns a => Returns (f a)
  | Raises e => Raises e
  end.

Section Aggregate.
Context {F : Type} `{Arith F}.
Local Open Scope num_scope.

(** The rows are Python dictionaries from column names to numbers; a
    number is an [int] or a [float]. *)
Inductive Val :=
  | VInt (z : Z)
  | VNum (x : F).

(** [r[k]] *)
Definition getitem (r : gmap string Val) (k : string) : Outcome Val :=
  match r !! k with
  | Some v => Returns v
  | None => Raises (KeyError k)
  end.

(** [int(v)]; [int] of an infinity or a NaN raises (here [ValueError] for
    both). *)
Definition py_int (v : Val) : Outcome Z :=
  match v with
  | VInt z => Returns z
  | VNum x => match trunc x with
              | Some z => Returns z
              | None => Raises ValueError
              end
  end.

(** [float(v)] *)
Definition py_float (v : Val) : F :=
  match v with
  | VInt z => of_Z z
  | VNum x => x
  end.

(** A bar in the making: [(cur_bucket, o, h, l, c)]. *)
Definition Bar : Type := Z * F * F * F * F.

(** [{"time": int(cur_bucket), "open": o, "high": h, "low": l, "close": c}] *)
Definition out_row (b : Bar) : gmap string Val :=
  let '(t, o, h, l, c) := b in
  <["time" := VInt t]> (<["open" := VNum o]> (<["high" := VNum h]>
    (<["low" := VNum l]> (<["close" := VNum c]> ∅)))).

(** The reads at the head of the loop body. *)
Definition read_row (r : gmap string Val) : Outcome Bar :=
  ts ← getitem r "ts" ≫= py_int;
  ro ← py_float <$> getitem r "open";
  rh ← py_float <$> getitem r "high";
  rl ← py_float <$> getitem r "low";
  rc ← py_float <$> getitem r "close";
  mret (ts, ro, rh, rl, rc).

(** The loop of [_aggregate_candles]: [cur] is [None] while [cur_bucket]
    is. *)
Fixpoint agg_loop (tf : Z) (raw : list (gmap string Val)) (cur : option Bar)
    (out : list (gmap string Val)) : Outcome (list (gmap string Val)) :=
  match raw with
  | [] =>
      Returns (match cur with
               | Some b => out ++ [out_row b]
               | None => out
               end)
  | r :: raw' =>
      match read_row r with
      | Raises e => Raises e
      | Returns (ts, ro, rh, rl, rc) =>
          let bucket := (ts / tf * tf)%Z in
          match cur with
          | None => agg_loop tf raw' (Some (bucket, ro, rh, rl, rc)) out
          | Some (cur_bucket, o, h, l, c) =>
              if negb (bucket =? cur_bucket)%Z
              then agg_loop tf raw' (Some (bucket, ro, rh, rl, rc))
                     (out ++ [out_row (cur_bucket, o, h, l, c)])
              else agg_loop tf raw' (Some (cur_bucket, o, pymax h rh, pymin l rl, rc))
                     out
          end
      end
  end.

Definition _aggregate_candles (raw : list (gmap string Val)) (tf_seconds : Z)
    : Outcome (list (gmap string Val)) :=
  match raw with
  | [] => Returns []
  | _ => agg_loop (Z.max 1 tf_seconds) raw None []
  end.

(** A row of [_last_candles_raw]: [dict] of a row of [candles]. *)
Definition raw_row (r : Z * Candle F) : gmap string Val :=
  <["ts" := VInt (fst r)]> (<["open" := VNum (c_open (snd r))]>
    (<["high" := VNum (c_high (snd r))]> (<["low" := VNum (c_low (snd r))]>
      (<["close" := VNum (c_close (snd r))]> ∅)))).

(** An output row read back as an input row: the key [time] renamed
    to [ts]. *)
Definition retime (r : gmap string Val) : gmap string Val :=
  match r !! "time" with
  | Some v => <["ts" := v]> (delete "time" r)
  | None => r
  end.
End Aggregate.

Arguments Val : clear implicits.
Arguments Bar : clear implicits.

(** ** Responses *)

Section Responses.
Context {F : Type} `{Arith F}.

(** [JSONResponse(content)] renders its content with [json.dumps(...,
    allow_nan=False)], which raises [ValueError] on a float that is an
    infinity or a NaN; the handler then answers 500.  [floats] are the
    floats of the content. *)
Definition JSONResponse (floats : list F) : Outcome unit :=
  if forallb finite floats then Returns tt else Raises ValueError.

(** The floats of a row, and of a list of rows. *)
Definition val_floats (v : Val F) : list F :=
  match v with
  | VNum x => [x]
  | VInt _ => []
  end.

Definition row_floats (r : gmap string (Val F)) : list F :=
  (map_to_list r).*2 ≫= val_floats.

Definition rows_floats (rows : list (gmap string (Val F))) : list F :=
  rows ≫= row_floats.
End Responses.

(** ** The trade endpoint (app.py) *)

Section Trade.
Context {F : Type} `{Arith F}.
Local Open Scope num_scope.

(** The [me] block of a trade response. *)
Record Me := {
  me_cash : F;
  me_pos : F;
  me_price : F;
  me_equity : F;
  me_avg_price : F;
  me_pnl_realized : F;
  me_pnl_unrealized : F;
  me_pnl_total : F
}.

Inductive HttpResult :=
  | Http200 (r : TradeOk F) (me : Me)
  | Http400 (e : TradeError)
  | Http404
  | Http500 (e : Exn).

(** The unrealized PnL of the handlers: a long, a short, or nothing. *)
Definition pnl_unrealized (pos0 avg_price price0 : F) : F :=
  if (of_Z 0 <? pos0) && (of_Z 0 <? avg_price)
  then (price0 - avg_price) * pos0
  else if (pos0 <? of_Z 0) && (of_Z 0 <? avg_price)
  then (avg_price - price0) * fabs pos0
  else of_Z 0.

(** What [POST /api/trade] passes to the engine: a BUY is sized in USD,
    a SELL in USD converted at the price before the trade. *)
Definition engine_call (cfg : MarketConfig F) (now : Z) (code : string)
    (side : Side) (usd : F) (w : World F)
    : Outcome (TradeResult F) * World F :=
  match side with
  | BUY => market_buy cfg now code usd w
  | SELL =>
      let price_now := price (engine w) in
      let d := pymax (dec 1 4) price_now in
      if is_zero d then (Raises ZeroDivisionError, w)
      else market_sell cfg now code (usd / d) w
  end.

(** The floats of the dictionary [POST /api/trade] answers with: those
    of the result of the order and those of its [me] block. *)
Definition trade_floats (r : TradeOk F) (me : Me) : list F :=
  [r_amount_in r; r_fee r; r_amount_out r; r_avg_price r; r_price_after r;
   r_cash_after r; r_pos_after r;
   me_cash me; me_pos me; me_price me; me_equity me; me_avg_price me;
   me_pnl_realized me; me_pnl_unrealized me; me_pnl_total me].

(** [POST /api/trade] with a body that passed [TradeReq]; [now] is the
    clock of the engine and [t] the one of the statistics.  The answer
    leaves through [JSONResponse], after the order has been written. *)
Definition trade (cfg : MarketConfig F) (now : Z) (t : F) (code0 : string)
    (side : Side) (usd : F) (w : World F) (c : StatsCache F)
    : HttpResult * World F * StatsCache F :=
  let code := strip code0 in
  match get_player code (db w) with
  | None => (Http404, w, c)
  | Some _ =>
      match engine_call cfg now code side usd w with
      | (Raises ex, w') => (Http500 ex, w', c)
      | (Returns (Rejected err), w') => (Http400 err, w', c)
      | (Returns (Accepted r), w') =>
          let c1 := {| cache := cache c;
                       cache_ts := <[code := of_Z 0]> (cache_ts c) |} in
          match get_player code (db w') with
          | None => (Http500 TypeError, w', c1)
          | Some p2 =>
              let price0 := price (engine w') in
              let equity := cash p2 + pos p2 * price0 in
              let '(avg_price, pnl_realized, _, c2) :=
                _compute_stats_from_trades t code (db w') c1 in
              let unreal := pnl_unrealized (pos p2) avg_price price0 in
              let me := {| me_cash := cash p2; me_pos := pos p2;
                           me_price := price0;
                           me_equity := equity; me_avg_price := avg_price;
                           me_pnl_realized := pnl_realized;
                           me_pnl_unrealized := unreal;
                           me_pnl_total := pnl_realized + unreal |} in
              match JSONResponse (trade_floats r me) with
              | Returns _ => (Http200 r me, w', c2)
              | Raises ex => (Http500 ex, w', c2)
              end
          end
      end
  end.
End Trade.

(** ** The states the system reaches *)

Section Reach.
Context {F : Type} `{Arith F}.

(** A process starts from a fresh engine over an empty database; then
    the loader, [start_game], joins, market orders and ticks run in any
    order, with any clock and any inputs.  An operation that raises
    leaves the state it had reached; a [start_game] that blocks has
    changed nothing, so the states listed are the same with or without
    the calls made after it, which wait for the lock. *)
Inductive reachable (cfg : MarketConfig F) : World F -> Prop :=
  | reach_new :
      reachable cfg {| engine := new_engine cfg; db := init_db |}
  | reach_load w now0 now u :
      reachable cfg w ->
      reachable cfg (snd (init_or_load cfg now0 now u w))
  | reach_start w now :
      reachable cfg w ->
      reachable cfg (snd (start_game cfg now w))
  | reach_join w now code nick0 :
      reachable cfg w ->
      reachable cfg {| engine := engine w;
                       db := snd (join now code nick0 (db w)) |}
  | reach_buy w now code usd_in :
      reachable cfg w ->
      reachable cfg (snd (market_buy cfg now code usd_in w))
  | reach_sell w now code rich_in :
      reachable cfg w ->
      reachable cfg (snd (market_sell cfg now code rich_in w))
  | reach_tick w now_s now :
      reachable cfg w ->
      reachable cfg (_tick cfg now_s now w).
End Reach.

(** ** Configurations of the sources *)

Section Configs.
Context {F : Type} `{Arith F}.


(** The configuration of the module's [engine]. *)
Definition engine_config : MarketConfig F :=
  {| candle_seconds := 1;
     tick_seconds := of_Z 1;
     start_price := of_Z 100;
     initial_usd_liquidity := of_Z 2000000;
     seed_enabled := true;
     seed_seconds := 7 * 24 * 60 * 60;
     seed_candle_seconds := 60;
     seed_step_pct := dec 7 4;
     fee_rate := of_Z 0;
     min_equity := of_Z 0;
     leverage_max := of_Z 3;
     stopout_equity := of_Z 0 |}.

(** A fresh process: a new engine over the tables [init_db] creates. *)
Definition fresh (cfg : MarketConfig F) : World F :=
  {| engine := new_engine cfg; db := init_db |}.

(** A join through the endpoint, lifted to the whole state. *)
Definition joined (now : Z) (code nick0 : string) (w : World F) : World F :=
  {| engine := engine w; db := snd (join now code nick0 (db w)) |}.

(** Either market order, by its side. *)
Definition market_order (cfg : MarketConfig F) (now : Z) (code : string)
    (side : Side) (amount : F) (w : World F)
    : Outcome (TradeResult F) * World F :=
  match side with
  | BUY => market_buy cfg now code amount w
  | SELL => market_sell cfg now code amount w
  end.

(** [low <= min(open, close) <= max(open, close) <= high] *)
Definition well_formed (o h l c : F) : bool :=
  fleb l (pymin o c) && fleb (pymin o c) (pymax o c) && fleb (pymax o c) h.

Definition live_well_formed (e : Engine F) : bool :=
  well_formed (candle_o e) (candle_h e) (candle_l e) (candle_c e).

Definition row_well_formed (r : Candle F) : bool :=
  well_formed (c_open r) (c_high r) (c_low r) (c_close r).
End Configs.

(** ** Invariants of the reachable states *)

Section Invariants.
Context {F : Type} `{Arith F}.
Local Open Scope num_scope.

(** The pool constant is the product of the reserves, in the engine and
    in the copy [_set_pool_state] keeps in [market_state]. *)
Definition stored_pool_consistent (d : Db F) : Prop :=
  forall x y k,
    _get_state_float STATE_POOL_X d = Some x ->
    _get_state_float STATE_POOL_Y d = Some y ->
    _get_state_float STATE_POOL_K d = Some k ->
    k = x * y.

Definition pool_consistent (w : World F) : Prop :=
  pool_k (engine w) = pool_x (engine w) * pool_y (engine w) /\
  stored_pool_consistent (db w).

(** The live candle and every stored row are well formed. *)
Definition candles_well_formed (w : World F) : Prop :=
  live_well_formed (engine w) = true /\
  forall ts row, candles (db w) !! ts = Some row -> row_well_formed row = true.
End Invariants.

(** ** Two small sessions *)

Section Scenes.
Context {F : Type} `{Arith F}.

(** The game is started at second 1000 on a fresh process and
    ["alice01"] joins. *)
Definition scene_joined (cfg : MarketConfig F) : World F :=
  joined 1000 "alice01" "A" (snd (start_game cfg 1000 (fresh cfg))).

(** Then she buys for 1000 USD at second 1001. *)
Definition scene_bought (cfg : MarketConfig F) : World F :=
  snd (market_buy cfg 1001 "alice01" (of_Z 1000) (scene_joined cfg)).

Definition no_cache : StatsCache F := {| cache := ∅; cache_ts := ∅ |}.
End Scenes.

(** ** The trade log [BUY 5 @ 100; SELL 8 @ 110] *)

Section ReplayLog.
Context {F : Type} `{Arith F}.
Local Open Scope num_scope.

Definition flip_log : list (Trade F) :=
  [ {| t_code := "alice01"; t_ts := 1001; t_side := BUY;
       t_qty := of_Z 5; t_price := of_Z 100; t_notional := of_Z 500;
       t_fee := of_Z 0; t_cash_after := of_Z 9500; t_pos_after := of_Z 5 |};
    {| t_code := "alice01"; t_ts := 1002; t_side := SELL;
       t_qty := of_Z 8; t_price := of_Z 110; t_notional := of_Z 880;
       t_fee := of_Z 0; t_cash_after := of_Z 10380;
       t_pos_after := of_Z (-3) |} ].

Definition flip_db : Db F := with_trades init_db flip_log.

(** The branch of the replay the spec calls "reducing long", in its
    words: [close = min(qty, pos)], [realized += (price - avg) * close],
    [pos -= close], [leftover = qty - close]; [pos] and [avg] are zeroed
    when [|pos| < 1e-12]; a positive [leftover] opens a short of that size
    at [avg = price]; then [realized -= fee]. *)
Definition spec_reduce_long (s : Stats F) (qty price0 fee : F) : Stats F :=
  let close := pymin qty (s_pos s) in
  let realized := s_realized s + (price0 - s_avg s) * close in
  let pos1 := s_pos s - close in
  let leftover := qty - close in
  let zeroed := fabs pos1 <? dec 1 12 in
  if of_Z 0 <? leftover
  then {| s_pos := - leftover; s_avg := price0; s_realized := realized - fee |}
  else if zeroed
  then {| s_pos := of_Z 0; s_avg := of_Z 0; s_realized := realized - fee |}
  else {| s_pos := pos1; s_avg := s_avg s; s_realized := realized - fee |}.
End ReplayLog.

(** ** Aggregation over typed rows, and its specification *)

Section AggregateSpec.
Context {F : Type} `{Arith F}.
Local Open Scope num_scope.

Definition bucket_of (tf ts : Z) : Z := (ts / tf * tf)%Z.

(** A stored candle as the bar of its own second, and back. *)
Definition bar_of (r : Z * Candle F) : Bar F :=
  (fst r, c_open (snd r), c_high (snd r), c_low (snd r), c_close (snd r)).

Definition candle_of (b : Bar F) : Z * Candle F :=
  let '(t, o, h, l, c) := b in
  (t, {| c_open := o; c_high := h; c_low := l; c_close := c |}).

Definition bar_time (b : Bar F) : Z := fst (candle_of b).

(** The loop of [_aggregate_candles] on rows such as [_last_candles_raw]
    returns, once the first row has opened a bar: the state is the list
    [out] and the bar in the making. *)
Definition agg_step (tf : Z) (st : list (Bar F) * Bar F) (r : Z * Candle F)
    : list (Bar F) * Bar F :=
  let '(out, (cur_bucket, o, h, l, c)) := st in
  let bucket := bucket_of tf (fst r) in
  if negb (bucket =? cur_bucket)%Z
  then (out ++ [(cur_bucket, o, h, l, c)],
        (bucket, c_open (snd r), c_high (snd r), c_low (snd r), c_close (snd r)))
  else (out, (cur_bucket, o, pymax h (c_high (snd r)), pymin l (c_low (snd r)),
              c_close (snd r))).

Definition agg_run (tf : Z) (r : Z * Candle F) (rest : list (Z * Candle F))
    : list (Bar F) * Bar F :=
  fold_left (agg_step tf) rest
    ([], (bucket_of tf (fst r), c_open (snd r), c_high (snd r), c_low (snd r),
          c_close (snd r))).

Definition agg_bars (tf : Z) (cs : list (Z * Candle F)) : list (Bar F) :=
  match cs with
  | [] => []
  | r :: rest => fst (agg_run tf r rest) ++ [snd (agg_run tf r rest)]
  end.

(** The words of the spec: the rows of one bucket, in their order, and
    the bar they make: the bucket, the first open, the largest high, the
    smallest low, the last close. *)
Definition group (tf b : Z) (cs : list (Z * Candle F)) : list (Z * Candle F) :=
  filter (fun r => bucket_of tf (fst r) = b) cs.

Definition summarize (b : Z) (g : list (Z * Candle F)) : option (Bar F) :=
  match g with
  | [] => None
  | r :: g' =>
      Some (b, c_open (snd r),
            fold_left pymax (map (fun q => c_high (snd q)) g') (c_high (snd r)),
            fold_left pymin (map (fun q => c_low (snd q)) g') (c_low (snd r)),
            c_close (snd (default r (last g'))))
  end.

(** Rows in ascending time order, one per second at most. *)
Definition ascending (cs : list (Z * Candle F)) : Prop :=
  StronglySorted Z.lt (fst <$> cs).
End AggregateSpec.

(** ** Proof tools *)

(** Order on the numbers of the sources, as the tests of the sources
    decide it. *)
Notation "a <= b" := (fleb a b = true) : num_scope.
Notation "a < b" := (fltb a b = true) : num_scope.

(** Opens the test at the head of a run [Hrun : (if b then _ else _) = _],
    keeping its value as an equation. *)
Ltac open_head Hrun :=
  cbv zeta in Hrun;
  lazymatch type of Hrun with
  | (if ?b then _ else _) = _ =>
      let E := fresh "G" in destruct b eqn:E
  | match ?o with Some _ => _ | None => _ end = _ =>
      let E := fresh "G" in destruct o eqn:E
  end.

Ltac split_guards :=
  repeat match goal with
         | H : (_ || _) = false |- _ => apply orb_false_iff in H; destruct H
         | H : negb _ = false |- _ => apply negb_false_iff in H
         | H : negb _ = true |- _ => apply negb_true_iff in H
         end.

(** Walks a run under [snd]: opens the test at its head. *)
Ltac walk_head :=
  cbv zeta;
  lazymatch goal with
  | |- context [snd (if ?b then _ else _)] =>
      let E := fresh "G" in destruct b eqn:E
  | |- context [snd (match ?o with Some _ => _ | None => _ end)] =>
      let E := fresh "G" in destruct o eqn:E
  end.

(** Turns the tests of the sources on exact rationals into statements of
    [Qc]; the arguments are the lemmas that do it, test by test. *)
Ltac exact_props_with le lef lt ltf eq nz :=
  repeat match goal with
         | H : fleb _ _ = true |- _ => apply le in H
         | H : fleb _ _ = false |- _ => apply lef in H
         | H : fltb _ _ = true |- _ => apply lt in H
         | H : fltb _ _ = false |- _ => apply ltf in H
         | H : feqb _ _ = true |- _ => apply eq in H
         | H : is_zero _ = false |- _ => apply nz in H
         end.

(** Order goals of [Qc], sent to [Q] and decided there. *)
Ltac qc_lra :=
  change (@of_Z Qc exact 0%Z) with 0%Qc in *;
  change (@of_Z Qc exact 1%Z) with 1%Qc in *;
  cbn [fadd fsub fmul fdiv fopp exact] in *;
  unfold Qcle, Qclt, Qcminus, Qcdiv in *;
  cbn [this Qcplus Qcmult Qcopp Q2Qc] in *;
  rewrite ?Qred_correct in *;
  lra.

(** ** Reads of the engine and listings of the tables *)

Section Public.
Context {F : Type} `{Arith F}.

(** [current_price] *)
Definition current_price (e : Engine F) : F := price e.

(** The dictionary [snapshot] returns: [started], [price], the [pool]
    as [(x_rich, y_usd, k)] and the live [candle] with its [ts]. *)
Record Snapshot := {
  snap_started : bool;
  snap_price : F;
  snap_pool : F * F * F;
  snap_candle : Z * Candle F
}.

Definition snapshot (e : Engine F) : Snapshot :=
  {| snap_started := started e;
     snap_price := price e;
     snap_pool := (pool_x e, pool_y e, pool_k e);
     snap_candle := (candle_ts e,
                     {| c_open := candle_o e; c_high := candle_h e;
                        c_low := candle_l e; c_close := candle_c e |}) |}.

(** [... LIMIT ?]: SQLite reads a negative bound as no bound. *)
Definition sql_limit {A : Type} (n : Z) (l : list A) : list A :=
  if (n <? 0)%Z then l else take (Z.to_nat n) l.

(** The rows of [candles] by [ORDER BY ts ASC]; [ts] is the primary key,
    so the order is that of the keys. *)
Definition ts_le (a b : Z * Candle F) : Prop := (fst a <= fst b)%Z.

#[export] Instance ts_le_dec (a b : Z * Candle F) : Decision (ts_le a b) :=
  Z_le_dec (fst a) (fst b).

Definition candles_asc (d : Db F) : list (Z * Candle F) :=
  merge_sort ts_le (map_to_list (candles d)).

(** [_last_candles_raw(limit_rows)]: [ORDER BY ts DESC LIMIT ?], each
    row made a dictionary, the list reversed. *)
Definition _last_candles_raw (limit_rows : Z) (d : Db F)
    : list (gmap string (Val F)) :=
  rev (raw_row <$> sql_limit limit_rows (rev (candles_asc d))).

(** [get_candles_since(ts_from, limit)]: [WHERE ts >= ? ORDER BY ts ASC
    LIMIT ?]. *)
Definition get_candles_since (ts_from limit : Z) (d : Db F)
    : list (gmap string (Val F)) :=
  raw_row <$> sql_limit limit
                (filter (fun r => (ts_from <= fst r)%Z) (candles_asc d)).

(** [list_recent_trades(code, limit)] of db.py and its twin
    [_list_trades_recent(code, limit)] of app.py: [WHERE code = ? ORDER BY
    id DESC LIMIT ?], the list reversed.  A row is paired with its [id]. *)
Definition list_recent_trades (code : string) (limit : Z) (d : Db F)
    : list (Z * Trade F) :=
  rev (sql_limit limit (rev (trades_of code 1 (trades d)))).

Definition _list_trades_recent (code : string) (limit : Z) (d : Db F)
    : list (Z * Trade F) :=
  rev (sql_limit limit (rev (trades_of code 1 (trades d)))).
End Public.

Arguments Snapshot : clear implicits.

(** ** The read endpoints (app.py) *)

Section Reads.
Context {F : Type} `{Arith F}.
Local Open Scope num_scope.


(** [GET /api/candles]: the stored rows, the live candle of the engine
    put last, aggregated at [tf] and cut to the last [limit] bars; the
    answer leaves through [JSONResponse]. *)
Definition api_candles (limit tf : Z) (w : World F)
    : Outcome (list (gmap string (Val F))) :=
  let limit := Z.max 10 (Z.min limit 2000) in
  let tf := Z.max 1 (Z.min tf (3600 * 24)) in
  let need_rows := Z.max 500 (Z.min (limit * tf) 60000) in
  let raw := _last_candles_raw need_rows (db w) in
  let live := snap_candle (snapshot (engine w)) in
  let live_row := raw_row live in
  raw1 ← match last raw with
          | None => Returns (raw ++ [live_row])
          | Some r =>
              ts ← getitem r "ts" ≫= py_int;
              Returns (if negb (ts =? fst live)%Z
                       then raw ++ [live_row]
                       else <[pred (length raw) := live_row]> raw)
          end;
  agg ← _aggregate_candles raw1 tf;
  let agg := if (limit <? Z.of_nat (length agg))%Z
             then drop (length agg - Z.to_nat limit) agg
             else agg in
  _ ← JSONResponse (rows_floats agg);
  Returns agg.

(** [GET /api/me]: [None] is the 404 of an unknown code; otherwise the
    code, the nick, the block of numbers and [pos_calc], which are the
    content the handler hands to [JSONResponse].  [t] is the clock of the
    statistics. *)
Definition api_me (t : F) (code : string) (w : World F) (c : StatsCache F)
    : option (string * string * Me * F) * StatsCache F :=
  match get_player code (db w) with
  | None => (None, c)
  | Some p =>
      let price0 := current_price (engine w) in
      let equity := cash p + pos p * price0 in
      let '(avg_price, pnl_realized, pos_calc, c1) :=
        _compute_stats_from_trades t code (db w) c in
      let unreal := pnl_unrealized (pos p) avg_price price0 in
      (Some (code, nick p,
             {| me_cash := cash p; me_pos := pos p; me_price := price0;
                me_equity := equity; me_avg_price := avg_price;
                me_pnl_realized := pnl_realized;
                me_pnl_unrealized := unreal;
                me_pnl_total := pnl_realized + unreal |},
             pos_calc),
       c1)
  end.
End Reads.

(** ** The service: the engine and the statistics cache together *)

Section Service.
Context {F : Type} `{Arith F}.

(** The triple [(avg, realized, pos)] the statistics return. *)
Definition stats_triple (s : Stats F) : F * F * F :=
  (s_avg s, s_realized s, s_pos s).

(** The states of the process with its module dictionaries: every
    operation of the engine, the trade endpoint, and the reads that call
    the statistics ([/api/me], [/api/leaderboard]).  A [start_game] that
    blocks has changed nothing, so the states are the same with or
    without the calls made after it. *)
Inductive served (cfg : MarketConfig F) : World F -> StatsCache F -> Prop :=
  | served_new :
      served cfg (fresh cfg) no_cache
  | served_load w c now0 now u :
      served cfg w c ->
      served cfg (snd (init_or_load cfg now0 now u w)) c
  | served_start w c now :
      served cfg w c ->
      served cfg (snd (start_game cfg now w)) c
  | served_join w c now code nick0 :
      served cfg w c ->
      served cfg (joined now code nick0 w) c
  | served_buy w c now code usd_in :
      served cfg w c ->
      served cfg (snd (market_buy cfg now code usd_in w)) c
  | served_sell w c now code rich_in :
      served cfg w c ->
      served cfg (snd (market_sell cfg now code rich_in w)) c
  | served_tick w c now_s now :
      served cfg w c ->
      served cfg (_tick cfg now_s now w) c
  | served_trade w c now t code side usd :
      served cfg w c ->
      served cfg (snd (fst (trade cfg now t code side usd w c)))
        (snd (trade cfg now t code side usd w c))
  | served_stats w c t code :
      served cfg w c ->
      served cfg w (snd (_compute_stats_from_trades t code (db w) c)).

(** What the cache holds is the replay of a log the table began with:
    the key of an entry is the last [id] of the player in that log. *)
Definition cache_coherent (d : Db F) (c : StatsCache F) : Prop :=
  forall code id a r p,
    cache c !! code = Some (id, a, r, p) ->
    exists pre,
      pre `prefix_of` trades d /\
      id = _last_trade_id code (with_trades d pre) /\
      (a, r, p) = stats_triple (replay (_list_trades_asc code (with_trades d pre))).
End Service.

(** ** The stop-out of one wallet *)

Section StopOut.
Context {F : Type} `{Arith F}.
Local Open Scope num_scope.

(** Whether [_liquidate_if_needed] closes the row at the mark price. *)
Definition stopped_out (cfg : MarketConfig F) (mark : F) (row : Player F)
    : bool :=
  fneb (pos row) (of_Z 0)
  && (_equity (cash row) (pos row) mark <=? stopout_equity cfg).

Definition wiped (now : Z) (row : Player F) : Player F :=
  {| nick := nick row; cash := of_Z 0; pos := of_Z 0;
     created_at := created_at row; updated_at := now |}.

(** The row of [trades] the stop-out logs for a wallet it closes. *)
Definition stop_out_trade (now : Z) (mark : F) (r : string * Player F)
    : Trade F :=
  {| t_code := fst r; t_ts := now;
     t_side := if of_Z 0 <? pos (snd r) then SELL else BUY;
     t_qty := fabs (pos (snd r)); t_price := mark;
     t_notional := fabs (pos (snd r)) * mark;
     t_fee := of_Z 0; t_cash_after := of_Z 0; t_pos_after := of_Z 0 |}.
End StopOut.

(** ** The row an accepted order logs *)

Section Logged.
Context {F : Type} `{Arith F}.

(** The row of [trades] an accepted order writes, from its result. *)
Definition trade_row (now : Z) (code : string) (side : Side) (amount : F)
    (r : TradeOk F) : Trade F :=
  {| t_code := strip code; t_ts := now; t_side := side;
     t_qty := match side with BUY => r_amount_out r | SELL => amount end;
     t_price := r_avg_price r;
     t_notional := match side with BUY => amount | SELL => r_amount_out r end;
     t_fee := r_fee r;
     t_cash_after := r_cash_after r;
     t_pos_after := r_pos_after r |}.
End Logged.

(** ** A bar as a candle *)

Section Bars.
Context {F : Type} `{Arith F}.

(** [low <= min(open, close) <= max(open, close) <= high] for a bar. *)
Definition bar_well_formed (b : Bar F) : bool :=
  row_well_formed (snd (candle_of b)).

(** The four numbers of a bar are finite. *)
Definition bar_finite (b : Bar F) : bool :=
  let '(_, o, h, l, c) := b in finite o && finite h && finite l && finite c.
End Bars.

(** ** More configurations *)

Section MoreConfigs.
Context {F : Type} `{Arith F}.

(** The defaults of the dataclass with a fee: [MarketConfig(fee_rate=0.0025)]. *)
Definition fee_config : MarketConfig F :=
  {| candle_seconds := 1;
     tick_seconds := of_Z 1;
     start_price := of_Z 100;
     initial_usd_liquidity := of_Z 200000;
     seed_enabled := true;
     seed_seconds := 7 * 24 * 60 * 60;
     seed_candle_seconds := 60;
     seed_step_pct := dec 7 4;
     fee_rate := dec 25 4;
     min_equity := of_Z 0;
     leverage_max := of_Z 3;
     stopout_equity := of_Z 0 |}.

(** The configuration of the module's [engine] with no leverage
    allowed: [leverage_max = 0.0]. *)
Definition no_leverage_config : MarketConfig F :=
  {| candle_seconds := 1;
     tick_seconds := of_Z 1;
     start_price := of_Z 100;
     initial_usd_liquidity := of_Z 2000000;
     seed_enabled := true;
     seed_seconds := 7 * 24 * 60 * 60;
     seed_candle_seconds := 60;
     seed_step_pct := dec 7 4;
     fee_rate := of_Z 0;
     min_equity := of_Z 0;
     leverage_max := of_Z 0;
     stopout_equity := of_Z 0 |}.

(** The configuration of the module's [engine] with the stop-out on:
    [stopout_equity = 20000.0]. *)
Definition stopout_config : MarketConfig F :=
  {| candle_seconds := 1;
     tick_seconds := of_Z 1;
     start_price := of_Z 100;
     initial_usd_liquidity := of_Z 2000000;
     seed_enabled := true;
     seed_seconds := 7 * 24 * 60 * 60;
     seed_candle_seconds := 60;
     seed_step_pct := dec 7 4;
     fee_rate := of_Z 0;
     min_equity := of_Z 0;
     leverage_max := of_Z 3;
     stopout_equity := of_Z 20000 |}.


End MoreConfigs.

(** ** The operations, one by one *)

Section Steps.
Context {F : Type} `{Arith F}.

(** A call on the running process, with the clocks it reads and, for the
    loader, the draws of its seeder. *)
Inductive Op :=
  | OpLoad (now0 now : Z) (u : nat -> F)
  | OpStart (now : Z)
  | OpJoin (now : Z) (code nick0 : string)
  | OpOrder (now : Z) (code : string) (side : Side) (amount : F)
  | OpTick (now_s now : Z).

(** The state a call leaves. *)
Definition run_op (cfg : MarketConfig F) (o : Op) (w : World F) : World F :=
  match o with
  | OpLoad now0 now u => snd (init_or_load cfg now0 now u w)
  | OpStart now => snd (start_game cfg now w)
  | OpJoin now code nick0 => joined now code nick0 w
  | OpOrder now code side amount =>
      snd (market_order cfg now code side amount w)
  | OpTick now_s now => _tick cfg now_s now w
  end.

(** The states reached through states whose price is a number: the
    price the engine starts with and the price after every call are not
    NaN. *)
Inductive reachable_num (cfg : MarketConfig F) : World F -> Prop :=
  | num_new :
      is_num (start_price cfg) = true ->
      reachable_num cfg (fresh cfg)
  | num_step w o :
      reachable_num cfg w ->
      is_num (price (engine (run_op cfg o w))) = true ->
      reachable_num cfg (run_op cfg o w).

(** The closes are numbers: that of the live candle and that of every
    stored row. *)
Definition closes_are_numbers (w : World F) : Prop :=
  is_num (candle_c (engine w)) = true /\
  forall ts row, candles (db w) !! ts = Some row -> is_num (c_close row) = true.
End Steps.

Arguments Op : clear implicits.

(** ** The order of the doubles *)




(** * Properties *)


(** ** What the tail of an accepted order touches *)

Section Frames.
Context {F : Type} `{Arith F}.
Local Open Scope num_scope.

Lemma touch_candle_pool cfg now p (w : World F) :
  let e' := engine (_touch_candle cfg now p w) in
  pool_x e' = pool_x (engine w) /\ pool_y e' = pool_y (engine w) /\
  pool_k e' = pool_k (engine w) /\ price e' = price (engine w) /\
  started e' = started (engine w).
Proof. unfold _touch_candle. destruct (negb _); repeat split. Qed.

Lemma touch_candle_tables cfg now p (w : World F) :
  let d' := db (_touch_candle cfg now p w) in
  players d' = players (db w) /\ trades d' = trades (db w) /\
  market_state d' = market_state (db w).
Proof. unfold _touch_candle. destruct (negb _); repeat split. Qed.

Lemma set_pool_state_tables (e : Engine F) d :
  players (_set_pool_state e d) = players d /\
  trades (_set_pool_state e d) = trades d /\
  candles (_set_pool_state e d) = candles d.
Proof. repeat split. Qed.

Lemma commit_trade_engine cfg now t (e1 : Engine F) d :
  let e' := engine (commit_trade cfg now t e1 d) in
  pool_x e' = pool_x e1 /\ pool_y e' = pool_y e1 /\ pool_k e' = pool_k e1 /\
  price e' = price e1 /\ started e' = started e1.
Proof. unfold commit_trade. cbn. apply touch_candle_pool. Qed.

Lemma commit_trade_trades cfg now t (e1 : Engine F) d :
  trades (db (commit_trade cfg now t e1 d)) = trades d ++ [t].
Proof.
  unfold commit_trade. cbn.
  destruct (touch_candle_tables cfg now (price e1)
              {| engine := e1;
                 db := insert_trade t
                         (update_player_wallet (t_code t) (t_cash_after t)
                            (t_pos_after t) now d) |}) as (_ & -> & _).
  cbn. unfold update_player_wallet. destruct (players d !! t_code t); reflexivity.
Qed.

Lemma commit_trade_players cfg now t (e1 : Engine F) d :
  players (db (commit_trade cfg now t e1 d))
  = players (update_player_wallet (t_code t) (t_cash_after t) (t_pos_after t)
               now d).
Proof.
  unfold commit_trade. cbn.
  destruct (touch_candle_tables cfg now (price e1)
              {| engine := e1;
                 db := insert_trade t
                         (update_player_wallet (t_code t) (t_cash_after t)
                            (t_pos_after t) now d) |}) as (-> & _ & _).
  reflexivity.
Qed.

Lemma update_player_wallet_lookup code cash' pos' now (d : Db F) row :
  players d !! code = Some row ->
  players (update_player_wallet code cash' pos' now d) !! code
  = Some {| nick := nick row; cash := cash'; pos := pos';
            created_at := created_at row; updated_at := now |}.
Proof.
  intros Hrow. unfold update_player_wallet. rewrite Hrow. cbn.
  apply lookup_insert_eq.
Qed.

Lemma update_player_wallet_other code code' cash' pos' now (d : Db F) :
  code <> code' ->
  players (update_player_wallet code cash' pos' now d) !! code'
  = players d !! code'.
Proof.
  intros Hne. unfold update_player_wallet.
  destruct (players d !! code); [|reflexivity]. cbn.
  by apply lookup_insert_ne.
Qed.
End Frames.

(** ** What an accepted and a rejected order went through *)

Section Inversions.
Context {F : Type} `{Arith F}.
Local Open Scope num_scope.

Lemma market_buy_accepted cfg now code usd_in (w : World F) r w' :
  market_buy cfg now code usd_in w = (Returns (Accepted r), w') ->
  let e := engine w in
  let fee := usd_in * fee_rate cfg in
  let usd_eff := usd_in - fee in
  let y_new := pool_y e + usd_eff in
  let x_new := pool_k e / y_new in
  let rich_out := pool_x e - x_new in
  let e1 := with_pool e x_new y_new (y_new / x_new) in
  exists row,
    players (db w) !! strip code = Some row /\
    ((usd_in <=? of_Z 0) = false /\
     started e = true /\
     (pool_x e <=? of_Z 0) = false /\ (pool_y e <=? of_Z 0) = false /\
     (pool_k e <=? of_Z 0) = false /\
     (cash row <? usd_in) = false /\
     (usd_eff <=? of_Z 0) = false /\
     is_zero y_new = false /\
     (rich_out <=? of_Z 0) = false /\ (x_new <=? of_Z 0) = false /\
     is_zero x_new = false /\ is_zero rich_out = false /\
     _margin_ok cfg (cash row - usd_in) (pos row + rich_out) (price e1) = true) /\
    let t := {| t_code := strip code; t_ts := now; t_side := BUY;
                t_qty := rich_out; t_price := usd_eff / rich_out;
                t_notional := usd_in; t_fee := fee;
                t_cash_after := cash row - usd_in;
                t_pos_after := pos row + rich_out |} in
    w' = commit_trade cfg now t e1 (db w) /\
    r = {| r_side := BUY; r_ts := now; r_amount_in := usd_in; r_fee := fee;
           r_amount_out := rich_out; r_avg_price := usd_eff / rich_out;
           r_price_after := price (engine w');
           r_cash_after := cash row - usd_in;
           r_pos_after := pos row + rich_out |}.
Proof.
  intros Hrun. unfold market_buy, reject in Hrun.
  do 4 (open_head Hrun; [discriminate Hrun|]).
  open_head Hrun; [|discriminate Hrun].
  do 2 (open_head Hrun; [discriminate Hrun|]).
  do 4 (open_head Hrun; [discriminate Hrun|]).
  open_head Hrun.
  { open_head Hrun; discriminate Hrun. }
  cbv zeta. injection Hrun as Hr Hw. split_guards.
  eexists; split; [reflexivity|]. subst w'.
  split; [|split; [reflexivity|symmetry; exact Hr]].
  repeat split; assumption.
Qed.

Lemma market_sell_accepted cfg now code rich_in (w : World F) r w' :
  market_sell cfg now code rich_in w = (Returns (Accepted r), w') ->
  let e := engine w in
  let x_new := pool_x e + rich_in in
  let y_new := pool_k e / x_new in
  let usd_out_gross := pool_y e - y_new in
  let fee := usd_out_gross * fee_rate cfg in
  let usd_out := usd_out_gross - fee in
  let e1 := with_pool e x_new y_new (y_new / x_new) in
  exists row,
    players (db w) !! strip code = Some row /\
    ((rich_in <=? of_Z 0) = false /\
     started e = true /\
     (pool_x e <=? of_Z 0) = false /\ (pool_y e <=? of_Z 0) = false /\
     (pool_k e <=? of_Z 0) = false /\
     is_zero x_new = false /\
     (usd_out_gross <=? of_Z 0) = false /\ (y_new <=? of_Z 0) = false /\
     (usd_out <=? of_Z 0) = false /\
     is_zero rich_in = false /\
     _margin_ok cfg (cash row + usd_out) (pos row - rich_in) (price e1) = true) /\
    let t := {| t_code := strip code; t_ts := now; t_side := SELL;
                t_qty := rich_in; t_price := usd_out / rich_in;
                t_notional := usd_out; t_fee := fee;
                t_cash_after := cash row + usd_out;
                t_pos_after := pos row - rich_in |} in
    w' = commit_trade cfg now t e1 (db w) /\
    r = {| r_side := SELL; r_ts := now; r_amount_in := rich_in; r_fee := fee;
           r_amount_out := usd_out; r_avg_price := usd_out / rich_in;
           r_price_after := price (engine w');
           r_cash_after := cash row + usd_out;
           r_pos_after := pos row - rich_in |}.
Proof.
  intros Hrun. unfold market_sell, reject in Hrun.
  do 4 (open_head Hrun; [discriminate Hrun|]).
  open_head Hrun; [|discriminate Hrun].
  do 4 (open_head Hrun; [discriminate Hrun|]).
  open_head Hrun.
  { open_head Hrun; discriminate Hrun. }
  cbv zeta. injection Hrun as Hr Hw. split_guards.
  eexists; split; [reflexivity|]. subst w'.
  split; [|split; [reflexivity|symmetry; exact Hr]].
  repeat split; assumption.
Qed.

(** A rejection before the margin test returns the state it was given;
    the margin refusal returns it with the pool put back by the inverse
    operations and the price divided anew. *)
Lemma market_buy_rejected cfg now code usd_in (w : World F) err w' :
  market_buy cfg now code usd_in w = (Returns (Rejected err), w') ->
  let e := engine w in
  let usd_eff := usd_in - usd_in * fee_rate cfg in
  let y_new := pool_y e + usd_eff in
  let x_new := pool_k e / y_new in
  let rich_out := pool_x e - x_new in
  (err <> MarginRefused /\ w' = w) \/
  (err = MarginRefused /\
   w' = with_engine w
          (with_pool e (x_new + rich_out) (y_new - usd_eff)
             ((y_new - usd_eff) / (x_new + rich_out)))).
Proof.
  intros Hrun. unfold market_buy, reject in Hrun.
  do 4 (open_head Hrun;
        [injection Hrun as <- <-; left; split; [discriminate|reflexivity]|]).
  open_head Hrun;
    [|injection Hrun as <- <-; left; split; [discriminate|reflexivity]].
  do 2 (open_head Hrun;
        [injection Hrun as <- <-; left; split; [discriminate|reflexivity]|]).
  open_head Hrun; [discriminate Hrun|].
  open_head Hrun;
    [injection Hrun as <- <-; left; split; [discriminate|reflexivity]|].
  do 2 (open_head Hrun; [discriminate Hrun|]).
  open_head Hrun; [|discriminate Hrun].
  open_head Hrun; [discriminate Hrun|].
  injection Hrun as <- <-. right. split; reflexivity.
Qed.

Lemma market_sell_rejected cfg now code rich_in (w : World F) err w' :
  market_sell cfg now code rich_in w = (Returns (Rejected err), w') ->
  let e := engine w in
  let x_new := pool_x e + rich_in in
  let y_new := pool_k e / x_new in
  let usd_out_gross := pool_y e - y_new in
  (err <> MarginRefused /\ w' = w) \/
  (err = MarginRefused /\
   w' = with_engine w
          (with_pool e (x_new - rich_in) (y_new + usd_out_gross)
             ((y_new + usd_out_gross) / (x_new - rich_in)))).
Proof.
  intros Hrun. unfold market_sell, reject in Hrun.
  do 4 (open_head Hrun;
        [injection Hrun as <- <-; left; split; [discriminate|reflexivity]|]).
  open_head Hrun;
    [|injection Hrun as <- <-; left; split; [discriminate|reflexivity]].
  open_head Hrun; [discriminate Hrun|].
  do 2 (open_head Hrun;
        [injection Hrun as <- <-; left; split; [discriminate|reflexivity]|]).
  open_head Hrun; [discriminate Hrun|].
  open_head Hrun; [|discriminate Hrun].
  open_head Hrun; [discriminate Hrun|].
  injection Hrun as <- <-. right. split; reflexivity.
Qed.
End Inversions.

(** ** The states an order can leave, whatever its outcome *)


Section Shapes.
Context {F : Type} `{Arith F}.
Local Open Scope num_scope.

Lemma market_buy_shape cfg now code usd_in (w : World F) :
  let e := engine w in
  let usd_eff := usd_in - usd_in * fee_rate cfg in
  let y_new := pool_y e + usd_eff in
  let x_new := pool_k e / y_new in
  let rich_out := pool_x e - x_new in
  let w' := snd (market_buy cfg now code usd_in w) in
  w' = w \/
  (is_zero y_new = false /\
   ((exists p, w' = with_engine w (with_pool e x_new y_new p)) \/
    (exists p, w' = with_engine w
                      (with_pool e (x_new + rich_out) (y_new - usd_eff) p)) \/
    (exists t, w' = commit_trade cfg now t
                      (with_pool e x_new y_new (y_new / x_new)) (db w)))).
Proof.
  unfold market_buy, reject.
  do 4 (walk_head; [left; reflexivity|]).
  walk_head; [|left; reflexivity].
  do 2 (walk_head; [left; reflexivity|]).
  walk_head; [left; reflexivity|].
  walk_head; [left; reflexivity|].
  right. split; [first [assumption | reflexivity]|].
  walk_head; [left; eexists; reflexivity|].
  walk_head; [left; eexists; reflexivity|].
  walk_head.
  - right; left. walk_head; eexists; reflexivity.
  - right; right. eexists; reflexivity.
Qed.

Lemma market_sell_shape cfg now code rich_in (w : World F) :
  let e := engine w in
  let x_new := pool_x e + rich_in in
  let y_new := pool_k e / x_new in
  let usd_out_gross := pool_y e - y_new in
  let w' := snd (market_sell cfg now code rich_in w) in
  w' = w \/
  (is_zero x_new = false /\
   ((exists p, w' = with_engine w (with_pool e x_new y_new p)) \/
    (exists p, w' = with_engine w
                      (with_pool e (x_new - rich_in) (y_new + usd_out_gross) p)) \/
    (exists t, w' = commit_trade cfg now t
                      (with_pool e x_new y_new (y_new / x_new)) (db w)))).
Proof.
  unfold market_sell, reject.
  do 4 (walk_head; [left; reflexivity|]).
  walk_head; [|left; reflexivity].
  walk_head; [left; reflexivity|].
  do 2 (walk_head; [left; reflexivity|]).
  right. split; [first [assumption | reflexivity]|].
  walk_head; [left; eexists; reflexivity|].
  walk_head.
  - right; left. walk_head; eexists; reflexivity.
  - right; right. eexists; reflexivity.
Qed.
End Shapes.

(** ** The two sessions are runs of the system *)

Lemma scene_joined_reachable {F : Type} `{Arith F} (cfg : MarketConfig F) :
  reachable cfg (scene_joined cfg).
Proof.
  unfold scene_joined, joined, fresh.
  apply reach_join, reach_start, reach_new.
Qed.

Lemma scene_bought_reachable {F : Type} `{Arith F} (cfg : MarketConfig F) :
  reachable cfg (scene_bought cfg).
Proof. unfold scene_bought. apply reach_buy, scene_joined_reachable. Qed.

(** ** What the seeder, the stop-out and the state writes leave alone *)

Section MoreFrames.
Context {F : Type} `{Arith F}.
Local Open Scope num_scope.

Lemma get_state_set_state k k' v (d : Db F) :
  get_state k (set_state k' v d)
  = if decide (k' = k) then Some v else get_state k d.
Proof. unfold get_state, set_state. cbn. apply lookup_insert. Qed.

Lemma set_pool_state_stored (e : Engine F) d :
  _get_state_float STATE_POOL_X (_set_pool_state e d) = Some (pool_x e) /\
  _get_state_float STATE_POOL_Y (_set_pool_state e d) = Some (pool_y e) /\
  _get_state_float STATE_POOL_K (_set_pool_state e d) = Some (pool_k e).
Proof.
  unfold _get_state_float, _set_pool_state.
  rewrite !get_state_set_state. repeat split.
Qed.

Lemma seed_loop_frame cfg u seed_cs n i ts last_close (d : Db F) :
  let d' := snd (seed_loop cfg u seed_cs n i ts last_close d) in
  players d' = players d /\ trades d' = trades d /\
  market_state d' = market_state d.
Proof.
  revert i ts last_close d.
  induction n as [|n IH]; intros i ts last_close d; cbn [seed_loop].
  - repeat split.
  - destruct (is_zero (start_price cfg)); [repeat split|].
    match goal with
    | |- context [seed_loop _ _ _ _ ?i' ?ts' ?lc ?d'] =>
        destruct (IH i' ts' lc d') as (-> & -> & ->)
    end.
    repeat split.
Qed.

Lemma seed_history_frame cfg now u (d : Db F) :
  let d' := snd (seed_history_if_needed cfg now u d) in
  players d' = players d /\ trades d' = trades d /\
  forall k, k <> STATE_SEEDED_TAG -> get_state k d' = get_state k d.
Proof.
  unfold seed_history_if_needed.
  destruct (negb (seed_enabled cfg)); [repeat split|].
  cbv zeta.
  match goal with |- context [if ?c then _ else _] => destruct c end.
  { cbn. repeat split. intros k Hk. rewrite get_state_set_state.
    destruct (decide _) as [E|]; [destruct (Hk (eq_sym E))|reflexivity]. }
  match goal with
  | |- context [seed_loop ?a ?b ?c ?n ?i ?ts ?lc ?dd] =>
      pose proof (seed_loop_frame a b c n i ts lc dd) as (Hp & Ht & Hm);
      destruct (seed_loop a b c n i ts lc dd) as [[[]|ex] d1]
  end; cbn in *.
  - repeat split; try assumption. intros k Hk. rewrite get_state_set_state.
    destruct (decide _) as [E|]; [destruct (Hk (eq_sym E))|].
    unfold get_state. by rewrite Hm.
  - repeat split; try assumption. intros k Hk. unfold get_state. by rewrite Hm.
Qed.

Lemma liquidate_row_frame cfg now mark (d : Db F) r :
  candles (liquidate_row cfg now mark d r) = candles d /\
  market_state (liquidate_row cfg now mark d r) = market_state d.
Proof.
  unfold liquidate_row. destruct (_ <=? _); [|split; reflexivity].
  cbn. unfold update_player_wallet.
  destruct (players d !! fst r); split; reflexivity.
Qed.

Lemma liquidate_frame cfg now (w : World F) :
  let w' := _liquidate_if_needed cfg now w in
  engine w' = engine w /\ candles (db w') = candles (db w) /\
  market_state (db w') = market_state (db w).
Proof.
  unfold _liquidate_if_needed. cbn.
  generalize (filter (fun r => fneb (pos (snd r)) (of_Z 0) = true)
                (map_to_list (players (db w)))).
  generalize (db w) as d.
  intros d rows. revert d.
  induction rows as [|r rows IH]; intros d; cbn.
  - repeat split.
  - destruct (IH (liquidate_row cfg now (price (engine w)) d r)) as (_ & -> & ->).
    destruct (liquidate_row_frame cfg now (price (engine w)) d r) as (-> & ->).
    repeat split.
Qed.
End MoreFrames.

Section StoredPool.
Context {F : Type} `{Arith F}.
Local Open Scope num_scope.

Lemma stored_pool_transfer (d d' : Db F) :
  get_state STATE_POOL_X d' = get_state STATE_POOL_X d ->
  get_state STATE_POOL_Y d' = get_state STATE_POOL_Y d ->
  get_state STATE_POOL_K d' = get_state STATE_POOL_K d ->
  stored_pool_consistent d -> stored_pool_consistent d'.
Proof.
  intros Hx Hy Hk Hd x y k. unfold _get_state_float.
  rewrite Hx, Hy, Hk. apply Hd.
Qed.

Lemma stored_pool_same_table (d d' : Db F) :
  market_state d' = market_state d ->
  stored_pool_consistent d -> stored_pool_consistent d'.
Proof.
  intros Hm. apply stored_pool_transfer; unfold get_state; by rewrite Hm.
Qed.

Lemma stored_pool_after_write (e : Engine F) d :
  pool_k e = pool_x e * pool_y e ->
  stored_pool_consistent (_set_pool_state e d).
Proof.
  intros He x y k.
  destruct (set_pool_state_stored e d) as (-> & -> & ->).
  intros [= <-] [= <-] [= <-]. exact He.
Qed.

Lemma stored_pool_clock_writes p ts (d : Db F) :
  stored_pool_consistent d ->
  stored_pool_consistent
    (set_state STATE_CANDLE_TS (SInt ts) (set_state STATE_PRICE (SNum p) d)).
Proof.
  apply stored_pool_transfer; rewrite !get_state_set_state; reflexivity.
Qed.
End StoredPool.

(** * Exact arithmetic *)

(** ** The tests of the sources on exact rationals *)

Section ExactOrder.
Local Open Scope num_scope.

Lemma exact_le (a b : Qc) : a <= b <-> (a <= b)%Qc.
Proof. apply Qle_bool_iff. Qed.

Lemma exact_le_false (a b : Qc) : (a <=? b) = false <-> (b < a)%Qc.
Proof.
  change ((a <=? b) = false) with (Qle_bool a b = false). split.
  - intros Hf. apply Qnot_le_lt. intros Hle.
    apply Qle_bool_iff in Hle. congruence.
  - intros Hlt. destruct (Qle_bool a b) eqn:E; [|reflexivity].
    apply Qle_bool_iff in E. destruct (Qlt_not_le _ _ Hlt E).
Qed.

Lemma exact_lt (a b : Qc) : a < b <-> (a < b)%Qc.
Proof.
  change (a < b) with (negb (Qle_bool b a) = true).
  rewrite negb_true_iff. apply exact_le_false.
Qed.

Lemma exact_lt_false (a b : Qc) : (a <? b) = false <-> (b <= a)%Qc.
Proof.
  change ((a <? b) = false) with (negb (Qle_bool b a) = false).
  rewrite negb_false_iff. apply Qle_bool_iff.
Qed.

Lemma exact_eq (a b : Qc) : (a =? b) = true <-> a = b.
Proof.
  change ((a =? b) = true) with (Qeq_bool a b = true).
  rewrite Qeq_bool_iff. split; [apply Qc_is_canon|intros ->; reflexivity].
Qed.

Lemma exact_nonzero (a : Qc) : is_zero a = false <-> a <> 0%Qc.
Proof.
  unfold is_zero. split.
  - intros Hf Heq. change (a = of_Z 0) in Heq. apply exact_eq in Heq. congruence.
  - intros Hne. destruct (a =? of_Z 0) eqn:E; [|reflexivity].
    apply exact_eq in E. destruct (Hne E).
Qed.
End ExactOrder.

Tactic Notation "exact_props" :=
  exact_props_with exact_le exact_le_false exact_lt exact_lt_false exact_eq
    exact_nonzero.


(** ** The pool constant on the reachable states *)

Section ExactPool.
Local Open Scope num_scope.

Lemma exact_bought_pool (k y : Qc) :
  is_zero y = false -> k / y * y = k.
Proof. intros Hz. apply exact_nonzero in Hz. cbn. field. exact Hz. Qed.

Lemma exact_put_back (x y k a b : Qc) :
  k = x * y -> k = (a + (x - a)) * (y + b - b).
Proof. intros ->. cbn. ring. Qed.

Lemma exact_put_back' (x y k a b : Qc) :
  k = x * y -> k = (x + a - a) * (b + (y - b)).
Proof. intros ->. cbn. ring. Qed.

Lemma pool_consistent_commit cfg now t (e1 : Engine Qc) d :
  pool_k e1 = pool_x e1 * pool_y e1 ->
  pool_consistent (commit_trade cfg now t e1 d).
Proof.
  intros He1.
  destruct (commit_trade_engine cfg now t e1 d) as (Hx & Hy & Hk & _).
  assert (Hnew : pool_k (engine (commit_trade cfg now t e1 d))
                 = pool_x (engine (commit_trade cfg now t e1 d))
                   * pool_y (engine (commit_trade cfg now t e1 d))).
  { rewrite Hx, Hy, Hk. exact He1. }
  split; [exact Hnew|].
  unfold commit_trade at 1. cbn [db]. apply stored_pool_after_write.
  exact Hnew.
Qed.

Lemma pool_consistent_buy cfg now code usd_in (w : World Qc) :
  pool_consistent w ->
  pool_consistent (snd (market_buy cfg now code usd_in w)).
Proof.
  intros [He Hd].
  destruct (market_buy_shape cfg now code usd_in w)
    as [->|(Hz & [[p ->]|[[p ->]|[t ->]]])]; [split; assumption|..].
  - split; [|exact Hd]. cbn [engine with_engine pool_k pool_x pool_y with_pool].
    symmetry. apply exact_bought_pool. exact Hz.
  - split; [|exact Hd]. cbn [engine with_engine pool_k pool_x pool_y with_pool].
    apply exact_put_back. exact He.
  - apply pool_consistent_commit. cbn [pool_k pool_x pool_y with_pool].
    symmetry. apply exact_bought_pool. exact Hz.
Qed.

Lemma pool_consistent_sell cfg now code rich_in (w : World Qc) :
  pool_consistent w ->
  pool_consistent (snd (market_sell cfg now code rich_in w)).
Proof.
  intros [He Hd].
  destruct (market_sell_shape cfg now code rich_in w)
    as [->|(Hz & [[p ->]|[[p ->]|[t ->]]])]; [split; assumption|..].
  - split; [|exact Hd]. cbn [engine with_engine pool_k pool_x pool_y with_pool].
    symmetry. rewrite (Qcmult_comm _ (pool_k (engine w) / _)).
    apply exact_bought_pool. exact Hz.
  - split; [|exact Hd]. cbn [engine with_engine pool_k pool_x pool_y with_pool].
    apply exact_put_back'. exact He.
  - apply pool_consistent_commit. cbn [pool_k pool_x pool_y with_pool].
    symmetry. rewrite (Qcmult_comm _ (pool_k (engine w) / _)).
    apply exact_bought_pool. exact Hz.
Qed.
Lemma pool_consistent_start cfg now (w : World Qc) :
  pool_consistent w ->
  pool_consistent (snd (start_game cfg now w)).
Proof.
  intros [He Hd]. unfold start_game.
  walk_head; [split; assumption|].
  walk_head; [split; assumption|].
  walk_head.
  - split; [|exact Hd]. reflexivity.
  - split; [reflexivity|]. cbn [snd db]. apply stored_pool_after_write. reflexivity.
Qed.

Lemma pool_consistent_load cfg now0 now u (w : World Qc) :
  pool_consistent w ->
  pool_consistent (snd (init_or_load cfg now0 now u w)).
Proof.
  intros [He Hd]. unfold init_or_load.
  pose proof (seed_history_frame cfg now0 u (db w)) as (_ & _ & Hst).
  destruct (seed_history_if_needed cfg now0 u (db w)) as [[[]|ex] d]; cbn [snd] in Hst.
  2:{ split; [exact He|]. cbn [snd db].
      revert Hd. apply stored_pool_transfer; apply Hst; discriminate. }
  assert (Hd' : stored_pool_consistent d).
  { revert Hd. apply stored_pool_transfer; apply Hst; discriminate. }
  cbv zeta.
  destruct (_get_state_float STATE_POOL_X d) as [x|] eqn:Ex;
    [destruct (_get_state_float STATE_POOL_Y d) as [y|] eqn:Ey;
     [destruct (_get_state_float STATE_POOL_K d) as [k|] eqn:Ek|]|].
  1: destruct ((of_Z 0 <? x) && (of_Z 0 <? y) && (of_Z 0 <? k)).
  1: destruct (is_zero x).
  all: split; cbn [snd engine db pool_k pool_x pool_y with_pool];
    try exact He; try (apply stored_pool_clock_writes; exact Hd');
    try exact Hd'; try (apply (Hd' x y k); assumption).
Qed.

Lemma pool_consistent_join now code nick0 (w : World Qc) :
  pool_consistent w ->
  pool_consistent {| engine := engine w; db := snd (join now code nick0 (db w)) |}.
Proof.
  intros [He Hd]. split; [exact He|]. cbn [db].
  revert Hd. apply stored_pool_same_table.
  unfold join. repeat (destruct (_ : bool); [reflexivity|]).
  cbn [snd]. unfold upsert_player. destruct (players (db w) !! _); reflexivity.
Qed.

Lemma pool_consistent_tick cfg now_s now (w : World Qc) :
  pool_consistent w ->
  pool_consistent (_tick cfg now_s now w).
Proof.
  intros [He Hd]. unfold _tick. cbv zeta.
  destruct (touch_candle_pool cfg now_s (price (engine w)) w)
    as (Hx & Hy & Hk & _).
  destruct (touch_candle_tables cfg now_s (price (engine w)) w) as (_ & _ & Hm).
  assert (Hw2 : pool_consistent
            {| engine := engine (_touch_candle cfg now_s (price (engine w)) w);
               db := set_state STATE_CANDLE_TS
                       (SInt (candle_ts (engine (_touch_candle cfg now_s
                                                   (price (engine w)) w))))
                       (set_state STATE_PRICE
                          (SNum (price (engine (_touch_candle cfg now_s
                                                  (price (engine w)) w))))
                          (db (_touch_candle cfg now_s (price (engine w)) w))) |}).
  { split; cbn [engine db].
    - rewrite Hx, Hy, Hk. exact He.
    - apply stored_pool_clock_writes. revert Hd.
      apply stored_pool_same_table. exact Hm. }
  destruct (of_Z 0 <? stopout_equity cfg); [|exact Hw2].
  destruct Hw2 as [He2 Hd2].
  match goal with
  | |- pool_consistent (_liquidate_if_needed ?c ?n ?w2) =>
      destruct (liquidate_frame c n w2) as (Hle & _ & Hlm)
  end.
  split.
  - rewrite Hle. exact He2.
  - revert Hd2. apply stored_pool_same_table. exact Hlm.
Qed.

(** On every reachable state the pool constant is the product of the
    reserves (exact arithmetic). *)
Lemma reachable_pool_consistent cfg (w : World Qc) :
  reachable cfg w -> pool_consistent w.
Proof.
  induction 1.
  - split; [apply Qc_is_canon; reflexivity|]. intros x y k Hx. discriminate Hx.
  - by apply pool_consistent_load.
  - by apply pool_consistent_start.
  - by apply pool_consistent_join.
  - by apply pool_consistent_buy.
  - by apply pool_consistent_sell.
  - by apply pool_consistent_tick.
Qed.
End ExactPool.

(** * The claims *)

(** ** C2: the arithmetic of a BUY *)

Section BuyArithmetic.
Context {F : Type} `{Arith F}.
Local Open Scope num_scope.

Lemma market_buy_fee_underflow cfg now code usd_in (w : World F) res w' :
  market_buy cfg now code usd_in w = (res, w') ->
  usd_in - usd_in * fee_rate cfg <= of_Z 0 ->
  exists err, res = Returns (Rejected err).
Proof.
  intros Hrun Hle. unfold market_buy, reject in Hrun.
  do 4 (open_head Hrun; [injection Hrun as <- <-; eexists; reflexivity|]).
  open_head Hrun; [|injection Hrun as <- <-; eexists; reflexivity].
  open_head Hrun; [injection Hrun as <- <-; eexists; reflexivity|].
  open_head Hrun; [injection Hrun as <- <-; eexists; reflexivity|].
  rewrite Hle in *. discriminate.
Qed.

Lemma market_buy_no_liquidity cfg now code usd_in (w : World F) res w' :
  market_buy cfg now code usd_in w = (res, w') ->
  let y' := pool_y (engine w) + (usd_in - usd_in * fee_rate cfg) in
  let x' := pool_k (engine w) / y' in
  is_zero y' = false ->
  (pool_x (engine w) - x' <=? of_Z 0) || (x' <=? of_Z 0) = true ->
  exists err, res = Returns (Rejected err).
Proof.
  intros Hrun y' x' Hz Hle. subst y' x'. unfold market_buy, reject in Hrun.
  do 4 (open_head Hrun; [injection Hrun as <- <-; eexists; reflexivity|]).
  open_head Hrun; [|injection Hrun as <- <-; eexists; reflexivity].
  do 2 (open_head Hrun; [injection Hrun as <- <-; eexists; reflexivity|]).
  open_head Hrun; [rewrite Hz in *; discriminate|].
  open_head Hrun; [injection Hrun as <- <-; eexists; reflexivity|].
  rewrite Hle in *. discriminate.
Qed.

(** C2.  [market_buy] follows the constant-product arithmetic: with
    [fee = usd_in * fee_rate], [usd_eff = usd_in - fee],
    [y' = y + usd_eff], [x' = k / y'] and [rich_out = x - x'], the call is
    rejected when [usd_eff <= 0], it is rejected unless [rich_out > 0] and
    [x' > 0], and an accepted call (which had [usd_in > 0], a started
    engine and positive reserves) leaves the reserves [x'] and [y'],
    reports [fee], [rich_out] and the price [usd_eff / rich_out], and
    appends one BUY row with that quantity, fee and price.  This holds in
    any arithmetic, the doubles of the sources included. *)
Theorem market_buy_amm_arithmetic cfg now code usd_in (w : World F) res w' :
  market_buy cfg now code usd_in w = (res, w') ->
  let e := engine w in
  let fee := usd_in * fee_rate cfg in
  let usd_eff := usd_in - fee in
  let y' := pool_y e + usd_eff in
  let x' := pool_k e / y' in
  let rich_out := pool_x e - x' in
  (usd_eff <= of_Z 0 -> exists err, res = Returns (Rejected err)) /\
  (is_zero y' = false ->
   (rich_out <=? of_Z 0) || (x' <=? of_Z 0) = true ->
   exists err, res = Returns (Rejected err)) /\
  (forall r, res = Returns (Accepted r) ->
     ((usd_in <=? of_Z 0) = false /\ started e = true /\
      (pool_x e <=? of_Z 0) = false /\ (pool_y e <=? of_Z 0) = false) /\
     ((usd_eff <=? of_Z 0) = false /\
      (rich_out <=? of_Z 0) = false /\ (x' <=? of_Z 0) = false) /\
     (pool_y (engine w') = y' /\ pool_x (engine w') = x') /\
     (r_fee r = fee /\ r_amount_out r = rich_out /\
      r_avg_price r = usd_eff / rich_out) /\
     exists t,
       trades (db w') = trades (db w) ++ [t] /\
       t_side t = BUY /\ t_qty t = rich_out /\ t_fee t = fee /\
       t_price t = usd_eff / rich_out).
Proof.
  intros Hrun e fee usd_eff y' x' rich_out. split; [|split].
  - exact (market_buy_fee_underflow _ _ _ _ _ _ _ Hrun).
  - exact (market_buy_no_liquidity _ _ _ _ _ _ _ Hrun).
  - intros r ->.
    destruct (market_buy_accepted _ _ _ _ _ _ _ Hrun)
      as (row & Hrow & Hg & Hw & Hr).
    destruct Hg as (? & ? & ? & ? & ? & ? & ? & ? & ? & ? & ? & ? & ?).
    match type of Hw with
    | _ = commit_trade ?c ?n ?t0 ?e1 ?d =>
        pose proof (commit_trade_engine c n t0 e1 d) as (Hx & Hy & _);
        pose proof (commit_trade_trades c n t0 e1 d) as Ht
    end.
    rewrite <- Hw in Hx, Hy, Ht.
    repeat split; try assumption; try (rewrite Hr; reflexivity).
    eexists. split; [exact Ht|]. repeat split.
Qed.
End BuyArithmetic.

(** ** C3: the margin gate *)

Section MarginGate.
Local Open Scope num_scope.

(** With no leverage allowed the margin test refuses everything. *)
Lemma margin_ok_no_leverage {F : Type} `{Arith F} (cfg : MarketConfig F) c p q :
  leverage_max cfg <= of_Z 0 -> _margin_ok cfg c p q = false.
Proof.
  intros Hlev. unfold _margin_ok. destruct (_ <? _); [reflexivity|].
  cbv zeta. rewrite Hlev. reflexivity.
Qed.

(** What a passed margin test says, in exact arithmetic and with the
    tolerance [1e-9] of the sources. *)
Lemma margin_ok_exact (cfg : MarketConfig Qc) c p q :
  _margin_ok cfg c p q = true ->
  min_equity cfg <= c + p * q /\
  fabs p * q <= (c + p * q) * leverage_max cfg + dec 1 9.
Proof.
  unfold _margin_ok, _equity.
  destruct (_ <? min_equity cfg) eqn:Heq; [discriminate|].
  cbv zeta. destruct (leverage_max cfg <=? of_Z 0); [discriminate|].
  intros Hexp. split; [|exact Hexp].
  apply exact_le. apply exact_lt_false in Heq. exact Heq.
Qed.

Lemma order_accepted_wallet {F : Type} `{Arith F} cfg now code side amount
    (w : World F) r w' :
  market_order cfg now code side amount w = (Returns (Accepted r), w') ->
  exists row,
    players (db w) !! strip code = Some row /\
    players (db w') !! strip code
    = Some {| nick := nick row; cash := r_cash_after r; pos := r_pos_after r;
              created_at := created_at row; updated_at := now |} /\
    (forall other, other <> strip code ->
       players (db w') !! other = players (db w) !! other) /\
    r_price_after r = price (engine w') /\
    _margin_ok cfg (r_cash_after r) (r_pos_after r) (price (engine w')) = true.
Proof.
  destruct side; cbn [market_order]; intros Hrun.
  - destruct (market_buy_accepted _ _ _ _ _ _ _ Hrun)
      as (row & Hrow & Hg & Hw & Hr).
    destruct Hg as (_ & _ & _ & _ & _ & _ & _ & _ & _ & _ & _ & _ & Hm).
    match type of Hw with
    | _ = commit_trade ?c ?n ?t0 ?e1 ?d =>
        pose proof (commit_trade_engine c n t0 e1 d) as (_ & _ & _ & Hp & _);
        pose proof (commit_trade_players c n t0 e1 d) as Hpl
    end.
    rewrite <- Hw in Hp, Hpl. cbn [t_code t_cash_after t_pos_after] in Hpl.
    exists row. rewrite Hr. cbn [r_cash_after r_pos_after r_price_after].
    rewrite Hpl. repeat split; try assumption.
    + by apply update_player_wallet_lookup.
    + intros other Hne. apply update_player_wallet_other. congruence.
    + rewrite Hp. exact Hm.
  - destruct (market_sell_accepted _ _ _ _ _ _ _ Hrun)
      as (row & Hrow & Hg & Hw & Hr).
    destruct Hg as (_ & _ & _ & _ & _ & _ & _ & _ & _ & _ & Hm).
    match type of Hw with
    | _ = commit_trade ?c ?n ?t0 ?e1 ?d =>
        pose proof (commit_trade_engine c n t0 e1 d) as (_ & _ & _ & Hp & _);
        pose proof (commit_trade_players c n t0 e1 d) as Hpl
    end.
    rewrite <- Hw in Hp, Hpl. cbn [t_code t_cash_after t_pos_after] in Hpl.
    exists row. rewrite Hr. cbn [r_cash_after r_pos_after r_price_after].
    rewrite Hpl. repeat split; try assumption.
    + by apply update_player_wallet_lookup.
    + intros other Hne. apply update_player_wallet_other. congruence.
    + rewrite Hp. exact Hm.
Qed.

Lemma margin_gate_exact cfg now code side amount (w : World Qc) r w' :
  market_order cfg now code side amount w = (Returns (Accepted r), w') ->
  exists row',
    players (db w') !! strip code = Some row' /\
    let equity := cash row' + pos row' * price (engine w') in
    min_equity cfg <= equity /\
    fabs (pos row') * price (engine w') <= equity * leverage_max cfg + dec 1 6.
Proof.
  intros Hrun.
  destruct (order_accepted_wallet _ _ _ _ _ _ _ _ Hrun)
    as (row & _ & Hrow' & _ & _ & Hm).
  eexists. split; [exact Hrow'|]. cbn [cash pos].
  apply margin_ok_exact in Hm. destruct Hm as [Hmin Hexp].
  split; [exact Hmin|].
  apply exact_le. apply exact_le in Hexp.
  assert (Heps : (@dec Qc _ 1 9 <= @dec Qc _ 1 6)%Qc)
    by (apply exact_le; reflexivity).
  revert Hexp Heps.
  generalize (fabs (r_pos_after r) * price (engine w')).
  generalize ((r_cash_after r + r_pos_after r * price (engine w'))
              * leverage_max cfg).
  generalize (@dec Qc _ 1 9). generalize (@dec Qc _ 1 6).
  intros e6 e9 m x Hexp Heps. qc_lra.
Qed.

(** The margin gate.  In any arithmetic, the doubles of the sources
    included, every order [market_buy] or [market_sell] accepts has
    passed [_margin_ok] on the wallet it writes and the price it leaves,
    and with [leverage_max <= 0] no order is accepted.  In exact
    arithmetic the passed test says: [equity = cash_after + pos_after *
    price_after >= min_equity] and [|pos_after| * price_after <= equity *
    leverage_max + 1e-6] (the sources test against the tighter [1e-9]). *)
Theorem margin_gate_after_accepted :
  (forall (F : Type) (A : Arith F) cfg now code side amount (w : World F),
     (forall r w',
        market_order cfg now code side amount w = (Returns (Accepted r), w') ->
        exists row',
          players (db w') !! strip code = Some row' /\
          _margin_ok cfg (cash row') (pos row') (price (engine w')) = true) /\
     (leverage_max cfg <= of_Z 0 ->
      forall r w',
        market_order cfg now code side amount w <> (Returns (Accepted r), w'))) /\
  (forall cfg now code side amount (w : World Qc) r w',
     market_order cfg now code side amount w = (Returns (Accepted r), w') ->
     exists row',
       players (db w') !! strip code = Some row' /\
       let equity := cash row' + pos row' * price (engine w') in
       min_equity cfg <= equity /\
       fabs (pos row') * price (engine w')
       <= equity * leverage_max cfg + dec 1 6).
Proof.
  split; [|exact margin_gate_exact].
  intros F A cfg now code side amount w. split.
  - intros r w' Hrun.
    destruct (order_accepted_wallet _ _ _ _ _ _ _ _ Hrun)
      as (row & _ & Hrow' & _ & _ & Hm).
    eexists. split; [exact Hrow'|]. exact Hm.
  - intros Hlev r w' Hrun.
    destruct (order_accepted_wallet _ _ _ _ _ _ _ _ Hrun)
      as (row & _ & _ & _ & _ & Hm).
    rewrite (margin_ok_no_leverage cfg _ _ _ Hlev) in Hm. discriminate.
Qed.

(** C3 (a defect of the code).  With no leverage allowed the claim has
    every order rejected.  In the doubles of the sources, with the
    module's configuration and [leverage_max = 0.0], a SELL of [1e30] RICH
    by ["alice01"] right after the start is neither accepted nor
    rejected: the margin test fails, the undo of the margin branch
    computes [pool_x = (20000 + 1e30) - 1e30 = 0.0], and [price = pool_y /
    pool_x] raises [ZeroDivisionError].  [POST /api/trade] with side SELL
    and [usd = 1e32] answers 500.  No table is written, but the pool is
    left with [pool_x = 0.0], on which every later order is refused for
    an invalid pool. *)
Theorem no_leverage_order_raises :
  let cfg : MarketConfig float := no_leverage_config in
  let w := scene_joined cfg in
  let out := market_sell cfg 1001 "alice01" (of_Z (10 ^ 30)) w in
  (leverage_max cfg <=? of_Z 0) = true /\
  fst out = Raises ZeroDivisionError /\
  fst (fst (trade cfg 1001 (of_Z 1001) "alice01" SELL (of_Z (10 ^ 32)) w
              no_cache))
  = Http500 ZeroDivisionError /\
  db (snd out) = db w /\
  pool_x (engine (snd out)) = of_Z 0 /\
  pool_y (engine (snd out)) = pool_y (engine w) /\
  fst (market_buy cfg 1002 "alice01" (of_Z 10) (snd out))
  = Returns (Rejected InvalidPool).
Proof.
  cbv zeta.
  split; [vm_compute; reflexivity|].
  split; [vm_compute; reflexivity|].
  split; [vm_compute; reflexivity|].
  split; [vm_compute; reflexivity|].
  split; [vm_compute; reflexivity|].
  split; [vm_compute; reflexivity|].
  vm_compute; reflexivity.
Qed.
End MarginGate.

(** ** C4: the cash-flow law *)

Section CashFlow.
Local Open Scope num_scope.

Lemma cash_flow_any {F : Type} `{Arith F} cfg now code side amount
    (w : World F) r w' :
  market_order cfg now code side amount w = (Returns (Accepted r), w') ->
  exists row row',
    players (db w) !! strip code = Some row /\
    players (db w') !! strip code = Some row' /\
    (forall other, other <> strip code ->
       players (db w') !! other = players (db w) !! other) /\
    r_cash_after r = cash row' /\
    match side with
    | BUY => cash row' = cash row - amount
    | SELL =>
        let e := engine w in
        let usd_out_gross := pool_y e - pool_k e / (pool_x e + amount) in
        let usd_out := usd_out_gross - usd_out_gross * fee_rate cfg in
        r_amount_out r = usd_out /\ cash row' = cash row + usd_out
    end.
Proof.
  intros Hrun.
  destruct (order_accepted_wallet _ _ _ _ _ _ _ _ Hrun)
    as (row & Hrow & Hrow' & Hother & _ & _).
  exists row. eexists. split; [exact Hrow|]. split; [exact Hrow'|].
  split; [exact Hother|]. split; [reflexivity|]. cbn [cash].
  destruct side; cbn [market_order] in Hrun.
  - destruct (market_buy_accepted _ _ _ _ _ _ _ Hrun)
      as (row0 & Hrow0 & _ & _ & Hr).
    rewrite Hrow in Hrow0. injection Hrow0 as <-.
    rewrite Hr. reflexivity.
  - destruct (market_sell_accepted _ _ _ _ _ _ _ Hrun)
      as (row0 & Hrow0 & _ & _ & Hr).
    rewrite Hrow in Hrow0. injection Hrow0 as <-.
    rewrite Hr. split; reflexivity.
Qed.

Lemma cash_flow_exact cfg now code side amount (w : World Qc) r w' :
  market_order cfg now code side amount w = (Returns (Accepted r), w') ->
  exists row row',
    players (db w) !! strip code = Some row /\
    players (db w') !! strip code = Some row' /\
    match side with
    | BUY => cash row' = cash row - amount /\ cash row' < cash row
    | SELL =>
        let e := engine w in
        let usd_out_gross := pool_y e - pool_k e / (pool_x e + amount) in
        let usd_out := usd_out_gross * (of_Z 1 - fee_rate cfg) in
        r_amount_out r = usd_out /\
        cash row' = cash row + usd_out /\ cash row < cash row'
    end.
Proof.
  intros Hrun.
  destruct (order_accepted_wallet _ _ _ _ _ _ _ _ Hrun)
    as (row & Hrow & Hrow' & _ & _ & _).
  exists row. eexists. split; [exact Hrow|]. split; [exact Hrow'|].
  cbn [cash].
  destruct side; cbn [market_order] in Hrun.
  - destruct (market_buy_accepted _ _ _ _ _ _ _ Hrun)
      as (row0 & Hrow0 & Hg & _ & Hr).
    rewrite Hrow in Hrow0. injection Hrow0 as <-.
    destruct Hg as (Hpos & _). rewrite Hr. cbn [r_cash_after].
    split; [reflexivity|].
    apply exact_lt. exact_props. revert Hpos.
    generalize (cash row). intros c Hpos. qc_lra.
  - destruct (market_sell_accepted _ _ _ _ _ _ _ Hrun)
      as (row0 & Hrow0 & Hg & _ & Hr).
    rewrite Hrow in Hrow0. injection Hrow0 as <-.
    destruct Hg as (_ & _ & _ & _ & _ & _ & _ & _ & Hout & _).
    rewrite Hr. cbn [r_cash_after r_amount_out].
    set (gross := pool_y (engine w) - pool_k (engine w) / (pool_x (engine w) + amount)) in *.
    assert (Hnet : gross - gross * fee_rate cfg = gross * (of_Z 1 - fee_rate cfg)).
    { cbn. change (Q2Qc (inject_Z 1)) with 1%Qc. ring. }
    rewrite <- Hnet. split; [reflexivity|]. split; [reflexivity|].
    apply exact_lt. exact_props. revert Hout.
    generalize (gross - gross * fee_rate cfg). generalize (cash row).
    intros c o Hout. qc_lra.
Qed.
End CashFlow.

(** ** C5: the pool constant across an accepted order *)

Section ConstantProduct.
Local Open Scope num_scope.


Lemma order_accepted_pool {F : Type} `{Arith F} cfg now code side amount
    (w : World F) r w' :
  market_order cfg now code side amount w = (Returns (Accepted r), w') ->
  let e := engine w in
  let e' := engine w' in
  pool_k e' = pool_k e /\ price e' = pool_y e' / pool_x e' /\
  match side with
  | BUY =>
      let y_new := pool_y e + (amount - amount * fee_rate cfg) in
      is_zero y_new = false /\
      pool_y e' = y_new /\ pool_x e' = pool_k e / y_new
  | SELL =>
      let x_new := pool_x e + amount in
      is_zero x_new = false /\
      pool_x e' = x_new /\ pool_y e' = pool_k e / x_new
  end.
Proof.
  destruct side; cbn [market_order]; intros Hrun.
  - destruct (market_buy_accepted _ _ _ _ _ _ _ Hrun)
      as (row & _ & Hg & Hw & _).
    destruct Hg as (_ & _ & _ & _ & _ & _ & _ & Hz & _).
    match type of Hw with
    | _ = commit_trade ?c ?n ?t0 ?e1 ?d =>
        pose proof (commit_trade_engine c n t0 e1 d) as (Hx & Hy & Hk & Hp & _)
    end.
    rewrite <- Hw in Hx, Hy, Hk, Hp. cbv zeta.
    rewrite Hx, Hy, Hk, Hp. repeat split. exact Hz.
  - destruct (market_sell_accepted _ _ _ _ _ _ _ Hrun)
      as (row & _ & Hg & Hw & _).
    destruct Hg as (_ & _ & _ & _ & _ & Hz & _).
    match type of Hw with
    | _ = commit_trade ?c ?n ?t0 ?e1 ?d =>
        pose proof (commit_trade_engine c n t0 e1 d) as (Hx & Hy & Hk & Hp & _)
    end.
    rewrite <- Hw in Hx, Hy, Hk, Hp. cbv zeta.
    rewrite Hx, Hy, Hk, Hp. repeat split. exact Hz.
Qed.


End ConstantProduct.

(** ** C1: what a rejected order leaves behind *)

Section RejectionPurity.
Local Open Scope num_scope.

Lemma with_pool_same {F : Type} (w : World F) :
  with_engine w
    (with_pool (engine w) (pool_x (engine w)) (pool_y (engine w))
       (price (engine w))) = w.
Proof. destruct w as [[] ?]. reflexivity. Qed.

(** In exact arithmetic the inverse operations of the margin branch do
    restore the pool: a rejected order returns the state it was given,
    provided the price was the quotient of the reserves, as [start_game]
    and every order leave it. *)
Lemma rejected_order_is_pure_exact cfg now code side amount (w : World Qc)
    err w' :
  price (engine w) = pool_y (engine w) / pool_x (engine w) ->
  market_order cfg now code side amount w = (Returns (Rejected err), w') ->
  w' = w.
Proof.
  intros Hprice Hrun. destruct side; cbn [market_order] in Hrun.
  - destruct (market_buy_rejected _ _ _ _ _ _ _ Hrun) as [[_ ->]|[_ ->]];
      [reflexivity|].
    assert (Hy : pool_y (engine w) + (amount - amount * fee_rate cfg)
                 - (amount - amount * fee_rate cfg) = pool_y (engine w))
      by (cbn; ring).
    assert (Hx : forall a : Qc, a + (pool_x (engine w) - a) = pool_x (engine w))
      by (intros a; cbn; ring).
    rewrite Hy, Hx, <- Hprice. apply with_pool_same.
  - destruct (market_sell_rejected _ _ _ _ _ _ _ Hrun) as [[_ ->]|[_ ->]];
      [reflexivity|].
    assert (Hx : pool_x (engine w) + amount - amount = pool_x (engine w))
      by (cbn; ring).
    assert (Hy : forall a : Qc, a + (pool_y (engine w) - a) = pool_y (engine w))
      by (intros a; cbn; ring).
    rewrite Hx, Hy, <- Hprice. apply with_pool_same.
Qed.

(** C1 (a defect of the code).  In the doubles of the sources the margin
    branch does not restore the pool.  With the configuration of the
    module's [engine]: the game starts at price 100, ["alice01"] joins and
    buys for 1000 USD (accepted: [pool_x = 19990.004997501248], [price =
    100.100025]); then [POST /api/trade] with side SELL and [usd = 33665]
    (so [rich_in = 33665 / 100.100025]) is refused for margin (HTTP 400),
    no row is written, and yet [pool_x] has become [19990.00499750125] and
    [price] [100.10002499999999]: the state is not the one before. *)
Theorem margin_refusal_moves_the_pool :
  let cfg : MarketConfig float := engine_config in
  let w := scene_bought cfg in
  let out := trade cfg 1002 (of_Z 1002) "alice01" SELL (of_Z 33665) w no_cache in
  fst (fst out) = Http400 MarginRefused /\
  db (snd (fst out)) = db w /\
  pool_y (engine (snd (fst out))) = pool_y (engine w) /\
  pool_k (engine (snd (fst out))) = pool_k (engine w) /\
  pool_x (engine w) < pool_x (engine (snd (fst out))) /\
  price (engine (snd (fst out))) < price (engine w) /\
  snd (fst out) <> w.
Proof.
  cbv zeta.
  assert (Hx : pool_x (engine (scene_bought (engine_config : MarketConfig float)))
               < pool_x (engine (snd (fst
                   (trade engine_config 1002 (of_Z 1002) "alice01" SELL
                      (of_Z 33665) (scene_bought engine_config) no_cache)))))
    by (vm_compute; reflexivity).
  split; [vm_compute; reflexivity|].
  split; [vm_compute; reflexivity|].
  split; [vm_compute; reflexivity|].
  split; [vm_compute; reflexivity|].
  split; [exact Hx|].
  split; [vm_compute; reflexivity|].
  intros Heq. rewrite Heq in Hx. vm_compute in Hx. discriminate Hx.
Qed.
End RejectionPurity.


(** ** C6: the replay over a flip *)

Section Replay.
Local Open Scope num_scope.

Lemma stats_step_reduce_long {F : Type} `{Arith F} (s : Stats F) (t : Trade F) :
  t_side t = SELL ->
  (s_pos s <=? of_Z 0) = false ->
  stats_step s t = spec_reduce_long s (t_qty t) (t_price t) (t_fee t).
Proof.
  intros Hside Hpos. unfold stats_step, spec_reduce_long.
  rewrite Hside, Hpos. cbv zeta.
  destruct (fabs _ <? dec 1 12); destruct (of_Z 0 <? _); reflexivity.
Qed.

(** C6.  For the log [BUY qty=5 price=100 fee=0; SELL qty=8 price=110
    fee=0] the reconstructor, run on an empty cache, returns [avg = 110],
    [realized = 50] and [pos = -3], in the doubles of the sources and in
    exact arithmetic alike; and in any arithmetic a SELL met with a long
    position follows the reducing-long-then-flip rule of the spec. *)
Theorem replay_over_flip :
  fst (_compute_stats_from_trades (F := float) (of_Z 1003) "alice01"
         flip_db no_cache)
  = (of_Z 110, of_Z 50, of_Z (-3)) /\
  (let r := fst (_compute_stats_from_trades (F := Qc) (of_Z 1003) "alice01"
                   flip_db no_cache) in
   fst (fst r) = of_Z 110 /\ snd (fst r) = of_Z 50 /\ snd r = of_Z (-3)) /\
  (forall (F : Type) (A : Arith F) (s : Stats F) (t : Trade F),
     t_side t = SELL -> (s_pos s <=? of_Z 0) = false ->
     stats_step s t = spec_reduce_long s (t_qty t) (t_price t) (t_fee t)).
Proof.
  split; [vm_compute; reflexivity|]. split.
  - cbv zeta. repeat apply conj; apply Qc_is_canon; vm_compute; reflexivity.
  - intros F A s t. apply stats_step_reduce_long.
Qed.
End Replay.

(** ** C9: joining twice *)

Section JoinTwice.
Context {F : Type} `{Arith F}.

Lemma upsert_player_tables code nick0 c now (d : Db F) :
  trades (upsert_player code nick0 c now d) = trades d /\
  candles (upsert_player code nick0 c now d) = candles d /\
  market_state (upsert_player code nick0 c now d) = market_state d.
Proof. unfold upsert_player. destruct (players d !! code); repeat split. Qed.

Lemma upsert_player_other code other nick0 c now (d : Db F) :
  other <> code ->
  players (upsert_player code nick0 c now d) !! other = players d !! other.
Proof.
  intros Hne. unfold upsert_player.
  destruct (players d !! code); cbn; by apply lookup_insert_ne.
Qed.

(** C9.  A join that passes validation goes through [upsert_player] with
    the stripped code and nick.  For a code not yet in [players] it
    creates the row with [cash = INITIAL_CASH], [pos = 0] and both
    timestamps at the clock; for a code already there it writes the new
    nick and [updated_at] and keeps [cash], [pos] and [created_at]; no
    other row and no other table changes. *)
Theorem join_creates_once_then_renames now code nick0 (d : Db F) code' nick' d' :
  join now code nick0 d = (Joined code' nick', d') ->
  (code' = strip code /\ nick' = strip nick0) /\
  (players d !! code' = None ->
   players d' !! code'
   = Some {| nick := nick'; cash := INITIAL_CASH; pos := of_Z 0;
             created_at := now; updated_at := now |}) /\
  (forall p, players d !! code' = Some p ->
   players d' !! code'
   = Some {| nick := nick'; cash := cash p; pos := pos p;
             created_at := created_at p; updated_at := now |}) /\
  (forall other, other <> code' -> players d' !! other = players d !! other) /\
  trades d' = trades d /\ candles d' = candles d /\
  market_state d' = market_state d.
Proof.
  unfold join. intros Hrun.
  do 3 (open_head Hrun; [discriminate Hrun|]).
  injection Hrun as <- <- <-.
  split; [split; reflexivity|].
  split; [|split; [|split]].
  - intros Hnone. unfold upsert_player. rewrite Hnone. cbn.
    apply lookup_insert_eq.
  - intros p Hsome. unfold upsert_player. rewrite Hsome. cbn.
    apply lookup_insert_eq.
  - intros other Hne. by apply upsert_player_other.
  - apply upsert_player_tables.
Qed.
End JoinTwice.

(** ** C10: when the live candle rolls over *)

Section Rollover.
Context {F : Type} `{Arith F}.
Local Open Scope num_scope.

End Rollover.

(** ** C8: well-formed candles *)

(** The candles of a run, in any arithmetic whose order has the five
    properties below on numbers; the doubles and the exact rationals
    both have them. *)
Section NumberedCandles.
Context {F : Type} `{Arith F}.
Local Open Scope num_scope.

Hypothesis flat_law :
  forall p : F, is_num p = true -> well_formed p p p p = true.
Hypothesis seed_law :
  forall o c : F, is_num o = true -> is_num c = true ->
    well_formed o (pymax o c) (pymin o c) c = true.
Hypothesis touch_law :
  forall o h l c p : F, well_formed o h l c = true -> is_num p = true ->
    well_formed o (if h <? p then p else h) (if p <? l then p else l) p = true.
Hypothesis open_law :
  forall o h l c : F, well_formed o h l c = true -> is_num o = true.
Hypothesis floor_law :
  forall v : F, is_num (pymax (dec 1 4) v) = true.

Lemma numbered_touch cfg now p (w : World F) :
  is_num p = true ->
  candles_well_formed w /\ closes_are_numbers w ->
  candles_well_formed (_touch_candle cfg now p w) /\
  closes_are_numbers (_touch_candle cfg now p w).
Proof using flat_law touch_law.
  intros Hp [[Hlive Hrows] [Hc Hcs]]. unfold _touch_candle. cbv zeta.
  destruct (negb _).
  - split; split.
    + by apply flat_law.
    + cbn [db upsert_candle with_candles candles].
      intros ts row Hrow. apply lookup_insert_Some in Hrow.
      destruct Hrow as [[_ <-]|[_ Hrow]]; [exact Hlive|exact (Hrows _ _ Hrow)].
    + exact Hp.
    + cbn [db upsert_candle with_candles candles].
      intros ts row Hrow. apply lookup_insert_Some in Hrow.
      destruct Hrow as [[_ <-]|[_ Hrow]]; [exact Hc|exact (Hcs _ _ Hrow)].
  - split; split; [|exact Hrows|exact Hp|exact Hcs].
    exact (touch_law _ _ _ _ p Hlive Hp).
Qed.

Lemma numbered_frame (w w' : World F) :
  candle_o (engine w') = candle_o (engine w) ->
  candle_h (engine w') = candle_h (engine w) ->
  candle_l (engine w') = candle_l (engine w) ->
  candle_c (engine w') = candle_c (engine w) ->
  candles (db w') = candles (db w) ->
  candles_well_formed w /\ closes_are_numbers w ->
  candles_well_formed w' /\ closes_are_numbers w'.
Proof using Type.
  intros Ho Hh Hl Hc Hcs [[Hlive Hrows] [Hn Hns]].
  unfold candles_well_formed, closes_are_numbers, live_well_formed.
  rewrite Ho, Hh, Hl, Hc, Hcs. repeat split; assumption.
Qed.

Lemma numbered_commit cfg now t (e1 : Engine F) (w : World F) :
  candle_o e1 = candle_o (engine w) -> candle_h e1 = candle_h (engine w) ->
  candle_l e1 = candle_l (engine w) -> candle_c e1 = candle_c (engine w) ->
  is_num (price e1) = true ->
  candles_well_formed w /\ closes_are_numbers w ->
  candles_well_formed (commit_trade cfg now t e1 (db w)) /\
  closes_are_numbers (commit_trade cfg now t e1 (db w)).
Proof using flat_law touch_law.
  intros Ho Hh Hl Hc Hp Hw. unfold commit_trade. cbv zeta.
  match goal with
  | |- candles_well_formed
         {| engine := engine (_touch_candle ?c ?n ?p ?w0); db := _ |} /\ _ =>
      assert (Ht : candles_well_formed (_touch_candle c n p w0) /\
                   closes_are_numbers (_touch_candle c n p w0))
  end.
  { apply numbered_touch; [exact Hp|]. revert Hw.
    apply numbered_frame; cbn [engine db]; try assumption.
    unfold update_player_wallet. destruct (players (db w) !! t_code t); reflexivity. }
  revert Ht. apply numbered_frame; reflexivity.
Qed.

Lemma numbered_order cfg now code side amount (w : World F) :
  is_num (price (engine (snd (market_order cfg now code side amount w))))
  = true ->
  candles_well_formed w /\ closes_are_numbers w ->
  candles_well_formed (snd (market_order cfg now code side amount w)) /\
  closes_are_numbers (snd (market_order cfg now code side amount w)).
Proof using flat_law touch_law.
  intros Hp Hw. destruct side; cbn [market_order] in *.
  - destruct (market_buy_shape cfg now code amount w)
      as [E|(_ & [[p E]|[[p E]|[t E]]])]; rewrite E in Hp |- *;
      [exact Hw|..].
    + revert Hw. apply numbered_frame; reflexivity.
    + revert Hw. apply numbered_frame; reflexivity.
    + apply numbered_commit; try reflexivity; [|exact Hw].
      match type of Hp with
      | context [commit_trade ?c ?n ?t0 ?e1 ?d] =>
          by destruct (commit_trade_engine c n t0 e1 d) as (_ & _ & _ & <- & _)
      end.
  - destruct (market_sell_shape cfg now code amount w)
      as [E|(_ & [[p E]|[[p E]|[t E]]])]; rewrite E in Hp |- *;
      [exact Hw|..].
    + revert Hw. apply numbered_frame; reflexivity.
    + revert Hw. apply numbered_frame; reflexivity.
    + apply numbered_commit; try reflexivity; [|exact Hw].
      match type of Hp with
      | context [commit_trade ?c ?n ?t0 ?e1 ?d] =>
          by destruct (commit_trade_engine c n t0 e1 d) as (_ & _ & _ & <- & _)
      end.
Qed.

Lemma numbered_start cfg now (w : World F) :
  is_num (price (engine (snd (start_game cfg now w)))) = true ->
  candles_well_formed w /\ closes_are_numbers w ->
  candles_well_formed (snd (start_game cfg now w)) /\
  closes_are_numbers (snd (start_game cfg now w)).
Proof using flat_law.
  intros Hp Hw. revert Hp. unfold start_game.
  walk_head; [intros _; exact Hw|].
  walk_head; [intros _; exact Hw|].
  walk_head.
  - intros _. revert Hw. apply numbered_frame; reflexivity.
  - cbn [snd engine price]. intros Hp.
    destruct Hw as [[_ Hrows] [_ Hcs]].
    split; split; [by apply flat_law|exact Hrows|exact Hp|exact Hcs].
Qed.

(** Every row the seeder writes is well formed and closes at a number. *)
Lemma numbered_seed_loop cfg u seed_cs n i ts last_close (d : Db F) :
  is_num last_close = true ->
  (forall t row, candles d !! t = Some row ->
     row_well_formed row = true /\ is_num (c_close row) = true) ->
  forall t row,
    candles (snd (seed_loop cfg u seed_cs n i ts last_close d)) !! t = Some row ->
    row_well_formed row = true /\ is_num (c_close row) = true.
Proof using seed_law floor_law.
  revert i ts last_close d.
  induction n as [|n IH]; intros i ts last_close d Hl Hd; cbn [seed_loop].
  - exact Hd.
  - destruct (is_zero (start_price cfg)); [exact Hd|].
    cbv zeta. apply IH; [apply floor_law|].
    intros t row Hrow. cbn [upsert_candle with_candles candles] in Hrow.
    apply lookup_insert_Some in Hrow.
    destruct Hrow as [[_ <-]|[_ Hrow]]; [|exact (Hd _ _ Hrow)].
    split; [|apply floor_law].
    apply seed_law; [exact Hl|apply floor_law].
Qed.

Lemma numbered_seed_history cfg now u (d : Db F) :
  is_num (start_price cfg) = true ->
  (forall t row, candles d !! t = Some row ->
     row_well_formed row = true /\ is_num (c_close row) = true) ->
  forall t row,
    candles (snd (seed_history_if_needed cfg now u d)) !! t = Some row ->
    row_well_formed row = true /\ is_num (c_close row) = true.
Proof using seed_law open_law floor_law.
  intros Hs Hd. unfold seed_history_if_needed.
  destruct (negb (seed_enabled cfg)); [exact Hd|].
  cbv zeta.
  match goal with |- context [if ?c then _ else _] => destruct c end;
    [exact Hd|].
  match goal with
  | |- context [seed_loop ?a ?b ?c ?n ?i ?ts ?lc ?dd] =>
      assert (Hl : is_num lc = true);
      [|pose proof (numbered_seed_loop a b c n i ts lc dd Hl Hd) as Hrows;
        destruct (seed_loop a b c n i ts lc dd) as [[[]|ex] d1]; exact Hrows]
  end.
  destruct (earliest_ts (candles d)) as [e|]; [|exact Hs].
  destruct (candles d !! e) as [row|] eqn:Hrow; [|exact Hs].
  destruct (Hd _ _ Hrow) as [Hwf _]. revert Hwf. apply open_law.
Qed.

Lemma numbered_load cfg now0 now u (w : World F) :
  is_num (start_price cfg) = true ->
  candles_well_formed w /\ closes_are_numbers w ->
  candles_well_formed (snd (init_or_load cfg now0 now u w)) /\
  closes_are_numbers (snd (init_or_load cfg now0 now u w)).
Proof using flat_law seed_law open_law floor_law.
  intros Hs [[Hlive Hrows] [Hc Hcs]]. unfold init_or_load.
  assert (Hd : forall t row, candles (db w) !! t = Some row ->
                 row_well_formed row = true /\ is_num (c_close row) = true)
    by (intros t row Hrow; split; [exact (Hrows _ _ Hrow)|exact (Hcs _ _ Hrow)]).
  pose proof (numbered_seed_history cfg now0 u (db w) Hs Hd) as Hseed.
  destruct (seed_history_if_needed cfg now0 u (db w)) as [[[]|ex] d];
    cbn [snd] in Hseed.
  2: { split; split; cbn [engine db]; try assumption;
       intros t row Hrow; by destruct (Hseed _ _ Hrow). }
  cbv zeta.
  assert (Hp : is_num (match get_last_candle d with
                       | Some last => c_close last
                       | None => start_price cfg
                       end) = true).
  { unfold get_last_candle. destruct (latest_ts (candles d)) as [ts|]; [|exact Hs].
    destruct (candles d !! ts) as [row|] eqn:Hrow; [|exact Hs].
    by destruct (Hseed _ _ Hrow). }
  destruct (_get_state_float STATE_POOL_X d) as [x|];
    [destruct (_get_state_float STATE_POOL_Y d) as [y|];
     [destruct (_get_state_float STATE_POOL_K d) as [k|]|]|].
  1: destruct ((of_Z 0 <? x) && (of_Z 0 <? y) && (of_Z 0 <? k)).
  1: destruct (is_zero x).
  all: split; split; cbn [snd engine db candle_c with_pool];
    [by apply flat_law
    |intros t row Hrow; by destruct (Hseed _ _ Hrow)
    |exact Hp
    |intros t row Hrow; by destruct (Hseed _ _ Hrow)].
Qed.

Lemma numbered_tick cfg now_s now (w : World F) :
  is_num (price (engine w)) = true ->
  candles_well_formed w /\ closes_are_numbers w ->
  candles_well_formed (_tick cfg now_s now w) /\
  closes_are_numbers (_tick cfg now_s now w).
Proof using flat_law touch_law.
  intros Hp Hw. unfold _tick. cbv zeta.
  pose proof (numbered_touch cfg now_s (price (engine w)) w Hp Hw) as Ht.
  match goal with
  | |- candles_well_formed (if _ then _liquidate_if_needed _ _ ?w2 else _) /\ _ =>
      assert (Hw2 : candles_well_formed w2 /\ closes_are_numbers w2)
        by (revert Ht; apply numbered_frame; reflexivity);
      destruct (liquidate_frame cfg now w2) as (He & Hc & _)
  end.
  destruct (of_Z 0 <? stopout_equity cfg); [|exact Hw2].
  revert Hw2. apply numbered_frame; rewrite ?He; try reflexivity.
  exact Hc.
Qed.

Lemma tick_price cfg now_s now (w : World F) :
  price (engine (_tick cfg now_s now w)) = price (engine w).
Proof using Type.
  unfold _tick. cbv zeta.
  match goal with
  | |- price (engine (if _ then _liquidate_if_needed _ _ ?w2 else _)) = _ =>
      destruct (liquidate_frame cfg now w2) as (He & _)
  end.
  destruct (of_Z 0 <? stopout_equity cfg); rewrite ?He; cbn [engine];
    by destruct (touch_candle_pool cfg now_s (price (engine w)) w)
      as (_ & _ & _ & -> & _).
Qed.

Lemma reachable_num_start_price cfg (w : World F) :
  reachable_num cfg w -> is_num (start_price cfg) = true.
Proof using Type. induction 1; assumption. Qed.

Lemma numbered_candles cfg (w : World F) :
  reachable_num cfg w -> candles_well_formed w /\ closes_are_numbers w.
Proof using flat_law seed_law touch_law open_law floor_law.
  induction 1 as [Hs|w o Hr IH Hp].
  - split; split; cbn [fresh engine new_engine db init_db candle_c candles].
    + by apply flat_law.
    + intros ts row Hrow. by rewrite lookup_empty in Hrow.
    + exact Hs.
    + intros ts row Hrow. by rewrite lookup_empty in Hrow.
  - destruct o as [now0 now u|now|now code nick0|now code side amount|now_s now];
      cbn [run_op] in *.
    + apply numbered_load; [by apply (reachable_num_start_price cfg w)|exact IH].
    + by apply numbered_start.
    + revert IH. apply numbered_frame; try reflexivity.
      unfold joined, join. cbn [db].
      destruct (negb _); [reflexivity|].
      destruct (has_blank _); [reflexivity|].
      destruct (String.eqb _ _); [reflexivity|].
      cbn [snd]. apply upsert_player_tables.
    + by apply numbered_order.
    + apply numbered_tick; [|exact IH]. by rewrite tick_price in Hp.
Qed.
End NumberedCandles.

(** The order of the doubles, read on their places. *)
Section Binary64Order.
Local Open Scope Z_scope.





Local Open Scope num_scope.



End Binary64Order.


Section Binary64Candles.
Local Open Scope num_scope.






End Binary64Candles.

Section WellFormed.
Local Open Scope num_scope.

(** In exact arithmetic [well_formed] says the four usual inequalities. *)
Lemma well_formed_exact (o h l c : Qc) :
  well_formed o h l c = true <->
  (l <= o)%Qc /\ (l <= c)%Qc /\ (o <= h)%Qc /\ (c <= h)%Qc.
Proof.
  unfold well_formed, pymin, pymax.
  rewrite !andb_true_iff.
  destruct (c <? o) eqn:E1; destruct (o <? c) eqn:E2; exact_props;
    rewrite !exact_le;
    (split; [intros [[Ha Hb] Hc]|intros (H1 & H2 & H3 & H4)]);
    repeat split; qc_lra.
Qed.

Lemma well_formed_flat (p : Qc) : well_formed p p p p = true.
Proof. apply well_formed_exact. repeat split; apply Qcle_refl. Qed.

Lemma well_formed_seed (o c : Qc) :
  well_formed o (pymax o c) (pymin o c) c = true.
Proof.
  apply well_formed_exact. unfold pymax, pymin.
  destruct (o <? c) eqn:E1; destruct (c <? o) eqn:E2; exact_props;
    repeat split; qc_lra.
Qed.

Lemma well_formed_touch (o h l c p : Qc) :
  well_formed o h l c = true ->
  well_formed o (if h <? p then p else h) (if p <? l then p else l) p = true.
Proof.
  rewrite !well_formed_exact. intros (H1 & H2 & H3 & H4).
  destruct (h <? p) eqn:E1; destruct (p <? l) eqn:E2; exact_props;
    repeat split; qc_lra.
Qed.

(** Every exact rational is a number. *)
Lemma exact_is_num (a : Qc) : is_num a = true.
Proof. by apply exact_eq. Qed.

Lemma exact_reachable_num cfg (w : World Qc) :
  reachable cfg w -> reachable_num cfg w.
Proof.
  induction 1 as [|w now0 now u _ IH|w now _ IH|w now code nick0 _ IH
                  |w now code usd_in _ IH|w now code rich_in _ IH
                  |w now_s now _ IH].
  - apply num_new, exact_is_num.
  - apply (num_step cfg w (OpLoad now0 now u) IH), exact_is_num.
  - apply (num_step cfg w (OpStart now) IH), exact_is_num.
  - apply (num_step cfg w (OpJoin now code nick0) IH), exact_is_num.
  - apply (num_step cfg w (OpOrder now code BUY usd_in) IH), exact_is_num.
  - apply (num_step cfg w (OpOrder now code SELL rich_in) IH), exact_is_num.
  - apply (num_step cfg w (OpTick now_s now) IH), exact_is_num.
Qed.

Lemma exact_candles_well_formed cfg (w : World Qc) :
  reachable cfg w -> candles_well_formed w.
Proof.
  intros Hr. apply exact_reachable_num in Hr.
  by destruct (numbered_candles
                 (fun p _ => well_formed_flat p)
                 (fun o c _ _ => well_formed_seed o c)
                 (fun o h l c p Hw _ => well_formed_touch o h l c p Hw)
                 (fun o _ _ _ _ => exact_is_num o)
                 (fun v => exact_is_num _) cfg w Hr).
Qed.
End WellFormed.




(** ** C7: aggregation *)

Section Aggregation.
Context {F : Type} `{Arith F}.
Local Open Scope num_scope.

Lemma read_raw_row (r : Z * Candle F) : read_row (raw_row r) = Returns (bar_of r).
Proof. destruct r as [ts []]. reflexivity. Qed.

Lemma retime_out_row (b : Bar F) : retime (out_row b) = raw_row (candle_of b).
Proof. destruct b as [[[[t o] h] l] c]. reflexivity. Qed.

Lemma bar_of_candle_of (b : Bar F) : bar_of (candle_of b) = b.
Proof. destruct b as [[[[t o] h] l] c]. reflexivity. Qed.

Lemma candle_of_bar_of (r : Z * Candle F) : candle_of (bar_of r) = r.
Proof. destruct r as [ts []]. reflexivity. Qed.

Lemma agg_loop_typed tf rest (out : list (Bar F)) (cur : Bar F) :
  agg_loop tf (raw_row <$> rest) (Some cur) (out_row <$> out)
  = Returns (out_row <$> (fst (fold_left (agg_step tf) rest (out, cur))
                          ++ [snd (fold_left (agg_step tf) rest (out, cur))])).
Proof.
  revert out cur. induction rest as [|r rest IH]; intros out cur.
  - cbn. by rewrite fmap_app.
  - cbn [fmap list_fmap agg_loop fold_left]. rewrite read_raw_row.
    destruct cur as [[[[cb o] h] l] c]. unfold bar_of, agg_step, bucket_of.
    destruct (negb _).
    + rewrite <- IH. by rewrite fmap_app.
    + rewrite <- IH. reflexivity.
Qed.

Lemma aggregate_typed tf (cs : list (Z * Candle F)) :
  _aggregate_candles (raw_row <$> cs) tf
  = Returns (out_row <$> agg_bars (Z.max 1 tf) cs).
Proof.
  destruct cs as [|r rest]; [reflexivity|].
  cbn [fmap list_fmap _aggregate_candles agg_loop]. rewrite read_raw_row.
  unfold bar_of. exact (agg_loop_typed (Z.max 1 tf) rest [] _).
Qed.

Lemma bucket_of_mono tf a b :
  (0 < tf)%Z -> (a <= b)%Z -> (bucket_of tf a <= bucket_of tf b)%Z.
Proof.
  intros Htf Hab. unfold bucket_of.
  apply Z.mul_le_mono_nonneg_r; [lia|]. apply Z.div_le_mono; lia.
Qed.

Lemma bucket_of_bucket tf a :
  (0 < tf)%Z -> bucket_of tf (bucket_of tf a) = bucket_of tf a.
Proof.
  intros Htf. unfold bucket_of. rewrite Z.div_mul by lia. reflexivity.
Qed.

Lemma group_snoc tf b (l : list (Z * Candle F)) r :
  group tf b (l ++ [r])
  = group tf b l ++ (if decide (bucket_of tf (fst r) = b) then [r] else []).
Proof.
  unfold group. rewrite filter_app. reflexivity.
Qed.

Lemma group_empty tf b (l : list (Z * Candle F)) :
  (forall r, r ∈ l -> bucket_of tf (fst r) <> b) -> group tf b l = [].
Proof.
  induction l as [|q l IH]; intros Hl; [reflexivity|].
  unfold group. rewrite filter_cons_False.
  - apply IH. intros r Hr. apply Hl. by right.
  - apply Hl. by left.
Qed.

Lemma summarize_snoc b (g : list (Z * Candle F)) r o h l c :
  summarize b g = Some (b, o, h, l, c) ->
  summarize b (g ++ [r])
  = Some (b, o, pymax h (c_high (snd r)), pymin l (c_low (snd r)),
          c_close (snd r)).
Proof.
  destruct g as [|q g]; [discriminate|]. cbn [summarize app].
  intros [= <- <- <- <-].
  rewrite !map_app, !fold_left_app, last_snoc. reflexivity.
Qed.

Lemma agg_run_spec tf r0 rest :
  (0 < tf)%Z -> ascending (r0 :: rest) ->
  let st := agg_run tf r0 rest in
  let rows := r0 :: rest in
  (forall r, r ∈ rows -> (bucket_of tf (fst r) <= bar_time (snd st))%Z) /\
  StronglySorted Z.lt (fmap bar_time (fst st ++ [snd st])) /\
  (forall b, b ∈ fmap bar_time (fst st ++ [snd st])
             <-> exists r, r ∈ rows /\ bucket_of tf (fst r) = b) /\
  (forall bar, bar ∈ fst st ++ [snd st] ->
     summarize (bar_time bar) (group tf (bar_time bar) rows) = Some bar).
Proof.
  intros Htf. unfold agg_run.
  induction rest as [|r rest IH] using rev_ind; intros Hasc.
  - cbn [fold_left fst snd app fmap list_fmap]. unfold bar_time at 1 2 3. cbn [candle_of fst].
    split; [|split; [|split]].
    + intros r Hr. apply list_elem_of_singleton in Hr. subst r. lia.
    + repeat constructor.
    + intros b. rewrite list_elem_of_singleton. split.
      * intros ->. exists r0. split; [by left|reflexivity].
      * intros (r & Hr & <-). apply list_elem_of_singleton in Hr. by subst r.
    + intros bar Hbar. apply list_elem_of_singleton in Hbar. subst bar.
      unfold bar_time. cbn [candle_of fst]. unfold group.
      rewrite filter_cons_True by reflexivity. reflexivity.
  - assert (Hasc' : ascending (r0 :: rest) /\
                    forall q, q ∈ r0 :: rest -> (fst q < fst r)%Z).
    { unfold ascending in *. change (r0 :: rest ++ [r]) with ((r0 :: rest) ++ [r]) in Hasc.
      rewrite fmap_app in Hasc. apply StronglySorted_app in Hasc.
      destruct Hasc as (Hlt & Hs & _). split; [exact Hs|].
      intros q Hq. apply Hlt; [|by left].
      apply list_elem_of_fmap. by exists q. }
    destruct Hasc' as [Hpre Hlast].
    specialize (IH Hpre). cbv zeta in IH.
    rewrite fold_left_app. cbn [fold_left].
    destruct (fold_left (agg_step tf) rest _) as [out [[[[cb o] h] l] c]] eqn:Est.
    cbn [fst snd] in IH. destruct IH as (I1 & I2 & I3 & I4).
    unfold bar_time in I1 at 1. cbn [candle_of fst] in I1.
    assert (Hge : (cb <= bucket_of tf (fst r))%Z).
    { destruct (proj1 (I3 cb)) as (q & Hq & <-).
      - rewrite fmap_app. apply elem_of_app. right. by left.
      - apply bucket_of_mono; [exact Htf|]. specialize (Hlast q Hq). lia. }
    assert (Htimes : forall t, t ∈ fmap bar_time (out ++ [(cb, o, h, l, c)]) -> (t <= cb)%Z).
    { intros t Ht. apply I3 in Ht. destruct Ht as (q & Hq & <-). by apply I1. }
    assert (Hrows : (r0 :: rest ++ [r]) = (r0 :: rest) ++ [r]) by reflexivity.
    cbv zeta. rewrite Hrows. unfold agg_step.
    destruct (negb (bucket_of tf (fst r) =? cb)%Z) eqn:Eb.
    + apply negb_true_iff, Z.eqb_neq in Eb.
      cbn [fst snd]. unfold bar_time at 1. cbn [candle_of fst].
      split; [|split; [|split]].
      * intros q Hq. apply elem_of_app in Hq. destruct Hq as [Hq|Hq].
        -- specialize (I1 q Hq). lia.
        -- apply list_elem_of_singleton in Hq. subst q. lia.
      * rewrite fmap_app. apply StronglySorted_app.
        split; [|split; [exact I2|repeat constructor]].
        intros t1 t2 Ht1 Ht2. apply list_elem_of_singleton in Ht2. subst t2.
        unfold bar_time. cbn [candle_of fst]. specialize (Htimes t1 Ht1). lia.
      * intros b. rewrite fmap_app, elem_of_app. split.
        -- intros [Hb|Hb].
           ++ apply I3 in Hb. destruct Hb as (q & Hq & <-).
              exists q. split; [|reflexivity]. apply elem_of_app. by left.
           ++ apply list_elem_of_singleton in Hb. subst b.
              exists r. split; [|reflexivity]. apply elem_of_app. right. by left.
        -- intros (q & Hq & <-). apply elem_of_app in Hq. destruct Hq as [Hq|Hq].
           ++ left. apply I3. by exists q.
           ++ apply list_elem_of_singleton in Hq. subst q. right. by left.
      * intros bar Hbar. apply elem_of_app in Hbar. destruct Hbar as [Hbar|Hbar].
        -- rewrite group_snoc.
           assert (Hle : (bar_time bar <= cb)%Z).
           { apply Htimes. apply list_elem_of_fmap. by exists bar. }
           destruct (decide _) as [E|_]; [lia|]. rewrite app_nil_r. by apply I4.
        -- apply list_elem_of_singleton in Hbar. subst bar.
           unfold bar_time. cbn [candle_of fst]. rewrite group_snoc.
           rewrite group_empty.
           ++ destruct (decide _) as [_|E]; [|destruct (E eq_refl)]. reflexivity.
           ++ intros q Hq. specialize (I1 q Hq). lia.
    + apply negb_false_iff, Z.eqb_eq in Eb.
      cbn [fst snd]. unfold bar_time at 1. cbn [candle_of fst].
      assert (Hmap : fmap bar_time (out ++ [(cb, o, pymax h (c_high (snd r)),
                                            pymin l (c_low (snd r)),
                                            c_close (snd r)) : Bar F])
                     = fmap bar_time (out ++ [(cb, o, h, l, c) : Bar F])).
      { rewrite !fmap_app. reflexivity. }
      split; [|split; [|split]].
      * intros q Hq. apply elem_of_app in Hq. destruct Hq as [Hq|Hq].
        -- by apply I1.
        -- apply list_elem_of_singleton in Hq. subst q. lia.
      * rewrite Hmap. exact I2.
      * intros b. rewrite Hmap, I3. split.
        -- intros (q & Hq & <-). exists q. split; [|reflexivity].
           apply elem_of_app. by left.
        -- intros (q & Hq & <-). apply elem_of_app in Hq. destruct Hq as [Hq|Hq].
           ++ by exists q.
           ++ apply list_elem_of_singleton in Hq. subst q.
              rewrite Eb. apply I3. rewrite fmap_app. apply elem_of_app. right. by left.
      * intros bar Hbar. apply elem_of_app in Hbar. destruct Hbar as [Hbar|Hbar].
        -- rewrite group_snoc.
           assert (Hlt : (bar_time bar < cb)%Z).
           { rewrite fmap_app in I2. apply StronglySorted_app in I2.
             destruct I2 as (Hlt & _ & _). apply Hlt.
             - apply list_elem_of_fmap. by exists bar.
             - by left. }
           destruct (decide _) as [E|_]; [lia|]. rewrite app_nil_r.
           apply I4. apply elem_of_app. by left.
        -- apply list_elem_of_singleton in Hbar. subst bar.
           unfold bar_time. cbn [candle_of fst]. rewrite group_snoc.
           destruct (decide _) as [_|E]; [|destruct (E Eb)].
           apply (summarize_snoc cb _ r o h l c).
           apply (I4 (cb, o, h, l, c)). apply elem_of_app. right. by left.
Qed.
(** Rows that are their own buckets, in strictly ascending order, come
    back as they are. *)
Lemma agg_run_fixed tf r0 rest :
  ascending (r0 :: rest) ->
  (forall r, r ∈ r0 :: rest -> bucket_of tf (fst r) = fst r) ->
  fst (agg_run tf r0 rest) ++ [snd (agg_run tf r0 rest)]
  = bar_of <$> (r0 :: rest) /\
  snd (agg_run tf r0 rest) = bar_of (default r0 (last rest)).
Proof.
  unfold agg_run.
  induction rest as [|r rest IH] using rev_ind; intros Hasc Hfix.
  - cbn. rewrite (Hfix r0) by (by left). split; reflexivity.
  - assert (Hasc' : ascending (r0 :: rest) /\
                    forall q, q ∈ r0 :: rest -> (fst q < fst r)%Z).
    { unfold ascending in *.
      change (r0 :: rest ++ [r]) with ((r0 :: rest) ++ [r]) in Hasc.
      rewrite fmap_app in Hasc. apply StronglySorted_app in Hasc.
      destruct Hasc as (Hlt & Hs & _). split; [exact Hs|].
      intros q Hq. apply Hlt; [|by left].
      apply list_elem_of_fmap. by exists q. }
    destruct Hasc' as [Hpre Hlast].
    destruct IH as [IH1 IH2]; [exact Hpre| |].
    { intros q Hq. apply Hfix. change (r0 :: rest ++ [r]) with ((r0 :: rest) ++ [r]).
      apply elem_of_app. by left. }
    rewrite fold_left_app. cbn [fold_left].
    destruct (fold_left (agg_step tf) rest _) as [out cur] eqn:Est.
    cbn [fst snd] in IH1, IH2.
    assert (Hin : default r0 (last rest) ∈ r0 :: rest).
    { destruct (last rest) as [q|] eqn:El; cbn; [|by left].
      right. apply last_Some in El. destruct El as [l' ->].
      apply elem_of_app. right. by left. }
    assert (Hr : bucket_of tf (fst r) = fst r).
    { apply Hfix. change (r0 :: rest ++ [r]) with ((r0 :: rest) ++ [r]).
      apply elem_of_app. right. by left. }
    specialize (Hlast _ Hin).
    destruct cur as [[[[cb o] h] l] c].
    assert (Hcb : cb = fst (default r0 (last rest))).
    { unfold bar_of in IH2. by injection IH2. }
    unfold agg_step. rewrite Hr.
    destruct (negb (fst r =? cb)%Z) eqn:Eb.
    2:{ apply negb_false_iff, Z.eqb_eq in Eb. lia. }
    cbn [fst snd]. rewrite last_snoc. cbn [default].
    split; [|reflexivity].
    change (r0 :: rest ++ [r]) with ((r0 :: rest) ++ [r]).
    rewrite fmap_app, <- IH1. reflexivity.
Qed.

Lemma agg_bars_fixed tf (cs : list (Z * Candle F)) :
  ascending cs ->
  (forall r, r ∈ cs -> bucket_of tf (fst r) = fst r) ->
  agg_bars tf cs = bar_of <$> cs.
Proof.
  destruct cs as [|r0 rest]; [reflexivity|]. intros Hasc Hfix.
  exact (proj1 (agg_run_fixed tf r0 rest Hasc Hfix)).
Qed.

Lemma agg_bars_spec tf (cs : list (Z * Candle F)) :
  (0 < tf)%Z -> ascending cs ->
  StronglySorted Z.lt (bar_time <$> agg_bars tf cs) /\
  (forall b, b ∈ bar_time <$> agg_bars tf cs
             <-> exists r, r ∈ cs /\ bucket_of tf (fst r) = b) /\
  (forall bar, bar ∈ agg_bars tf cs ->
     summarize (bar_time bar) (group tf (bar_time bar) cs) = Some bar).
Proof.
  intros Htf Hasc. destruct cs as [|r0 rest].
  - cbn. split; [constructor|]. split.
    + intros b. split; [intros Hb; inversion Hb|intros (r & Hr & _); inversion Hr].
    + intros bar Hbar. inversion Hbar.
  - destruct (agg_run_spec tf r0 rest Htf Hasc) as (_ & I2 & I3 & I4).
    repeat split; try assumption; apply I3.
Qed.

(** C7, as the code has it.  The output rows carry their bucket under the
    key [time], not [ts]; read back with that key renamed ([retime]):
    for every list of stored candles in ascending time order, aggregating
    at [tf = 1] returns the rows themselves (under [time]); aggregating
    the output of an aggregation again at the same [tf] returns that
    output; and the output has one bar per bucket [(ts / tf) * tf] that
    occurs, in ascending order, each made of the rows of its bucket: the
    open of the first, the largest high, the smallest low, the close of
    the last. *)
Theorem aggregation_is_idempotent_once_retimed tf (cs : list (Z * Candle F)) :
  ascending cs ->
  _aggregate_candles (raw_row <$> cs) 1 = Returns (out_row <$> (bar_of <$> cs)) /\
  exists bars,
    _aggregate_candles (raw_row <$> cs) tf = Returns (out_row <$> bars) /\
    _aggregate_candles (retime <$> (out_row <$> bars)) tf
    = Returns (out_row <$> bars) /\
    StronglySorted Z.lt (bar_time <$> bars) /\
    (forall b, b ∈ bar_time <$> bars
               <-> exists r, r ∈ cs /\ bucket_of (Z.max 1 tf) (fst r) = b) /\
    (forall bar, bar ∈ bars ->
       summarize (bar_time bar) (group (Z.max 1 tf) (bar_time bar) cs)
       = Some bar).
Proof.
  intros Hasc. split.
  - rewrite aggregate_typed. f_equal. f_equal. apply agg_bars_fixed; [exact Hasc|].
    intros r _. unfold bucket_of. change (Z.max 1 1) with 1%Z.
    rewrite Z.div_1_r. lia.
  - assert (Htf : (0 < Z.max 1 tf)%Z) by lia.
    destruct (agg_bars_spec (Z.max 1 tf) cs Htf Hasc) as (Hs & Hb & Hg).
    exists (agg_bars (Z.max 1 tf) cs).
    split; [apply aggregate_typed|]. split; [|repeat split; try assumption; apply Hb].
    rewrite <- list_fmap_compose.
    rewrite (list_fmap_ext (retime ∘ out_row) (raw_row ∘ candle_of) _
               (fun _ b _ => retime_out_row b)).
    rewrite list_fmap_compose, aggregate_typed. f_equal. f_equal.
    rewrite agg_bars_fixed.
    + rewrite <- list_fmap_compose. rewrite <- (list_fmap_id (agg_bars _ cs)) at 2.
      apply list_fmap_ext. intros _ b _. apply bar_of_candle_of.
    + unfold ascending. rewrite <- list_fmap_compose. exact Hs.
    + intros q Hq. apply list_elem_of_fmap in Hq. destruct Hq as (bar & -> & Hbar).
      change (fst (candle_of bar)) with (bar_time bar).
      destruct (proj1 (Hb (bar_time bar))) as (r & _ & <-).
      * apply list_elem_of_fmap. by exists bar.
      * by apply bucket_of_bucket.
Qed.
End Aggregation.

(** C7, as the spec has it, fails on the code: an aggregated list cannot
    be aggregated again as it is, because the loop reads [r["ts"]] and the
    rows it made have the key [time]; and at [tf = 1] the output is not
    the input, for the same renaming.  One stored candle is enough. *)
Lemma reaggregation_raises_key_error :
  let raw : list (gmap string (Val float)) :=
    [raw_row (1000%Z, {| c_open := of_Z 1; c_high := of_Z 2;
                         c_low := of_Z 1; c_close := of_Z 2 |})] in
  let bar (t : Z) : list (gmap string (Val float)) :=
    [out_row (t, of_Z 1, of_Z 2, of_Z 1, of_Z 2)] in
  (_aggregate_candles raw 60 = Returns (bar 960%Z) /\
   _aggregate_candles (bar 960%Z) 60 = Raises (KeyError "ts")) /\
  (_aggregate_candles raw 1 = Returns (bar 1000%Z) /\
   bar 1000%Z <> raw /\
   _aggregate_candles (bar 1000%Z) 1 = Raises (KeyError "ts")).
Proof.
  cbv zeta.
  split; [split; vm_compute; reflexivity|].
  split; [vm_compute; reflexivity|]. split; [|vm_compute; reflexivity].
  intros Heq.
  apply (f_equal (fun l => head l ≫= fun r => r !! "ts")) in Heq.
  vm_compute in Heq. discriminate Heq.
Qed.

(** * The theorems at work on the two sessions *)

Section Witnesses.
Local Open Scope num_scope.

(** C2 at work: the first BUY of 1000 USD on the engine's configuration,
    in doubles. *)
Lemma market_buy_amm_arithmetic_witness :
  let cfg : MarketConfig float := engine_config in
  let w := scene_joined cfg in
  exists r w',
    market_buy cfg 1001 "alice01" (of_Z 1000) w = (Returns (Accepted r), w') /\
    pool_y (engine w') = pool_y (engine w) + (of_Z 1000 - of_Z 1000 * fee_rate cfg) /\
    pool_x (engine w') = pool_k (engine w) / pool_y (engine w') /\
    r_avg_price r = (of_Z 1000 - r_fee r) / r_amount_out r.
Proof.
  cbv zeta.
  destruct (market_buy (engine_config : MarketConfig float) 1001 "alice01"
              (of_Z 1000) (scene_joined engine_config))
    as [[[r|e]|ex] w'] eqn:Hrun.
  - exists r, w'. split; [reflexivity|].
    destruct (market_buy_amm_arithmetic _ _ _ _ _ _ _ Hrun) as (_ & _ & Hacc).
    destruct (Hacc r eq_refl) as (_ & _ & (Hy & Hx) & (Hf & Ho & Hp) & _).
    rewrite Hy, Hx, Hf, Ho, Hp. repeat split.
  - vm_compute in Hrun. discriminate Hrun.
  - vm_compute in Hrun. discriminate Hrun.
Defined.

(** The margin gate at work.  In doubles, on the engine's
    configuration, the first BUY of 1000 USD is accepted and has passed
    the margin test; with no leverage allowed the same BUY is not
    accepted.  In exact arithmetic the accepted BUY satisfies the two
    inequalities. *)
Lemma margin_gate_after_accepted_witness :
  (exists r w' row',
     market_order (engine_config : MarketConfig float) 1001 "alice01" BUY
       (of_Z 1000) (scene_joined engine_config)
     = (Returns (Accepted r), w') /\
     players (db w') !! "alice01" = Some row' /\
     _margin_ok engine_config (cash row') (pos row') (price (engine w')) = true) /\
  (leverage_max (no_leverage_config : MarketConfig float) <= of_Z 0 /\
   forall r w',
     market_order (no_leverage_config : MarketConfig float) 1001 "alice01" BUY
       (of_Z 1000) (scene_joined no_leverage_config)
     <> (Returns (Accepted r), w')) /\
  (let cfg : MarketConfig Qc := engine_config in
   let w := scene_joined cfg in
   exists r w' row',
     market_order cfg 1001 "alice01" BUY (of_Z 1000) w
     = (Returns (Accepted r), w') /\
     players (db w') !! "alice01" = Some row' /\
     min_equity cfg <= cash row' + pos row' * price (engine w') /\
     fabs (pos row') * price (engine w')
     <= (cash row' + pos row' * price (engine w')) * leverage_max cfg + dec 1 6).
Proof.
  cbv zeta. split; [|split].
  - destruct (market_order (engine_config : MarketConfig float) 1001 "alice01"
                BUY (of_Z 1000) (scene_joined engine_config))
      as [[[r|e]|ex] w'] eqn:Hrun;
      [|vm_compute in Hrun; discriminate Hrun
       |vm_compute in Hrun; discriminate Hrun].
    destruct (proj1 (proj1 margin_gate_after_accepted float binary64
                       engine_config 1001%Z "alice01" BUY (of_Z 1000)
                       (scene_joined engine_config)) r w' Hrun)
      as (row' & Hrow' & Hm).
    exists r, w', row'. split; [reflexivity|]. split; [exact Hrow'|exact Hm].
  - assert (Hlev : leverage_max (no_leverage_config : MarketConfig float)
                   <= of_Z 0) by (vm_compute; reflexivity).
    split; [exact Hlev|].
    exact (proj2 (proj1 margin_gate_after_accepted float binary64
                    no_leverage_config 1001%Z "alice01" BUY (of_Z 1000)
                    (scene_joined no_leverage_config)) Hlev).
  - destruct (market_order (engine_config : MarketConfig Qc) 1001 "alice01" BUY
                (of_Z 1000) (scene_joined engine_config))
      as [[[r|e]|ex] w'] eqn:Hrun;
      [|vm_compute in Hrun; discriminate Hrun
       |vm_compute in Hrun; discriminate Hrun].
    destruct (proj2 margin_gate_after_accepted _ _ _ _ _ _ r w' Hrun)
      as (row' & Hrow' & Hmin & Hexp).
    exists r, w', row'. repeat split; assumption.
Defined.


(** C6 at work: the SELL of the log, met with the long of 5 at 100. *)
Lemma replay_over_flip_witness :
  let s : Stats float :=
    {| s_pos := of_Z 5; s_avg := of_Z 100; s_realized := of_Z 0 |} in
  let t : Trade float :=
    {| t_code := "alice01"; t_ts := 1002; t_side := SELL;
       t_qty := of_Z 8; t_price := of_Z 110; t_notional := of_Z 880;
       t_fee := of_Z 0; t_cash_after := of_Z 10380;
       t_pos_after := of_Z (-3) |} in
  t_side t = SELL /\ (s_pos s <=? of_Z 0) = false /\
  stats_step s t = spec_reduce_long s (of_Z 8) (of_Z 110) (of_Z 0) /\
  stats_step s t
  = {| s_pos := of_Z (-3); s_avg := of_Z 110; s_realized := of_Z 50 |}.
Proof.
  cbv zeta. split; [reflexivity|]. split; [vm_compute; reflexivity|].
  split; [|vm_compute; reflexivity].
  apply (proj2 (proj2 replay_over_flip) float binary64);
    [reflexivity|vm_compute; reflexivity].
Defined.

(** C7 at work: three stored candles, two of them in the minute from 0. *)
Lemma aggregation_is_idempotent_once_retimed_witness :
  let cs : list (Z * Candle float) :=
    [(0%Z, {| c_open := of_Z 1; c_high := of_Z 3; c_low := of_Z 1; c_close := of_Z 2 |});
     (1%Z, {| c_open := of_Z 2; c_high := of_Z 5; c_low := of_Z 2; c_close := of_Z 4 |});
     (60%Z, {| c_open := of_Z 4; c_high := of_Z 4; c_low := of_Z 3; c_close := of_Z 3 |})] in
  ascending cs /\
  _aggregate_candles (raw_row <$> cs) 1 = Returns (out_row <$> (bar_of <$> cs)) /\
  exists bars,
    _aggregate_candles (raw_row <$> cs) 60 = Returns (out_row <$> bars) /\
    _aggregate_candles (retime <$> (out_row <$> bars)) 60
    = Returns (out_row <$> bars).
Proof.
  cbv zeta.
  match goal with
  | |- ascending ?cs /\ _ =>
      assert (Hasc : ascending cs)
        by (unfold ascending; cbn; repeat constructor; reflexivity);
      destruct (aggregation_is_idempotent_once_retimed 60 cs Hasc)
        as (Hone & bars & Hagg & Hagain & _)
  end.
  split; [exact Hasc|]. split; [exact Hone|].
  exists bars. split; assumption.
Defined.


(** C9 at work: the first join of ["alice01"], then a second one under
    another nick after her BUY. *)
Lemma join_creates_once_then_renames_witness :
  let cfg : MarketConfig float := engine_config in
  let d := db (scene_bought cfg) in
  exists d' p,
    join 2000 " alice01" "Alice" d = (Joined "alice01" "Alice", d') /\
    players d !! "alice01" = Some p /\
    players d' !! "alice01"
    = Some {| nick := "Alice"; cash := cash p; pos := pos p;
              created_at := created_at p; updated_at := 2000 |}.
Proof.
  cbv zeta.
  destruct (join 2000 " alice01" "Alice"
              (db (scene_bought (engine_config : MarketConfig float))))
    as [[code' nick'|] d'] eqn:Hrun.
  - destruct (join_creates_once_then_renames _ _ _ _ _ _ _ Hrun)
      as ((-> & ->) & _ & Hsome & _).
    destruct (players (db (scene_bought (engine_config : MarketConfig float)))
                !! strip " alice01") as [p|] eqn:Hp.
    + exists d', p. split; [reflexivity|]. split; [exact Hp|].
      exact (Hsome p eq_refl).
    + vm_compute in Hp. discriminate Hp.
  - vm_compute in Hrun. discriminate Hrun.
Defined.


(** Rejection in exact arithmetic at work: a SELL of 400 RICH after the
    first BUY is refused for margin and returns the state it was given. *)
Lemma rejected_order_is_pure_exact_witness :
  let cfg : MarketConfig Qc := engine_config in
  let w := scene_bought cfg in
  price (engine w) = pool_y (engine w) / pool_x (engine w) /\
  fst (market_order cfg 1002 "alice01" SELL (of_Z 400) w)
  = Returns (Rejected MarginRefused) /\
  snd (market_order cfg 1002 "alice01" SELL (of_Z 400) w) = w.
Proof.
  cbv zeta.
  assert (Hprice : price (engine (scene_bought (engine_config : MarketConfig Qc)))
                   = pool_y (engine (scene_bought engine_config))
                     / pool_x (engine (scene_bought engine_config)))
    by (apply Qc_is_canon; vm_compute; reflexivity).
  split; [exact Hprice|].
  destruct (market_order (engine_config : MarketConfig Qc) 1002 "alice01" SELL
              (of_Z 400) (scene_bought engine_config))
    as [[[r|e]|ex] w'] eqn:Hrun.
  - vm_compute in Hrun. discriminate Hrun.
  - split.
    + destruct e; try (vm_compute in Hrun; discriminate Hrun). reflexivity.
    + exact (rejected_order_is_pure_exact _ _ _ _ _ _ _ _ Hprice Hrun).
  - vm_compute in Hrun. discriminate Hrun.
Defined.

(** The pool invariant at work: the state after the first BUY. *)
Lemma reachable_pool_consistent_witness :
  let cfg : MarketConfig Qc := engine_config in
  reachable cfg (scene_bought cfg) /\
  pool_k (engine (scene_bought cfg))
  = pool_x (engine (scene_bought cfg)) * pool_y (engine (scene_bought cfg)).
Proof.
  cbv zeta. split; [apply scene_bought_reachable|].
  exact (proj1 (reachable_pool_consistent engine_config _
                  (scene_bought_reachable engine_config))).
Defined.
End Witnesses.

(** * More of the engine and of the service *)

(** ** What an order that is not accepted leaves behind *)

(** Runs a market order to each of its ends: [Hrun] is the equation of
    the run and [Hno] says its outcome is no acceptance. *)
Ltac refuse_all Hrun Hno :=
  repeat open_head Hrun;
  first [ discriminate Hrun
        | injection Hrun as <- <-;
          first [ exfalso; eapply Hno; reflexivity
                | cbn; repeat split ] ].

Section Refusals.
Context {F : Type} `{Arith F}.
Local Open Scope num_scope.

Lemma market_buy_refused cfg now code usd_in (w : World F) out w' :
  market_buy cfg now code usd_in w = (out, w') ->
  (forall r, out <> Returns (Accepted r)) ->
  db w' = db w /\
  pool_k (engine w') = pool_k (engine w) /\
  started (engine w') = started (engine w) /\
  snap_candle (snapshot (engine w')) = snap_candle (snapshot (engine w)).
Proof.
  intros Hrun Hno. unfold market_buy, reject in Hrun.
  refuse_all Hrun Hno.
Qed.

Lemma market_sell_refused cfg now code rich_in (w : World F) out w' :
  market_sell cfg now code rich_in w = (out, w') ->
  (forall r, out <> Returns (Accepted r)) ->
  db w' = db w /\
  pool_k (engine w') = pool_k (engine w) /\
  started (engine w') = started (engine w) /\
  snap_candle (snapshot (engine w')) = snap_candle (snapshot (engine w)).
Proof.
  intros Hrun Hno. unfold market_sell, reject in Hrun.
  refuse_all Hrun Hno.
Qed.
End Refusals.

(** An order that is not accepted, whether it is refused or an exception
    leaves it, writes to no table; the pool constant, the started flag
    and the live candle are those before; only the two reserves and the
    price can differ (the margin branch puts them back in floats). *)
Theorem refused_order_writes_nothing :
  forall (F : Type) (A : Arith F) cfg now code side amount (w : World F)
         out w',
    market_order cfg now code side amount w = (out, w') ->
    (forall r, out <> Returns (Accepted r)) ->
    db w' = db w /\
    pool_k (engine w') = pool_k (engine w) /\
    started (engine w') = started (engine w) /\
    snap_candle (snapshot (engine w')) = snap_candle (snapshot (engine w)).
Proof.
  intros F A cfg now code [] amount w out w'; cbn [market_order].
  - apply market_buy_refused.
  - apply market_sell_refused.
Qed.

(** ** What an accepted order writes *)

Section Accepted.
Context {F : Type} `{Arith F}.
Local Open Scope num_scope.

Lemma order_accepted_commit cfg now code side amount (w : World F) r w' :
  market_order cfg now code side amount w = (Returns (Accepted r), w') ->
  started (engine w) = true /\
  r_side r = side /\ r_ts r = now /\ r_amount_in r = amount /\
  exists e1,
    w' = commit_trade cfg now (trade_row now code side amount r) e1 (db w) /\
    started e1 = true.
Proof.
  destruct side; cbn [market_order]; intros Hrun.
  - destruct (market_buy_accepted _ _ _ _ _ _ _ Hrun)
      as (row & _ & Hg & Hw & Hr).
    destruct Hg as (_ & Hs & _).
    rewrite Hr. cbn [r_side r_ts r_amount_in]. repeat split; try exact Hs.
    eexists. split; [exact Hw|exact Hs].
  - destruct (market_sell_accepted _ _ _ _ _ _ _ Hrun)
      as (row & _ & Hg & Hw & Hr).
    destruct Hg as (_ & Hs & _).
    rewrite Hr. cbn [r_side r_ts r_amount_in]. repeat split; try exact Hs.
    eexists. split; [exact Hw|exact Hs].
Qed.

Lemma set_pool_state_reads (e : Engine F) d :
  get_state STATE_POOL_X (_set_pool_state e d) = Some (SNum (pool_x e)) /\
  get_state STATE_POOL_Y (_set_pool_state e d) = Some (SNum (pool_y e)) /\
  get_state STATE_POOL_K (_set_pool_state e d) = Some (SNum (pool_k e)) /\
  get_state STATE_PRICE (_set_pool_state e d) = Some (SNum (price e)) /\
  get_state STATE_CANDLE_TS (_set_pool_state e d) = Some (SInt (candle_ts e)) /\
  get_state STATE_STARTED (_set_pool_state e d) = Some (SFlag (started e)).
Proof.
  unfold _set_pool_state. rewrite !get_state_set_state. repeat split.
Qed.

Lemma commit_trade_reads cfg now t (e1 : Engine F) d :
  let w' := commit_trade cfg now t e1 d in
  get_state STATE_POOL_X (db w') = Some (SNum (pool_x (engine w'))) /\
  get_state STATE_POOL_Y (db w') = Some (SNum (pool_y (engine w'))) /\
  get_state STATE_POOL_K (db w') = Some (SNum (pool_k (engine w'))) /\
  get_state STATE_PRICE (db w') = Some (SNum (price (engine w'))) /\
  get_state STATE_CANDLE_TS (db w') = Some (SInt (candle_ts (engine w'))) /\
  get_state STATE_STARTED (db w') = Some (SFlag (started (engine w'))).
Proof. unfold commit_trade. cbn [engine db]. apply set_pool_state_reads. Qed.
End Accepted.

(** ** The rows of one player in [trades] *)

Section TradeRows.
Context {F : Type} `{Arith F}.

Lemma trades_of_app code i (l1 l2 : list (Trade F)) :
  trades_of code i (l1 ++ l2)
  = trades_of code i l1 ++ trades_of code (i + Z.of_nat (length l1)) l2.
Proof.
  revert i. induction l1 as [|t l1 IH]; intros i; cbn [trades_of app length].
  - f_equal. lia.
  - rewrite IH.
    replace (i + 1 + Z.of_nat (length l1))%Z
      with (i + Z.of_nat (S (length l1)))%Z by lia.
    destruct (String.eqb _ _); reflexivity.
Qed.

(** Every listed row is the row of the table at its [id], and is a row
    of the player. *)
Lemma trades_of_rows code i (l : list (Trade F)) :
  Forall (fun p => (i <= fst p)%Z /\
                   l !! Z.to_nat (fst p - i) = Some (snd p) /\
                   t_code (snd p) = code)
    (trades_of code i l).
Proof.
  revert i. induction l as [|t l IH]; intros i; cbn [trades_of].
  - constructor.
  - assert (Htl : Forall (fun p => (i <= fst p)%Z /\
                     (t :: l) !! Z.to_nat (fst p - i) = Some (snd p) /\
                     t_code (snd p) = code) (trades_of code (i + 1) l)).
    { eapply Forall_impl; [apply IH|]. intros [id t'] (Hi & Hl & Hc); cbn in *.
      split; [lia|]. split; [|exact Hc].
      replace (Z.to_nat (id - i)) with (S (Z.to_nat (id - (i + 1)))) by lia.
      exact Hl. }
    destruct (String.eqb (t_code t) code) eqn:E; [|exact Htl].
    constructor; [|exact Htl]. cbn. split; [lia|].
    rewrite Z.sub_diag. split; [reflexivity|]. by apply String.eqb_eq.
Qed.

Lemma trades_of_bound code i (l : list (Trade F)) :
  Forall (fun p => (i <= fst p < i + Z.of_nat (length l))%Z) (trades_of code i l).
Proof.
  eapply Forall_impl; [apply trades_of_rows|].
  intros [id t] (Hi & Hl & _); cbn in *. split; [exact Hi|].
  apply lookup_lt_Some in Hl. lia.
Qed.

Lemma trades_of_ascending code i (l : list (Trade F)) :
  StronglySorted Z.lt (fst <$> trades_of code i l).
Proof.
  revert i. induction l as [|t l IH]; intros i; cbn [trades_of].
  - constructor.
  - destruct (String.eqb _ _); [|apply IH].
    cbn. constructor; [apply IH|].
    apply Forall_fmap. eapply Forall_impl; [apply (trades_of_bound code (i + 1) l)|].
    intros [id t'] Hb; cbn in *. lia.
Qed.

Lemma fold_max_bound (l : list Z) (a b : Z) :
  (a <= b)%Z -> Forall (fun z => (z <= b)%Z) l -> (fold_left Z.max l a <= b)%Z.
Proof.
  revert a. induction l as [|z l IH]; intros a Ha Hl; cbn; [exact Ha|].
  inversion Hl; subst. apply IH; [lia|assumption].
Qed.

Lemma fold_max_ge (l : list Z) (a : Z) : (a <= fold_left Z.max l a)%Z.
Proof.
  revert a. induction l as [|z l IH]; intros a; cbn; [lia|].
  etransitivity; [|apply IH]. lia.
Qed.

Lemma last_trade_id_bound code (d : Db F) :
  (0 <= _last_trade_id code d <= Z.of_nat (length (trades d)))%Z.
Proof.
  unfold _last_trade_id. split; [apply fold_max_ge|].
  apply fold_max_bound; [lia|].
  apply Forall_forall. intros z Hz. apply list_elem_of_In, in_map_iff in Hz.
  destruct Hz as (p & <- & Hp). apply list_elem_of_In in Hp.
  pose proof (trades_of_bound code 1 (trades d)) as Hb.
  rewrite Forall_forall in Hb. specialize (Hb p Hp). lia.
Qed.

(** The log grows at its end: the listing of a player grows with it. *)
Lemma list_trades_asc_app code (d : Db F) l :
  _list_trades_asc code (with_trades d (trades d ++ l))
  = _list_trades_asc code d
    ++ map snd (trades_of code (1 + Z.of_nat (length (trades d))) l).
Proof.
  unfold _list_trades_asc. cbn [trades with_trades].
  rewrite trades_of_app, map_app. reflexivity.
Qed.

Lemma last_trade_id_snoc code (d : Db F) t :
  t_code t = code ->
  _last_trade_id code (with_trades d (trades d ++ [t]))
  = Z.of_nat (length (trades d ++ [t])).
Proof.
  intros Hc. unfold _last_trade_id. cbn [trades with_trades].
  rewrite trades_of_app. cbn [trades_of].
  rewrite (proj2 (String.eqb_eq _ _) Hc).
  rewrite map_app, fold_left_app. cbn.
  pose proof (last_trade_id_bound code d) as Hb. unfold _last_trade_id in Hb.
  rewrite length_app. cbn. lia.
Qed.

Lemma recent_is_suffix code limit (d : Db F) :
  let all := trades_of code 1 (trades d) in
  let n := if (limit <? 0)%Z then length all
           else Nat.min (Z.to_nat limit) (length all) in
  _list_trades_recent code limit d = drop (length all - n) all.
Proof.
  cbv zeta. unfold _list_trades_recent, sql_limit.
  destruct (limit <? 0)%Z.
  - rewrite rev_involutive, Nat.sub_diag. reflexivity.
  - rewrite firstn_rev, rev_involutive. f_equal. lia.
Qed.
End TradeRows.

(** An accepted order appends one row to [trades]: the row of its
    result, for the stripped code, at the clock of the call.  The wallet
    it writes carries the row's [cash_after] and [pos_after]; the row has
    the last [id] of the table, and every listing of the player's recent
    trades with a bound of 1 or more ends with it. *)
Theorem accepted_order_logs_one_trade :
  forall (F : Type) (A : Arith F) cfg now code side amount (w : World F) r w',
    market_order cfg now code side amount w = (Returns (Accepted r), w') ->
    let t := trade_row now code side amount r in
    let id := Z.of_nat (length (trades (db w'))) in
    trades (db w') = trades (db w) ++ [t] /\
    r_side r = side /\ r_ts r = now /\ r_amount_in r = amount /\
    (exists row',
       players (db w') !! strip code = Some row' /\
       cash row' = t_cash_after t /\ pos row' = t_pos_after t /\
       updated_at row' = now) /\
    _last_trade_id (strip code) (db w') = id /\
    forall limit, (1 <= limit)%Z ->
      last (_list_trades_recent (strip code) limit (db w')) = Some (id, t).
Proof.
  intros F A cfg now code side amount w r w' Hrun t id.
  destruct (order_accepted_commit _ _ _ _ _ _ _ _ Hrun)
    as (_ & Hs & Hts & Ha & e1 & Hw & _).
  destruct (order_accepted_wallet _ _ _ _ _ _ _ _ Hrun)
    as (row & _ & Hrow' & _).
  assert (Htr : trades (db w') = trades (db w) ++ [t])
    by (rewrite Hw; apply commit_trade_trades).
  split; [exact Htr|]. do 3 (split; [assumption|]).
  split; [eexists; split; [exact Hrow'|repeat split]|].
  assert (Hid : _last_trade_id (strip code) (db w') = id).
  { unfold id. rewrite Htr.
    rewrite <- (last_trade_id_snoc (strip code) (db w) t eq_refl).
    unfold _last_trade_id. cbn [trades with_trades]. by rewrite Htr. }
  split; [exact Hid|].
  intros limit Hl. unfold _list_trades_recent, sql_limit.
  replace (limit <? 0)%Z with false by lia.
  rewrite Htr, trades_of_app. cbn [trades_of].
  change (t_code t) with (strip code). rewrite String.eqb_refl.
  rewrite rev_app_distr. cbn [rev app].
  destruct (Z.to_nat limit) as [|n] eqn:En; [lia|].
  cbn [take firstn rev]. rewrite last_snoc. f_equal. f_equal.
  unfold id. rewrite Htr, length_app. cbn. lia.
Qed.

(** The recent trades of a player are the last rows of the player's
    log, in the order of their [id]: as many as the bound allows, all of
    them under a negative bound.  Every listed [id] is the place of its
    row in the table.  The listing of db.py and the one of app.py
    agree. *)
Theorem recent_trades_are_the_latest :
  forall (F : Type) (A : Arith F) code limit (d : Db F),
    let all := trades_of code 1 (trades d) in
    let n := if (limit <? 0)%Z then length all
             else Nat.min (Z.to_nat limit) (length all) in
    _list_trades_recent code limit d = drop (length all - n) all /\
    list_recent_trades code limit d = _list_trades_recent code limit d /\
    StronglySorted Z.lt (fst <$> _list_trades_recent code limit d) /\
    Forall (fun p => trades d !! Z.to_nat (fst p - 1) = Some (snd p) /\
                     (1 <= fst p)%Z /\ t_code (snd p) = code)
      (_list_trades_recent code limit d).
Proof.
  intros F A code limit d all n.
  pose proof (recent_is_suffix code limit d) as Hs. cbv zeta in Hs.
  fold all in Hs. fold n in Hs.
  split; [exact Hs|]. split; [reflexivity|]. rewrite Hs. split.
  - pose proof (trades_of_ascending code 1 (trades d)) as Ha. fold all in Ha.
    rewrite <- (take_drop (length all - n) all) in Ha.
    rewrite fmap_app in Ha. by apply StronglySorted_app_1_r in Ha.
  - apply Forall_drop. eapply Forall_impl; [apply trades_of_rows|].
    intros p (H1 & H2 & H3). repeat split; assumption.
Qed.


(** ** Stripping twice *)

Section Strip.

Lemma append_cons (x : ascii) (a b : string) :
  (String x a +:+ b = String x (a +:+ b))%string.
Proof. reflexivity. Qed.

Lemma append_assoc (a b c : string) : ((a +:+ b) +:+ c = a +:+ (b +:+ c))%string.
Proof.
  induction a as [|x a IH]; [reflexivity|].
  rewrite !append_cons, IH. reflexivity.
Qed.

Lemma rev_app_spec (s acc : string) :
  String.rev_app s acc = (String.rev s +:+ acc)%string.
Proof.
  unfold String.rev. revert acc.
  induction s as [|a s IH]; intros acc; cbn [String.rev_app]; [reflexivity|].
  rewrite (IH (String a acc)), (IH (String a "")), append_assoc. reflexivity.
Qed.

Lemma rev_cons (a : ascii) (s : string) :
  String.rev (String a s) = (String.rev s +:+ String a "")%string.
Proof. unfold String.rev at 1. cbn [String.rev_app]. apply rev_app_spec. Qed.

Lemma rev_snoc (a : ascii) (s : string) :
  String.rev (s +:+ String a "") = String a (String.rev s).
Proof.
  induction s as [|b s IH]; [reflexivity|].
  rewrite append_cons, !rev_cons, IH. reflexivity.
Qed.

Lemma rev_rev (s : string) : String.rev (String.rev s) = s.
Proof.
  induction s as [|a s IH]; [reflexivity|].
  rewrite rev_cons, rev_snoc, IH. reflexivity.
Qed.

Lemma lstrip_lstrip (s : string) : lstrip (lstrip s) = lstrip s.
Proof.
  induction s as [|a s IH]; cbn [lstrip]; [reflexivity|].
  destruct (is_space a) eqn:E; [exact IH|]. cbn [lstrip]. by rewrite E.
Qed.

Lemma lstrip_snoc (s : string) (c : ascii) :
  is_space c = false ->
  lstrip (s +:+ String c "") = (lstrip s +:+ String c "")%string.
Proof.
  intros Hc. induction s as [|a s IH].
  - change (lstrip (String c "") = String c ""). cbn [lstrip]. by rewrite Hc.
  - rewrite append_cons. cbn [lstrip].
    destruct (is_space a); [exact IH|reflexivity].
Qed.

(** Stripping the right end keeps a first character that is no
    space. *)
Lemma rstrip_head (c : ascii) (m : string) :
  is_space c = false ->
  String.rev (lstrip (String.rev (String c m)))
  = String c (String.rev (lstrip (String.rev m))).
Proof.
  intros Hc. rewrite rev_cons, lstrip_snoc by exact Hc. apply rev_snoc.
Qed.

Lemma lstrip_head (s : string) :
  lstrip s = EmptyString \/
  exists c m, lstrip s = String c m /\ is_space c = false.
Proof.
  induction s as [|a s IH]; cbn [lstrip]; [by left|].
  destruct (is_space a) eqn:E; [exact IH|]. right. by exists a, s.
Qed.

(** [s.strip().strip() == s.strip()] *)
Lemma strip_strip (s : string) : strip (strip s) = strip s.
Proof.
  unfold strip.
  destruct (lstrip_head s) as [->|(c & m & -> & Hc)]; [reflexivity|].
  rewrite (rstrip_head c m Hc). cbn [lstrip]. rewrite Hc.
  rewrite <- (rstrip_head c m Hc), rev_rev, lstrip_lstrip. reflexivity.
Qed.
End Strip.

(** After an accepted order the table [market_state] holds what the
    engine holds: the two reserves, the pool constant, the price, the
    time of the live candle and the flag; the game is started; and
    [_get_state_float] reads the three pool numbers back. *)
Theorem accepted_order_persists_engine :
  forall (F : Type) (A : Arith F) cfg now code side amount (w : World F) r w',
    market_order cfg now code side amount w = (Returns (Accepted r), w') ->
    started (engine w') = true /\
    get_state STATE_POOL_X (db w') = Some (SNum (pool_x (engine w'))) /\
    get_state STATE_POOL_Y (db w') = Some (SNum (pool_y (engine w'))) /\
    get_state STATE_POOL_K (db w') = Some (SNum (pool_k (engine w'))) /\
    get_state STATE_PRICE (db w') = Some (SNum (price (engine w'))) /\
    get_state STATE_CANDLE_TS (db w') = Some (SInt (candle_ts (engine w'))) /\
    get_state STATE_STARTED (db w') = Some (SFlag true) /\
    _get_state_float STATE_POOL_X (db w') = Some (pool_x (engine w')) /\
    _get_state_float STATE_POOL_Y (db w') = Some (pool_y (engine w')) /\
    _get_state_float STATE_POOL_K (db w') = Some (pool_k (engine w')).
Proof.
  intros F A cfg now code side amount w r w' Hrun.
  destruct (order_accepted_commit _ _ _ _ _ _ _ _ Hrun)
    as (_ & _ & _ & _ & e1 & Hw & Hs).
  pose proof (commit_trade_reads cfg now (trade_row now code side amount r)
                e1 (db w)) as Hreads.
  pose proof (commit_trade_engine cfg now (trade_row now code side amount r)
                e1 (db w)) as (_ & _ & _ & _ & Hst).
  cbv zeta in Hreads. rewrite <- Hw in Hreads, Hst.
  destruct Hreads as (Hx & Hy & Hk & Hp & Hc & Hf).
  assert (Hstarted : started (engine w') = true) by congruence.
  rewrite Hstarted in Hf. unfold _get_state_float. rewrite Hx, Hy, Hk.
  repeat split; assumption.
Qed.

(** ** The trade endpoint *)

Section TradeEndpoint.
Context {F : Type} `{Arith F}.
Local Open Scope num_scope.

Lemma engine_call_order cfg now code side usd (w : World F) :
  engine_call cfg now code side usd w = (Raises ZeroDivisionError, w) \/
  exists amount,
    engine_call cfg now code side usd w = market_order cfg now code side amount w /\
    amount = match side with
             | BUY => usd
             | SELL => usd / pymax (dec 1 4) (price (engine w))
             end.
Proof.
  destruct side; cbn [engine_call market_order].
  - right. eexists. split; reflexivity.
  - cbv zeta. destruct (is_zero _); [by left|].
    right. eexists. split; reflexivity.
Qed.

Lemma market_order_refused cfg now code side amount (w : World F) out w' :
  market_order cfg now code side amount w = (out, w') ->
  (forall r, out <> Returns (Accepted r)) ->
  db w' = db w.
Proof.
  destruct side; cbn [market_order]; intros Hrun Hno.
  - by destruct (market_buy_refused _ _ _ _ _ _ _ Hrun Hno).
  - by destruct (market_sell_refused _ _ _ _ _ _ _ Hrun Hno).
Qed.
End TradeEndpoint.

(** [POST /api/trade], outcome by outcome.  A 404 is the answer for a
    code with no row and changes nothing.  A 400, and the 500 of a
    [ZeroDivisionError], leave the tables and the statistics cache as they
    were.  The only other 500 is the [ValueError] of [JSONResponse]: the
    engine has accepted the order and logged its row, and a float of the
    answer is an infinity or a NaN.  A 200 means the engine accepted the
    order: one row is logged, every float of the answer is finite, and
    the [me] block carries the wallet just written, the price the order
    left, their equity, and a total PnL that is the sum of its two
    parts. *)
Theorem trade_endpoint_outcomes :
  forall (F : Type) (A : Arith F) cfg now t code side usd (w : World F)
         (c : StatsCache F),
    let res := fst (fst (trade cfg now t code side usd w c)) in
    let w' := snd (fst (trade cfg now t code side usd w c)) in
    let c' := snd (trade cfg now t code side usd w c) in
    match res with
    | Http404 => players (db w) !! strip code = None /\ w' = w /\ c' = c
    | Http400 _ =>
        players (db w) !! strip code <> None /\ db w' = db w /\ c' = c
    | Http500 ex =>
        players (db w) !! strip code <> None /\
        ((ex = ZeroDivisionError /\ db w' = db w /\ c' = c) \/
         (ex = ValueError /\
          exists r me row',
            forallb finite (trade_floats r me) = false /\
            trades (db w')
            = trades (db w) ++ [trade_row now code side (r_amount_in r) r] /\
            players (db w') !! strip code = Some row' /\
            cash row' = r_cash_after r /\ pos row' = r_pos_after r))
    | Http200 r me =>
        forallb finite (trade_floats r me) = true /\
        exists row',
          players (db w') !! strip code = Some row' /\
          trades (db w')
          = trades (db w) ++ [trade_row now code side (r_amount_in r) r] /\
          (me_cash me = cash row' /\ cash row' = r_cash_after r) /\
          (me_pos me = pos row' /\ pos row' = r_pos_after r) /\
          (me_price me = price (engine w') /\
           r_price_after r = price (engine w')) /\
          me_equity me = (cash row' + pos row' * price (engine w'))%num /\
          me_pnl_unrealized me
          = pnl_unrealized (pos row') (me_avg_price me) (price (engine w')) /\
          me_pnl_total me = (me_pnl_realized me + me_pnl_unrealized me)%num
    end.
Proof.
  intros F A cfg now t code side usd w c. cbv zeta. unfold trade, get_player.
  destruct (players (db w) !! strip code) as [row|] eqn:Hrow;
    [|cbn; repeat split].
  destruct (engine_call cfg now (strip code) side usd w)
    as [[[r|err]|ex] w1] eqn:Hcall.
  - (* accepted *)
    destruct (engine_call_order cfg now (strip code) side usd w)
      as [Hz|(amount & Ho & _)]; [congruence|].
    rewrite Ho in Hcall.
    destruct (order_accepted_wallet _ _ _ _ _ _ _ _ Hcall)
      as (row0 & _ & Hrow' & _ & Hp & _).
    destruct (order_accepted_commit _ _ _ _ _ _ _ _ Hcall)
      as (_ & _ & _ & Ha & e1 & Hw & _).
    rewrite strip_strip in Hrow'. rewrite Hrow'.
    destruct (_compute_stats_from_trades t (strip code) (db w1) _)
      as [[[avg real] pc] c2].
    assert (Hlog : trades (db w1)
                   = trades (db w) ++ [trade_row now code side (r_amount_in r) r]).
    { rewrite Hw, commit_trade_trades, Ha. unfold trade_row.
      rewrite strip_strip. reflexivity. }
    unfold JSONResponse.
    match goal with
    | |- context [forallb finite ?l] => destruct (forallb finite l) eqn:Hfin
    end; cbn [fst snd].
    + split; [exact Hfin|]. eexists. split; [exact Hrow'|].
      split; [exact Hlog|].
      cbn [cash pos me_cash me_pos me_price me_equity me_pnl_unrealized
           me_pnl_total me_pnl_realized me_avg_price].
      repeat split; try reflexivity. exact Hp.
    + split; [congruence|]. right. split; [reflexivity|].
      eexists r, _, _. split; [exact Hfin|]. split; [exact Hlog|].
      split; [exact Hrow'|]. split; reflexivity.
  - (* refused *)
    cbn [fst snd].
    destruct (engine_call_order cfg now (strip code) side usd w)
      as [Hz|(amount & Ho & _)]; [congruence|].
    rewrite Ho in Hcall. repeat split; [congruence|].
    eapply market_order_refused; [exact Hcall|]. discriminate.
  - (* an exception of the engine *)
    cbn [fst snd]. split; [congruence|]. left.
    destruct (engine_call_order cfg now (strip code) side usd w)
      as [Hz|(amount & Ho & _)].
    + rewrite Hz in Hcall. injection Hcall as <- <-.
      repeat split.
    + rewrite Ho in Hcall. split; [|split; [|reflexivity]].
      * destruct side; cbn [market_order] in Hcall;
          unfold market_buy, market_sell, reject in Hcall;
          repeat open_head Hcall; congruence.
      * eapply market_order_refused; [exact Hcall|]. discriminate.
Qed.

(** ** The ticker and its stop-out *)

Section StopOutRows.
Context {F : Type} `{Arith F}.
Local Open Scope num_scope.

Lemma liquidate_row_spec cfg now mark (d : Db F) (r : string * Player F) :
  players d !! fst r = Some (snd r) ->
  liquidate_row cfg now mark d r
  = if _equity (cash (snd r)) (pos (snd r)) mark <=? stopout_equity cfg
    then insert_trade (stop_out_trade now mark r)
           (with_players d (<[fst r := wiped now (snd r)]> (players d)))
    else d.
Proof.
  intros Hr. unfold liquidate_row, update_player_wallet. rewrite Hr.
  reflexivity.
Qed.

Lemma liquidate_fold cfg now mark (rows : list (string * Player F)) (d : Db F) :
  NoDup rows.*1 ->
  (forall r, r ∈ rows -> players d !! fst r = Some (snd r)) ->
  let closes := fun r : string * Player F =>
    (_equity (cash (snd r)) (pos (snd r)) mark <=? stopout_equity cfg) = true in
  let d' := fold_left (liquidate_row cfg now mark) rows d in
  trades d' = trades d ++ (stop_out_trade now mark <$> filter closes rows) /\
  (forall code, code ∉ rows.*1 -> players d' !! code = players d !! code) /\
  (forall r, r ∈ rows ->
     players d' !! fst r
     = Some (if _equity (cash (snd r)) (pos (snd r)) mark <=? stopout_equity cfg
             then wiped now (snd r) else snd r)).
Proof.
  cbv zeta. revert d. induction rows as [|r rows IH]; intros d Hnd Hrows.
  - cbn. rewrite app_nil_r. repeat split. intros r Hr. inversion Hr.
  - cbn [fold_left]. rewrite fmap_cons in Hnd.
    apply NoDup_cons in Hnd as [Hr Hnd].
    pose proof (liquidate_row_spec cfg now mark d r
                  (Hrows r (list_elem_of_here _ _))) as Hstep.
    set (d1 := liquidate_row cfg now mark d r) in *.
    assert (Hother : forall code, code <> fst r ->
                       players d1 !! code = players d !! code).
    { intros code Hne. rewrite Hstep. destruct (_ <=? _); [|reflexivity].
      cbn. by apply lookup_insert_ne. }
    assert (Hrows1 : forall q, q ∈ rows -> players d1 !! fst q = Some (snd q)).
    { intros q Hq. rewrite Hother.
      - apply Hrows. by apply list_elem_of_further.
      - intros E. apply Hr. rewrite <- E. by apply list_elem_of_fmap_2. }
    destruct (IH d1 Hnd Hrows1) as (Ht & Hout & Hin).
    split; [|split].
    + rewrite Ht, Hstep, filter_cons.
      destruct (_ <=? _) eqn:E.
      * destruct (decide _) as [_|Hn]; [|destruct (Hn eq_refl)].
        cbn. rewrite <- app_assoc. reflexivity.
      * destruct (decide _) as [Hy|_]; [discriminate Hy|]. reflexivity.
    + intros code Hc. rewrite fmap_cons in Hc.
      apply not_elem_of_cons in Hc as [Hne Hc].
      rewrite (Hout code Hc). by apply Hother.
    + intros q Hq. apply elem_of_cons in Hq as [->|Hq]; [|by apply Hin].
      rewrite (Hout (fst r) Hr), Hstep.
      destruct (_ <=? _).
      * cbn. by rewrite lookup_insert_eq.
      * apply Hrows. apply list_elem_of_here.
Qed.
End StopOutRows.

Lemma liquidate_spec (F : Type) (A : Arith F) cfg now (w : World F) :
    let mark := price (engine w) in
    let w' := _liquidate_if_needed cfg now w in
    engine w' = engine w /\
    candles (db w') = candles (db w) /\
    market_state (db w') = market_state (db w) /\
    (forall code,
       players (db w') !! code
       = (fun row => if stopped_out cfg mark row then wiped now row else row)
           <$> players (db w) !! code) /\
    trades (db w')
    = trades (db w)
      ++ (stop_out_trade now mark
            <$> filter (fun r => stopped_out cfg mark (snd r) = true)
                  (map_to_list (players (db w)))).
Proof.
  intros mark w'.
  destruct (liquidate_frame cfg now w) as (He & Hc & Hm).
  do 3 (split; [assumption|]).
  unfold w', _liquidate_if_needed. cbn [db]. fold mark.
  set (rows := filter (fun r => fneb (pos (snd r)) (of_Z 0) = true)
                 (map_to_list (players (db w)))).
  assert (Hnd : NoDup rows.*1).
  { apply (sublist_NoDup rows.*1 (map_to_list (players (db w))).*1).
    - apply NoDup_fst_map_to_list.
    - apply fmap_sublist. apply sublist_filter. }
  assert (Hrows : forall r, r ∈ rows -> players (db w) !! fst r = Some (snd r)).
  { intros r Hr. apply list_elem_of_filter in Hr as [_ Hr].
    by apply elem_of_map_to_list'. }
  destruct (liquidate_fold cfg now mark rows (db w) Hnd Hrows)
    as (Ht & Hout & Hin).
  split.
  - intros code. destruct (players (db w) !! code) as [row|] eqn:Hrow; cbn.
    + unfold stopped_out. destruct (fneb (pos row) (of_Z 0)) eqn:Hp; cbn.
      * assert (Hr : (code, row) ∈ rows).
        { apply list_elem_of_filter. split; [exact Hp|].
          by apply elem_of_map_to_list. }
        exact (Hin _ Hr).
      * rewrite Hout; [exact Hrow|].
        intros Hin'. apply list_elem_of_fmap in Hin' as ([code' row'] & -> & Hr).
        apply list_elem_of_filter in Hr as [Hp' Hr].
        apply elem_of_map_to_list in Hr. cbn in *. congruence.
    + rewrite Hout; [exact Hrow|].
      intros Hin'. apply list_elem_of_fmap in Hin' as ([code' row'] & -> & Hr).
      apply list_elem_of_filter in Hr as [_ Hr].
      apply elem_of_map_to_list in Hr. cbn in *. congruence.
  - rewrite Ht. f_equal. f_equal. unfold rows.
    rewrite list_filter_filter. apply list_filter_iff.
    intros r. unfold stopped_out. rewrite andb_true_iff. tauto.
Qed.

(** The stop-out closes exactly the wallets with a position whose
    equity at the mark price is at or under [stopout_equity]: it writes
    cash 0 and position 0 to each of them, whatever cash it held, and
    logs one trade of the whole position at the mark price with no fee;
    every other wallet, the engine, the candles and the stored state are
    untouched. *)
Theorem stop_out_wipes_the_wallet :
  forall (F : Type) (A : Arith F) cfg now (w : World F),
    let mark := price (engine w) in
    let w' := _liquidate_if_needed cfg now w in
    engine w' = engine w /\
    candles (db w') = candles (db w) /\
    market_state (db w') = market_state (db w) /\
    (forall code,
       players (db w') !! code
       = (fun row => if stopped_out cfg mark row then wiped now row else row)
           <$> players (db w) !! code) /\
    trades (db w')
    = trades (db w)
      ++ (stop_out_trade now mark
            <$> filter (fun r => stopped_out cfg mark (snd r) = true)
                  (map_to_list (players (db w)))).
Proof. intros F A cfg now w. apply liquidate_spec. Qed.


(** ** The log only grows *)

Section LogGrows.
Context {F : Type} `{Arith F}.
Local Open Scope num_scope.

Lemma start_game_tables cfg now (w : World F) :
  let d' := db (snd (start_game cfg now w)) in
  players d' = players (db w) /\ trades d' = trades (db w) /\
  candles d' = candles (db w).
Proof.
  unfold start_game. repeat walk_head; repeat split.
Qed.

Lemma init_or_load_tables cfg now0 now u (w : World F) :
  let d' := db (snd (init_or_load cfg now0 now u w)) in
  players d' = players (db w) /\ trades d' = trades (db w).
Proof.
  unfold init_or_load.
  pose proof (seed_history_frame cfg now0 u (db w)) as (Hp & Ht & _).
  destruct (seed_history_if_needed cfg now0 u (db w)) as [[[]|ex] d];
    cbn [snd] in Hp, Ht; [|split; assumption].
  cbv zeta.
  destruct (_get_state_float STATE_POOL_X d) as [x|];
    [destruct (_get_state_float STATE_POOL_Y d) as [y|];
     [destruct (_get_state_float STATE_POOL_K d) as [k|]|]|];
    try (split; assumption).
  destruct (_ && _); [|split; assumption].
  destruct (is_zero x); split; assumption.
Qed.

Lemma market_buy_log cfg now code usd_in (w : World F) :
  let d' := db (snd (market_buy cfg now code usd_in w)) in
  d' = db w \/ exists t, trades d' = trades (db w) ++ [t].
Proof.
  cbv zeta.
  destruct (market_buy_shape cfg now code usd_in w)
    as [->|(_ & [[p ->]|[[p ->]|[t ->]]])]; try (by left).
  right. eexists. apply commit_trade_trades.
Qed.

Lemma market_sell_log cfg now code rich_in (w : World F) :
  let d' := db (snd (market_sell cfg now code rich_in w)) in
  d' = db w \/ exists t, trades d' = trades (db w) ++ [t].
Proof.
  cbv zeta.
  destruct (market_sell_shape cfg now code rich_in w)
    as [->|(_ & [[p ->]|[[p ->]|[t ->]]])]; try (by left).
  right. eexists. apply commit_trade_trades.
Qed.

Lemma fold_liquidate_log cfg now mark rows (d : Db F) :
  trades d `prefix_of`
    trades (fold_left (liquidate_row cfg now mark) rows d).
Proof.
  revert d. induction rows as [|r rows IH]; intros d; cbn [fold_left].
  - reflexivity.
  - etransitivity; [|apply IH].
    unfold liquidate_row. destruct (_ <=? _); [|reflexivity].
    cbn. unfold update_player_wallet.
    destruct (players d !! fst r); cbn; by apply prefix_app_r.
Qed.

Lemma tick_log cfg now_s now (w : World F) :
  trades (db w) `prefix_of` trades (db (_tick cfg now_s now w)).
Proof.
  unfold _tick. cbv zeta.
  destruct (touch_candle_tables cfg now_s (price (engine w)) w) as (_ & Ht & _).
  destruct (_ <? _); cbn [db trades set_state with_market_state].
  - unfold _liquidate_if_needed. cbn [db].
    etransitivity; [|apply fold_liquidate_log]. cbn. by rewrite Ht.
  - by rewrite Ht.
Qed.
End LogGrows.

(** ** C4: who moves the cash *)

Section Wallets.
Context {F : Type} `{Arith F}.
Local Open Scope num_scope.

Lemma tick_players cfg now_s now (w : World F) c :
  players (db (_tick cfg now_s now w)) !! c
  = (fun row => if fltb (of_Z 0) (stopout_equity cfg)
                   && stopped_out cfg (price (engine w)) row
                then wiped now row else row) <$> players (db w) !! c.
Proof.
  unfold _tick. cbv zeta.
  destruct (touch_candle_tables cfg now_s (price (engine w)) w) as (Hp & _ & _).
  destruct (touch_candle_pool cfg now_s (price (engine w)) w)
    as (_ & _ & _ & Hpr & _).
  destruct (fltb (of_Z 0) (stopout_equity cfg)); cbn [andb].
  - match goal with
    | |- context [_liquidate_if_needed ?a ?b ?w2] =>
        destruct (liquidate_spec F _ a b w2) as (_ & _ & _ & Hl & _)
    end.
    rewrite Hl. cbn [engine db players set_state with_market_state].
    rewrite Hp, Hpr. reflexivity.
  - cbn [db players set_state with_market_state]. rewrite Hp.
    by destruct (players (db w) !! c).
Qed.

(** What one call does to the cash of a wallet. *)
Lemma run_op_wallet cfg (o : Op F) (w : World F) code row :
  players (db w) !! code = Some row ->
  exists row',
    players (db (run_op cfg o w)) !! code = Some row' /\
    (cash row' = cash row \/
     (exists now c side amount r,
        o = OpOrder now c side amount /\ strip c = code /\
        fst (market_order cfg now c side amount w) = Returns (Accepted r) /\
        cash row' = r_cash_after r) \/
     (exists now_s now,
        o = OpTick now_s now /\
        fltb (of_Z 0) (stopout_equity cfg) = true /\
        stopped_out cfg (price (engine w)) row = true /\
        cash row' = of_Z 0)).
Proof.
  intros Hrow.
  destruct o as [now0 now u|now|now c nick0|now c side amount|now_s now];
    cbn [run_op].
  - destruct (init_or_load_tables cfg now0 now u w) as (Hp & _).
    exists row. rewrite Hp. split; [exact Hrow|by left].
  - destruct (start_game_tables cfg now w) as (Hp & _).
    exists row. rewrite Hp. split; [exact Hrow|by left].
  - unfold joined, join. cbn [db].
    destruct (negb _); [exists row; split; [exact Hrow|by left]|].
    destruct (has_blank _); [exists row; split; [exact Hrow|by left]|].
    destruct (String.eqb _ _); [exists row; split; [exact Hrow|by left]|].
    cbn [snd]. unfold upsert_player.
    destruct (decide (strip c = code)) as [->|Hne].
    + rewrite Hrow. cbn [players with_players]. rewrite lookup_insert_eq.
      eexists. split; [reflexivity|by left].
    + destruct (players (db w) !! strip c); cbn [players with_players];
        rewrite lookup_insert_ne by exact Hne;
        exists row; (split; [exact Hrow|by left]).
  - destruct (market_order cfg now c side amount w) as [out w'] eqn:Hrun.
    cbn [snd].
    destruct out as [[r|err]|ex].
    + destruct (order_accepted_wallet _ _ _ _ _ _ _ _ Hrun)
        as (row0 & Hrow0 & Hnew & Hother & _).
      destruct (decide (strip c = code)) as [<-|Hne].
      * eexists. split; [exact Hnew|]. right; left.
        exists now, c, side, amount, r. repeat split. by rewrite Hrun.
      * exists row. rewrite (Hother code) by congruence.
        split; [exact Hrow|by left].
    + exists row.
      rewrite (market_order_refused _ _ _ _ _ _ _ _ Hrun) by discriminate.
      split; [exact Hrow|by left].
    + exists row.
      rewrite (market_order_refused _ _ _ _ _ _ _ _ Hrun) by discriminate.
      split; [exact Hrow|by left].
  - rewrite tick_players, Hrow. cbn [fmap option_fmap option_map].
    destruct (fltb (of_Z 0) (stopout_equity cfg)) eqn:Hon; cbn [andb].
    + destruct (stopped_out cfg (price (engine w)) row) eqn:Hout.
      * eexists. split; [reflexivity|]. right; right.
        exists now_s, now. repeat split.
      * exists row. split; [reflexivity|by left].
    + exists row. split; [reflexivity|by left].
Qed.
End Wallets.

(** C4, as the code has it.  In any arithmetic, the doubles of the
    sources included: an accepted BUY writes [cash - usd_in] (the whole
    input, fee included) and an accepted SELL writes [cash + usd_out]
    with [usd_out = usd_out_gross - usd_out_gross * fee_rate] and
    [usd_out_gross = y - k / (x + rich_in)]; no other wallet changes.
    Whatever is called (the loader, [start_game], a join, an order, a
    tick), a wallet stays in the table, and its cash changes only if the
    call is an order of its owner that the engine accepts, or a tick
    with the stop-out on that closes the wallet, which sets its cash to
    0.  In exact arithmetic that [usd_out] is [usd_out_gross * (1 -
    fee_rate)], the BUY lowers the cash of the player and the SELL raises
    it. *)
Theorem cash_flow_law :
  (forall (F : Type) (A : Arith F) cfg now code side amount (w : World F) r w',
     market_order cfg now code side amount w = (Returns (Accepted r), w') ->
     exists row row',
       players (db w) !! strip code = Some row /\
       players (db w') !! strip code = Some row' /\
       (forall other, other <> strip code ->
          players (db w') !! other = players (db w) !! other) /\
       r_cash_after r = cash row' /\
       match side with
       | BUY => cash row' = (cash row - amount)%num
       | SELL =>
           let e := engine w in
           let usd_out_gross :=
             (pool_y e - pool_k e / (pool_x e + amount))%num in
           let usd_out :=
             (usd_out_gross - usd_out_gross * fee_rate cfg)%num in
           r_amount_out r = usd_out /\ cash row' = (cash row + usd_out)%num
       end) /\
  (forall (F : Type) (A : Arith F) cfg (o : Op F) (w : World F) code row,
     players (db w) !! code = Some row ->
     exists row',
       players (db (run_op cfg o w)) !! code = Some row' /\
       (cash row' = cash row \/
        (exists now c side amount r,
           o = OpOrder now c side amount /\ strip c = code /\
           fst (market_order cfg now c side amount w) = Returns (Accepted r) /\
           cash row' = r_cash_after r) \/
        (exists now_s now,
           o = OpTick now_s now /\
           fltb (of_Z 0) (stopout_equity cfg) = true /\
           stopped_out cfg (price (engine w)) row = true /\
           cash row' = of_Z 0))) /\
  (forall cfg now code side amount (w : World Qc) r w',
     market_order cfg now code side amount w = (Returns (Accepted r), w') ->
     exists row row',
       players (db w) !! strip code = Some row /\
       players (db w') !! strip code = Some row' /\
       match side with
       | BUY => cash row' = (cash row - amount)%Qc /\ (cash row' < cash row)%Qc
       | SELL =>
           let e := engine w in
           let usd_out_gross :=
             (pool_y e - pool_k e / (pool_x e + amount))%Qc in
           let usd_out := (usd_out_gross * (1 - fee_rate cfg))%Qc in
           r_amount_out r = usd_out /\
           cash row' = (cash row + usd_out)%Qc /\ (cash row < cash row')%Qc
       end).
Proof.
  split; [|split].
  - intros F A. exact (@cash_flow_any F A).
  - intros F A. exact (@run_op_wallet F A).
  - intros cfg now code side amount w r w' Hrun.
    destruct (cash_flow_exact _ _ _ _ _ _ _ _ Hrun)
      as (row & row' & Hrow & Hrow' & Hside).
    exists row, row'. split; [exact Hrow|]. split; [exact Hrow'|].
    destruct side.
    + destruct Hside as [Hc Hlt]. split; [exact Hc|]. by apply exact_lt.
    + cbv zeta in Hside |- *. destruct Hside as (Ho & Hc & Hlt).
      split; [exact Ho|]. split; [exact Hc|]. by apply exact_lt.
Qed.

(** C4, as the spec has it, fails on the doubles of the sources, in two
    places.  The fee: with [MarketConfig(fee_rate=0.0025)] a first SELL of
    9 RICH is accepted with [usd_out_gross = 895.96814335489762]; the
    sources pay [usd_out_gross - usd_out_gross * fee_rate =
    893.72822299651034], which is not the double [usd_out_gross * (1 -
    fee_rate) = 893.72822299651045], and the cash written is [10000] plus
    the former.  The stop-out: with the module's configuration and
    [stopout_equity = 20000], after the first BUY of ["alice01"] a tick
    closes her wallet; her cash goes from 9000 to 0 under a row of
    [trades] marked SELL, with no order of hers. *)
Lemma cash_flow_is_not_as_stated :
  (let cfg : MarketConfig float := fee_config in
   let w := scene_joined cfg in
   let out := market_sell cfg 1001 "alice01" (of_Z 9) w in
   let gross :=
     (pool_y (engine w) - pool_k (engine w) / (pool_x (engine w) + of_Z 9))%num in
   exists r row',
     fst out = Returns (Accepted r) /\
     players (db (snd out)) !! "alice01" = Some row' /\
     (r_amount_out r =? gross * (of_Z 1 - fee_rate cfg))%num = false /\
     (cash row' =? INITIAL_CASH + gross * (of_Z 1 - fee_rate cfg))%num = false /\
     cash row' = (INITIAL_CASH + (gross - gross * fee_rate cfg))%num) /\
  (let cfg : MarketConfig float := stopout_config in
   let w := scene_bought cfg in
   let w' := run_op cfg (OpTick 1002 1002) w in
   exists row row' t,
     players (db w) !! "alice01" = Some row /\
     players (db w') !! "alice01" = Some row' /\
     cash row = of_Z 9000 /\ cash row' = of_Z 0 /\
     trades (db w') = trades (db w) ++ [t] /\
     t_side t = SELL /\ t_cash_after t = of_Z 0).
Proof.
  cbv zeta. split.
  - eexists _, _.
    split; [vm_compute; reflexivity|].
    split; [vm_compute; reflexivity|].
    split; [vm_compute; reflexivity|].
    split; [vm_compute; reflexivity|].
    vm_compute; reflexivity.
  - eexists _, _, _.
    split; [vm_compute; reflexivity|].
    split; [vm_compute; reflexivity|].
    split; [vm_compute; reflexivity|].
    split; [vm_compute; reflexivity|].
    split; [vm_compute; reflexivity|].
    split; reflexivity.
Qed.

(** ** The statistics cache *)

Section Cache.
Context {F : Type} `{Arith F}.
Local Open Scope num_scope.

Lemma cache_coherent_grow (d d' : Db F) c :
  trades d `prefix_of` trades d' ->
  cache_coherent d c -> cache_coherent d' c.
Proof.
  intros Hpre Hc code id a r p Hlook.
  destruct (Hc code id a r p Hlook) as (pre & Hp & Hid & Hs).
  exists pre. split; [by etransitivity|]. split; [exact Hid|exact Hs].
Qed.

Lemma cache_coherent_same (d d' : Db F) c :
  trades d' = trades d -> cache_coherent d c -> cache_coherent d' c.
Proof. intros E. apply cache_coherent_grow. by rewrite E. Qed.

Lemma cache_coherent_clock (d : Db F) c ts :
  cache_coherent d c ->
  cache_coherent d {| cache := cache c; cache_ts := ts |}.
Proof. intros Hc. exact Hc. Qed.

(** An entry whose key is the player's last [id] holds the replay of the
    whole log of the player. *)
Lemma cache_entry_current (d : Db F) c code id a r p :
  cache_coherent d c ->
  cache c !! code = Some (id, a, r, p) ->
  id = _last_trade_id code d ->
  (a, r, p) = stats_triple (replay (_list_trades_asc code d)).
Proof.
  intros Hc Hlook Hid.
  destruct (Hc code id a r p Hlook) as (pre & [suf Hsuf] & Hid' & ->).
  f_equal. f_equal. unfold _list_trades_asc. cbn [trades with_trades].
  rewrite Hsuf, trades_of_app.
  assert (Hnil : trades_of code (1 + Z.of_nat (length pre)) suf = []).
  { destruct (trades_of code (1 + Z.of_nat (length pre)) suf)
      as [|[i t] rest] eqn:E; [reflexivity|exfalso].
    pose proof (trades_of_bound code (1 + Z.of_nat (length pre)) suf) as Hb.
    rewrite E in Hb. inversion Hb as [|? ? Hi _]; subst. cbn in Hi.
    pose proof (last_trade_id_bound code (with_trades d pre)) as Hm.
    cbn [trades with_trades] in Hm.
    assert (Hge : (i <= _last_trade_id code d)%Z).
    { unfold _last_trade_id. rewrite Hsuf, trades_of_app, E.
      rewrite map_app, fold_left_app. cbn.
      etransitivity; [|apply fold_max_ge]. lia. }
    lia. }
  rewrite Hnil, app_nil_r. reflexivity.
Qed.

(** A call of the statistics returns the replay of the player's log and
    keeps the cache coherent. *)
Lemma compute_stats_coherent t code (d : Db F) c :
  cache_coherent d c ->
  fst (_compute_stats_from_trades t code d c)
  = stats_triple (replay (_list_trades_asc code d)) /\
  cache_coherent d (snd (_compute_stats_from_trades t code d c)).
Proof.
  intros Hc. unfold _compute_stats_from_trades. cbv zeta.
  destruct (cache c !! code) as [[[[id a] r] p]|] eqn:Hlook.
  - destruct (_ && _) eqn:Hhit.
    + apply andb_true_iff in Hhit as [_ Hid]. apply Z.eqb_eq in Hid.
      cbn [fst snd]. split; [|exact Hc].
      eapply cache_entry_current; eassumption.
    + cbn [fst snd]. split; [reflexivity|].
      intros code' id' a' r' p' Hl. cbn [cache] in Hl.
      destruct (decide (code' = code)) as [->|Hne].
      * rewrite lookup_insert_eq in Hl. injection Hl as <- <- <- <-.
        exists (trades d). repeat split; reflexivity.
      * rewrite lookup_insert_ne in Hl by congruence. by apply Hc.
  - cbn [fst snd]. split; [reflexivity|].
    intros code' id' a' r' p' Hl. cbn [cache] in Hl.
    destruct (decide (code' = code)) as [->|Hne].
    + rewrite lookup_insert_eq in Hl. injection Hl as <- <- <- <-.
      exists (trades d). repeat split; reflexivity.
    + rewrite lookup_insert_ne in Hl by congruence. by apply Hc.
Qed.

Lemma trade_coherent cfg now t code side usd (w : World F) c :
  cache_coherent (db w) c ->
  cache_coherent (db (snd (fst (trade cfg now t code side usd w c))))
    (snd (trade cfg now t code side usd w c)).
Proof.
  intros Hc. unfold trade, get_player.
  destruct (players (db w) !! strip code); [|exact Hc].
  destruct (engine_call cfg now (strip code) side usd w)
    as [[[r|err]|ex] w1] eqn:Hcall; cbn [fst snd].
  - destruct (engine_call_order cfg now (strip code) side usd w)
      as [Hz|(amount & Ho & _)]; [congruence|].
    rewrite Ho in Hcall.
    destruct (order_accepted_commit _ _ _ _ _ _ _ _ Hcall)
      as (_ & _ & _ & _ & e1 & Hw & _).
    assert (Hc1 : cache_coherent (db w1) c).
    { revert Hc. apply cache_coherent_grow.
      rewrite Hw, commit_trade_trades. by apply prefix_app_r. }
    destruct (players (db w1) !! strip code); cbn [fst snd]; [|exact Hc1].
    match goal with
    | |- context [_compute_stats_from_trades t (strip code) (db w1) ?c1] =>
        pose proof (compute_stats_coherent t (strip code) (db w1) c1
                      (cache_coherent_clock _ _ _ Hc1)) as [_ Hout];
        destruct (_compute_stats_from_trades t (strip code) (db w1) c1)
          as [[[avg real] pc] c2]
    end.
    destruct (JSONResponse _); exact Hout.
  - destruct (engine_call_order cfg now (strip code) side usd w)
      as [Hz|(amount & Ho & _)]; [congruence|].
    rewrite Ho in Hcall. revert Hc. apply cache_coherent_same.
    eapply (f_equal trades), market_order_refused; [exact Hcall|discriminate].
  - destruct (engine_call_order cfg now (strip code) side usd w)
      as [Hz|(amount & Ho & _)].
    + rewrite Hz in Hcall. by injection Hcall as <- <-.
    + rewrite Ho in Hcall. revert Hc. apply cache_coherent_same.
      eapply (f_equal trades), market_order_refused; [exact Hcall|discriminate].
Qed.

Lemma served_coherent cfg (w : World F) c :
  served cfg w c -> cache_coherent (db w) c.
Proof.
  induction 1 as [|w c now0 now u _ IH|w c now _ IH|w c now code nick0 _ IH
                  |w c now code usd_in _ IH|w c now code rich_in _ IH
                  |w c now_s now _ IH|w c now t code side usd _ IH
                  |w c t code _ IH].
  - intros code id a r p Hl. cbn in Hl. by rewrite lookup_empty in Hl.
  - revert IH. apply cache_coherent_same.
    by destruct (init_or_load_tables cfg now0 now u w) as (_ & ->).
  - revert IH. apply cache_coherent_same.
    by destruct (start_game_tables cfg now w) as (_ & -> & _).
  - revert IH. apply cache_coherent_same. unfold joined, join. cbn [db].
    destruct (negb _); [reflexivity|].
    destruct (has_blank _); [reflexivity|].
    destruct (String.eqb _ _); [reflexivity|]. cbn [snd].
    by destruct (upsert_player_tables (strip code) (strip nick0)
                   (INITIAL_CASH : F) now (db w)) as (-> & _).
  - revert IH. apply cache_coherent_grow.
    destruct (market_buy_log cfg now code usd_in w) as [->|[t ->]];
      [reflexivity|by apply prefix_app_r].
  - revert IH. apply cache_coherent_grow.
    destruct (market_sell_log cfg now code rich_in w) as [->|[t ->]];
      [reflexivity|by apply prefix_app_r].
  - revert IH. apply cache_coherent_grow. apply tick_log.
  - by apply trade_coherent.
  - by apply compute_stats_coherent.
Qed.
End Cache.

(** The statistics cache is transparent.  In every state the service
    reaches, whatever the clocks, [_compute_stats_from_trades] returns
    the replay of the player's whole log, cache hit or not: the log only
    grows, so an entry keyed by the player's last [id] is never stale. *)
Theorem stats_cache_is_transparent :
  forall (F : Type) (A : Arith F) cfg (w : World F) (c : StatsCache F),
    served cfg w c ->
    forall t code,
      fst (_compute_stats_from_trades t code (db w) c)
      = stats_triple (replay (_list_trades_asc code (db w))).
Proof.
  intros F A cfg w c Hs t code.
  apply compute_stats_coherent. by apply (served_coherent cfg).
Qed.

(** [GET /api/me] right after a trade repeats the trade's answer.  In a
    state the service reaches, when [POST /api/trade] answers 200 with a
    [me] block, [GET /api/me] for the same player on the state the trade
    left returns that very block, at any clock of the statistics. *)
Theorem me_repeats_the_trade_answer :
  forall (F : Type) (A : Arith F) cfg now t code side usd (w : World F)
         (c : StatsCache F) r me w' c',
    served cfg w c ->
    trade cfg now t code side usd w c = (Http200 r me, w', c') ->
    forall t', exists nick0 pos_calc,
      fst (api_me t' (strip code) w' c')
      = Some (strip code, nick0, me, pos_calc).
Proof.
  intros F A cfg now t code side usd w c r me w' c' Hs Htrade t'.
  pose proof (served_coherent cfg w c Hs) as Hc.
  pose proof (trade_coherent cfg now t code side usd w c Hc) as Hc'.
  rewrite Htrade in Hc'. cbn [fst snd] in Hc'.
  unfold trade, get_player in Htrade.
  destruct (players (db w) !! strip code); [|discriminate Htrade].
  destruct (engine_call cfg now (strip code) side usd w)
    as [[[r1|err]|ex] w1] eqn:Hcall; try discriminate Htrade.
  destruct (engine_call_order cfg now (strip code) side usd w)
    as [Hz|(amount & Ho & _)]; [congruence|].
  rewrite Ho in Hcall.
  destruct (order_accepted_commit _ _ _ _ _ _ _ _ Hcall)
    as (_ & _ & _ & _ & e1 & Hw & _).
  assert (Hc1 : cache_coherent (db w1) c).
  { revert Hc. apply cache_coherent_grow.
    rewrite Hw, commit_trade_trades. by apply prefix_app_r. }
  destruct (players (db w1) !! strip code) as [p2|] eqn:Hp2;
    [|discriminate Htrade].
  match type of Htrade with
  | context [_compute_stats_from_trades t (strip code) (db w1) ?c1] =>
      pose proof (compute_stats_coherent t (strip code) (db w1) c1
                    (cache_coherent_clock _ _ _ Hc1)) as [Hfst _];
      destruct (_compute_stats_from_trades t (strip code) (db w1) c1)
        as [[[avg real] pc] c2]
  end.
  cbn [fst] in Hfst.
  destruct (JSONResponse _); [|discriminate Htrade].
  injection Htrade as <- <- <- <-.
  unfold api_me, get_player, current_price. rewrite Hp2.
  pose proof (compute_stats_coherent t' (strip code) (db w1) c2 Hc')
    as [Hfst' _].
  destruct (_compute_stats_from_trades t' (strip code) (db w1) c2)
    as [[[avg' real'] pc'] c3].
  cbn [fst] in Hfst'. rewrite <- Hfst in Hfst'. injection Hfst' as -> -> ->.
  cbn [fst]. eexists _, _. reflexivity.
Qed.

(** ** The seeder *)

Section Seeder.
Context {F : Type} `{Arith F}.
Local Open Scope num_scope.

(** [earliest_ts] is the least key of the table. *)
Lemma earliest_ts_spec (m : gmap Z (Candle F)) :
  match earliest_ts m with
  | None => m = ∅
  | Some k => is_Some (m !! k) /\ forall k', is_Some (m !! k') -> (k <= k')%Z
  end.
Proof.
  unfold earliest_ts.
  apply (map_fold_weak_ind
           (fun (r : option Z) (m : gmap Z (Candle F)) =>
              match r with
              | None => m = ∅
              | Some k => is_Some (m !! k) /\
                          forall k', is_Some (m !! k') -> (k <= k')%Z
              end)).
  - reflexivity.
  - intros i x m' r Hi Hr. destruct r as [mn|].
    + destruct Hr as [Hmn Hle]. split.
      * destruct (Z.min_spec i mn) as [[_ ->]|[_ ->]].
        -- rewrite lookup_insert_eq. by eexists.
        -- rewrite lookup_insert_ne; [exact Hmn|].
           intros ->. rewrite Hi in Hmn. by destruct Hmn.
      * intros k' Hk'. destruct (decide (k' = i)) as [->|Hne]; [lia|].
        rewrite lookup_insert_ne in Hk' by congruence.
        specialize (Hle k' Hk'). lia.
    + subst m'. split.
      * rewrite lookup_insert_eq. by eexists.
      * intros k' Hk'. destruct (decide (k' = i)) as [->|Hne]; [lia|].
        rewrite lookup_insert_ne, lookup_empty in Hk' by congruence.
        by destruct Hk'.
Qed.

(** The loop writes at [ts], [ts + seed_cs], ... and nowhere else. *)
Lemma seed_loop_candles cfg u seed_cs n i ts last_close (d : Db F) k :
  (1 <= seed_cs)%Z ->
  (k < ts \/ ts + (Z.of_nat n - 1) * seed_cs < k)%Z ->
  candles (snd (seed_loop cfg u seed_cs n i ts last_close d)) !! k
  = candles d !! k.
Proof.
  intros Hcs. revert i ts last_close d.
  induction n as [|n IH]; intros i ts last_close d Hk; cbn [seed_loop].
  - reflexivity.
  - destruct (is_zero (start_price cfg)); [reflexivity|]. cbv zeta.
    rewrite IH by nia. cbn [upsert_candle candles with_candles].
    apply lookup_insert_ne. nia.
Qed.

Lemma seed_loop_first cfg u seed_cs n i ts last_close (d : Db F) :
  (1 <= seed_cs)%Z ->
  fst (seed_loop cfg u seed_cs (S n) i ts last_close d) = Returns tt ->
  is_Some (candles (snd (seed_loop cfg u seed_cs (S n) i ts last_close d)) !! ts).
Proof.
  intros Hcs. cbn [seed_loop].
  destruct (is_zero (start_price cfg)); [discriminate|]. cbv zeta. intros _.
  rewrite seed_loop_candles by lia.
  cbn [upsert_candle candles with_candles]. rewrite lookup_insert_eq.
  by eexists.
Qed.

Lemma range_len_last (a b s : Z) :
  (1 <= s)%Z ->
  (a + (Z.of_nat (range_len a b s) - 1) * s < b \/ range_len a b s = O)%Z.
Proof.
  intros Hs. unfold range_len.
  destruct (Z_lt_le_dec a b) as [Hab|Hab].
  - left. pose proof (Z.mul_div_le (b - a + s - 1) s ltac:(lia)) as Hd.
    assert (0 <= (b - a + s - 1) / s)%Z by (apply Z.div_pos; lia).
    rewrite Z2Nat.id by assumption. nia.
  - right. assert ((b - a + s - 1) / s <= 0)%Z.
    { apply Z.lt_succ_r. apply Z.div_lt_upper_bound; lia. }
    lia.
Qed.

Lemma range_len_pos (a b s : Z) :
  (1 <= s)%Z -> (a < b)%Z -> exists n, range_len a b s = S n.
Proof.
  intros Hs Hab. unfold range_len.
  assert (1 <= (b - a + s - 1) / s)%Z.
  { apply Z.div_le_lower_bound; lia. }
  destruct (Z.to_nat _) eqn:E; [lia|by eexists].
Qed.
End Seeder.

(** The seeder keeps what is there.  Whatever the clock and the draws,
    and whether it returns or raises, [seed_history_if_needed] leaves
    every candle already in the table as it is, writes to neither
    [players] nor [trades], and touches no key of [market_state] but its
    own tag. *)
Theorem seeder_keeps_existing_candles :
  forall (F : Type) (A : Arith F) cfg now u (d : Db F),
    let d' := snd (seed_history_if_needed cfg now u d) in
    (forall ts row, candles d !! ts = Some row -> candles d' !! ts = Some row) /\
    players d' = players d /\
    trades d' = trades d /\
    (forall k, k <> STATE_SEEDED_TAG -> get_state k d' = get_state k d).
Proof.
  intros F A cfg now u d d'.
  destruct (seed_history_frame cfg now u d) as (Hp & Ht & Hs).
  split; [|repeat split; assumption].
  intros ts row Hrow. unfold d', seed_history_if_needed.
  destruct (negb (seed_enabled cfg)); [exact Hrow|]. cbv zeta.
  pose proof (earliest_ts_spec (candles d)) as He.
  destruct (earliest_ts (candles d)) as [e|].
  2:{ rewrite He in Hrow. by rewrite lookup_empty in Hrow. }
  destruct He as [_ Hle].
  assert (Hts : (e <= ts)%Z) by (apply Hle; by eexists).
  set (seed_cs := Z.max 1 (seed_candle_seconds cfg)).
  set (t0 := ((now - seed_seconds cfg) / seed_cs * seed_cs)%Z).
  destruct (e <=? t0)%Z eqn:Hcov; [exact Hrow|]. apply Z.leb_gt in Hcov.
  match goal with
  | |- context [seed_loop ?a ?b ?c ?n ?i ?t ?lc ?dd] =>
      pose proof (seed_loop_candles a b c n i t lc dd ts) as Hloop;
      destruct (seed_loop a b c n i t lc dd) as [[[]|ex] d1]
  end; cbn [snd] in *; cbn [set_state with_market_state candles];
    (rewrite Hloop; [exact Hrow|unfold seed_cs; lia|]);
    (destruct (range_len_last t0 e seed_cs) as [Hl| ->];
       [unfold seed_cs; lia|right; lia|right; unfold seed_cs; lia]).
Qed.

(** Seeding again writes nothing.  Once a run of the seeder has
    returned and the table holds a candle, a run at the same or a later
    clock, with any draws, returns the database it was given. *)
Theorem seeding_again_writes_nothing :
  forall (F : Type) (A : Arith F) cfg now now' u u' (d d1 : Db F),
    seed_history_if_needed cfg now u d = (Returns tt, d1) ->
    (now <= now')%Z ->
    candles d1 <> ∅ ->
    seed_history_if_needed cfg now' u' d1 = (Returns tt, d1).
Proof.
  intros F A cfg now now' u u' d d1 Hrun Hnow Hne.
  unfold seed_history_if_needed in *.
  destruct (negb (seed_enabled cfg)); [congruence|]. cbv zeta in *.
  set (seed_cs := Z.max 1 (seed_candle_seconds cfg)) in *.
  set (t0 := ((now - seed_seconds cfg) / seed_cs * seed_cs)%Z) in *.
  set (t0' := ((now' - seed_seconds cfg) / seed_cs * seed_cs)%Z).
  assert (Hcs : (1 <= seed_cs)%Z) by (unfold seed_cs; lia).
  assert (Ht0 : (t0 <= t0')%Z).
  { unfold t0, t0'. apply Z.mul_le_mono_nonneg_r; [lia|].
    apply Z.div_le_mono; lia. }
  assert (Hd1 : exists k, is_Some (candles d1 !! k) /\ (k <= t0)%Z /\
                  get_state STATE_SEEDED_TAG d1 = Some (_seed_tag cfg)).
  { pose proof (earliest_ts_spec (candles d)) as He.
    destruct (earliest_ts (candles d)) as [e|] eqn:Ee.
    - destruct He as [Hin Hle].
      destruct (e <=? t0)%Z eqn:Hcov.
      + injection Hrun as <-. exists e. split; [exact Hin|].
        apply Z.leb_le in Hcov. split; [lia|].
        by rewrite get_state_set_state.
      + apply Z.leb_gt in Hcov.
        destruct (range_len_pos t0 e seed_cs Hcs ltac:(lia)) as [n Hn].
        rewrite Hn in Hrun.
        match type of Hrun with
        | context [seed_loop ?a ?b ?c (S ?m) ?i ?t ?lc ?dd] =>
            pose proof (seed_loop_first a b c m i t lc dd Hcs) as Hfirst;
            destruct (seed_loop a b c (S m) i t lc dd) as [[[]|ex] d2]
        end; cbv beta iota in Hrun; [|discriminate Hrun].
        injection Hrun as <-. exists t0.
        split; [exact (Hfirst eq_refl)|]. split; [lia|].
        by rewrite get_state_set_state.
    - destruct (Z_lt_le_dec t0 (now / seed_cs * seed_cs)) as [Hlt|Hge].
      + destruct (range_len_pos t0 _ seed_cs Hcs Hlt) as [n Hn].
        rewrite Hn in Hrun.
        match type of Hrun with
        | context [seed_loop ?a ?b ?c (S ?m) ?i ?t ?lc ?dd] =>
            pose proof (seed_loop_first a b c m i t lc dd Hcs) as Hfirst;
            destruct (seed_loop a b c (S m) i t lc dd) as [[[]|ex] d2]
        end; cbv beta iota in Hrun; [|discriminate Hrun].
        injection Hrun as <-. exists t0.
        split; [exact (Hfirst eq_refl)|]. split; [lia|].
        by rewrite get_state_set_state.
      + exfalso. destruct (range_len_last t0 (now / seed_cs * seed_cs) seed_cs Hcs)
          as [Hl|Hz].
        * destruct (range_len _ _ _); [|nia].
          cbn in Hrun. injection Hrun as <-. apply Hne. cbn. exact He.
        * rewrite Hz in Hrun. cbn in Hrun. injection Hrun as <-.
          apply Hne. cbn. exact He. }
  destruct Hd1 as (k & Hk & Hkt & Htag).
  pose proof (earliest_ts_spec (candles d1)) as He1.
  destruct (earliest_ts (candles d1)) as [e1|]; [|by destruct (Hne He1)].
  destruct He1 as [_ Hle1]. specialize (Hle1 k Hk).
  replace (e1 <=? t0')%Z with true by lia.
  f_equal. unfold set_state, get_state in *. destruct d1 as [pl tr cs ms].
  cbn in *. unfold with_market_state. cbn. f_equal.
  apply insert_id. exact Htag.
Qed.

(** ** The candles endpoint *)

Section CandlesEndpoint.
Context {F : Type} `{Arith F}.

Lemma fmap_rev {A B : Type} (f : A -> B) (l : list A) :
  rev (f <$> l) = f <$> rev l.
Proof.
  induction l as [|a l IH]; [reflexivity|].
  cbn [rev]. rewrite fmap_app, <- IH. reflexivity.
Qed.

Lemma agg_fold_last tf (rest : list (Z * Candle F)) out cur r :
  last rest = Some r ->
  let st := fold_left (agg_step tf) rest (out, cur) in
  bar_time (snd st) = bucket_of tf (fst r) /\ snd (snd st) = c_close (snd r).
Proof.
  destruct rest as [|q rest _] using rev_ind; [discriminate|].
  rewrite last_snoc. intros [= ->]. cbv zeta. rewrite fold_left_app.
  cbn [fold_left].
  destruct (fold_left (agg_step tf) rest (out, cur)) as [o [[[[cb oo] h] l] c]].
  unfold agg_step. destruct (negb _) eqn:E; cbn.
  - split; reflexivity.
  - apply negb_false_iff, Z.eqb_eq in E. split; [by rewrite E|reflexivity].
Qed.

(** The last bar is made from the last row: it carries its bucket and
    its close. *)
Lemma agg_bars_last tf (cs : list (Z * Candle F)) r :
  last cs = Some r ->
  exists b, last (agg_bars tf cs) = Some b /\
            bar_time b = bucket_of tf (fst r) /\ snd b = c_close (snd r).
Proof.
  destruct cs as [|r0 rest]; [discriminate|]. intros Hlast.
  unfold agg_bars. rewrite last_snoc. eexists. split; [reflexivity|].
  destruct rest as [|q rest'].
  - injection Hlast as <-. split; reflexivity.
  - apply agg_fold_last. exact Hlast.
Qed.

Lemma agg_bars_length tf (cs : list (Z * Candle F)) :
  (length (agg_bars tf cs) <= length cs)%nat.
Proof.
  destruct cs as [|r0 rest]; [reflexivity|].
  unfold agg_bars, agg_run. rewrite length_app. cbn [length].
  enough (forall st, length (fst (fold_left (agg_step tf) rest st))
                     <= length (fst st) + length rest)%nat as Hgen.
  { specialize (Hgen ([], (bucket_of tf (fst r0), c_open (snd r0),
                            c_high (snd r0), c_low (snd r0), c_close (snd r0)))).
    cbn in Hgen. lia. }
  induction rest as [|q rest IH]; intros st; cbn [fold_left length]; [lia|].
  etransitivity; [apply IH|].
  destruct st as [o [[[[cb oo] h] l] c]]. unfold agg_step.
  destruct (negb _); cbn; rewrite ?length_app; cbn; lia.
Qed.

(** The rows the endpoint aggregates end with the live candle. *)
Lemma live_row_last (cs : list (Z * Candle F)) (live : Z * Candle F) :
  exists cs1,
    last cs1 = Some live /\
    (forall r, r ∈ cs1 -> r ∈ cs \/ r = live) /\
    match last (raw_row <$> cs) with
    | None => Returns ((raw_row <$> cs) ++ [raw_row live])
    | Some r =>
        ts ← getitem r "ts" ≫= py_int;
        Returns (if negb (ts =? fst live)%Z
                 then (raw_row <$> cs) ++ [raw_row live]
                 else <[pred (length (raw_row <$> cs)) := raw_row live]>
                        (raw_row <$> cs))
    end = Returns (raw_row <$> cs1).
Proof.
  destruct cs as [|q cs _] using rev_ind.
  - exists [live]. split; [reflexivity|]. split; [|reflexivity].
    intros r Hr. apply list_elem_of_singleton in Hr. by right.
  - rewrite fmap_app. change (raw_row <$> [q]) with [raw_row q].
    rewrite last_snoc.
    assert (Hts : getitem (raw_row q) "ts" ≫= py_int = Returns (fst q))
      by (destruct q as [ts []]; reflexivity).
    rewrite Hts. cbn [mbind Outcome_bind].
    destruct (negb _).
    + exists ((cs ++ [q]) ++ [live]). rewrite last_snoc. split; [reflexivity|].
      split.
      { intros r Hr. apply elem_of_app in Hr as [Hr|Hr]; [by left|].
        apply list_elem_of_singleton in Hr. by right. }
      by rewrite !fmap_app.
    + exists (cs ++ [live]). rewrite last_snoc. split; [reflexivity|].
      split.
      { intros r Hr. apply elem_of_app in Hr as [Hr|Hr].
        - left. apply elem_of_app. by left.
        - apply list_elem_of_singleton in Hr. by right. }
      rewrite length_app, length_fmap. cbn [length].
      replace (pred (length cs + 1)) with (length (raw_row <$> cs) + 0)%nat
        by (rewrite length_fmap; lia).
      rewrite insert_app_r. cbn. by rewrite fmap_app.
Qed.

(** The floats [JSONResponse] meets in a list of bars. *)
Lemma row_floats_out_row (f : F -> bool) (b : Bar F) :
  forallb f (row_floats (out_row b))
  = (let '(_, o, h, l, c) := b in f o && f h && f l && f c).
Proof.
  destruct b as [[[[t o] h] l] c]. vm_compute.
  destruct (f o), (f h), (f l), (f c); reflexivity.
Qed.

Lemma rows_floats_bars (bars : list (Bar F)) :
  forallb finite (rows_floats (out_row <$> bars)) = forallb bar_finite bars.
Proof.
  induction bars as [|b bars IH]; [reflexivity|].
  change (rows_floats (out_row <$> b :: bars))
    with (row_floats (out_row b) ++ rows_floats (out_row <$> bars)).
  rewrite forallb_app, IH, row_floats_out_row. reflexivity.
Qed.

Lemma JSONResponse_bars (bars : list (Bar F)) :
  JSONResponse (rows_floats (out_row <$> bars))
  = if forallb bar_finite bars then Returns tt else Raises ValueError.
Proof. unfold JSONResponse. by rewrite rows_floats_bars. Qed.
End CandlesEndpoint.

(** [GET /api/candles] ends with the live candle, and fails only in
    [JSONResponse].  Whatever [limit] and [tf] are asked and whatever the
    table holds, the handler builds at least one bar and at most [limit]
    bars, [limit] clamped to 10..2000; the last bar sits at the bucket of
    the engine's live candle, [tf] clamped to 1..86400, and closes at the
    close of the live candle.  These bars are the answer when all their
    numbers are finite; otherwise [JSONResponse] raises [ValueError] and
    the answer is a 500. *)
Theorem api_candles_ends_with_the_live_candle :
  forall (F : Type) (A : Arith F) limit tf (w : World F),
    let lim := Z.max 10 (Z.min limit 2000) in
    let tf' := Z.max 1 (Z.min tf (3600 * 24)) in
    exists bars last_bar,
      api_candles limit tf w
      = (if forallb bar_finite bars then Returns (out_row <$> bars)
         else Raises ValueError) /\
      last bars = Some last_bar /\
      (1 <= length bars <= Z.to_nat lim)%nat /\
      bar_time last_bar = bucket_of tf' (candle_ts (engine w)) /\
      snd last_bar = candle_c (engine w).
Proof.
  intros F A limit tf w lim tf'. unfold api_candles. cbv zeta.
  fold lim. fold tf'.
  set (live := snap_candle (snapshot (engine w))).
  unfold _last_candles_raw. rewrite fmap_rev.
  set (cs := rev (sql_limit (Z.max 500 (Z.min (lim * tf') 60000))
                    (rev (candles_asc (db w))))).
  destruct (live_row_last cs live) as (cs1 & Hlast & _ & ->).
  cbn [mbind Outcome_bind]. rewrite aggregate_typed.
  replace (Z.max 1 tf') with tf' by (unfold tf'; lia).
  cbn [mbind Outcome_bind].
  destruct (agg_bars_last tf' cs1 live Hlast) as (b & Hb & Ht & Hc).
  set (bars := agg_bars tf' cs1) in *.
  assert (Hlen : (1 <= length bars)%nat).
  { destruct bars; [discriminate Hb|cbn; lia]. }
  rewrite length_fmap.
  destruct (lim <? Z.of_nat (length bars))%Z eqn:Hcut.
  - exists (drop (length bars - Z.to_nat lim) bars), b.
    rewrite <- fmap_drop, JSONResponse_bars.
    split; [by destruct (forallb _ _)|].
    apply Z.ltb_lt in Hcut.
    split.
    { rewrite <- (take_drop (length bars - Z.to_nat lim) bars) in Hb.
      rewrite last_app in Hb.
      destruct (last (drop _ bars)) eqn:E; [exact Hb|].
      apply last_None in E. apply (f_equal length) in E.
      rewrite length_drop in E. cbn in E. unfold lim in *. lia. }
    rewrite length_drop. unfold lim in *. repeat split; try assumption; lia.
  - exists bars, b. apply Z.ltb_ge in Hcut. rewrite JSONResponse_bars.
    split; [by destruct (forallb _ _)|].
    repeat split; try assumption. lia.
Qed.

(** ** Aggregation of rows that may not read *)

Section AggregateErrors.
Context {F : Type} `{Arith F}.

Lemma agg_loop_raises tf pre (r : gmap string (Val F)) post e cur out :
  Forall (fun q => exists b, read_row q = Returns b) pre ->
  read_row r = Raises e ->
  agg_loop tf (pre ++ r :: post) cur out = Raises e.
Proof.
  intros Hpre Hr. revert cur out.
  induction Hpre as [|q pre [b Hq] _ IH]; intros cur out; cbn [app agg_loop].
  - by rewrite Hr.
  - rewrite Hq. destruct b as [[[[ts ro] rh] rl] rc].
    destruct cur as [[[[[cb o] h] l] c]|]; [destruct (negb _)|]; apply IH.
Qed.

Lemma agg_loop_returns tf raw cur (out : list (gmap string (Val F))) :
  Forall (fun q => exists b, read_row q = Returns b) raw ->
  Forall (fun q => exists b, q = out_row b) out ->
  exists res,
    agg_loop tf raw cur out = Returns res /\
    Forall (fun q => exists b, q = out_row b) res /\
    (length res <= length out + length raw
                   + match cur with Some _ => 1 | None => 0 end)%nat /\
    (cur <> None -> res <> []).
Proof.
  intros Hraw. revert cur out.
  induction Hraw as [|q raw [b Hq] _ IH]; intros cur out Hout; cbn [agg_loop].
  - destruct cur as [b|].
    + eexists. split; [reflexivity|]. split; [|split].
      * apply Forall_app. split; [exact Hout|]. constructor; [by eexists|constructor].
      * rewrite length_app. cbn. lia.
      * intros _. by destruct out.
    + eexists. split; [reflexivity|]. split; [exact Hout|]. split; [cbn; lia|].
      congruence.
  - rewrite Hq. destruct b as [[[[ts ro] rh] rl] rc].
    destruct cur as [[[[[cb o] h] l] c]|]; [destruct (negb _)|].
    + destruct (IH (Some (ts / tf * tf, ro, rh, rl, rc)%Z)
                  (out ++ [out_row (cb, o, h, l, c)])) as (res & -> & Hres & Hlen & Hne).
      { apply Forall_app. split; [exact Hout|]. constructor; [by eexists|constructor]. }
      exists res. rewrite length_app in Hlen. cbn in *.
      repeat split; try assumption; [lia|]. intros _. by apply Hne.
    + destruct (IH (Some (cb, o, pymax h rh, pymin l rl, rc)) out Hout)
        as (res & -> & Hres & Hlen & Hne).
      exists res. cbn in *. repeat split; try assumption; [lia|].
      intros _. by apply Hne.
    + destruct (IH (Some (ts / tf * tf, ro, rh, rl, rc)%Z) out Hout)
        as (res & -> & Hres & Hlen & Hne).
      exists res. cbn in *. repeat split; try assumption; [lia|].
      intros _. by apply Hne.
Qed.

Lemma read_out_row (b : Bar F) : read_row (out_row b) = Raises (KeyError "ts").
Proof. destruct b as [[[[t o] h] l] c]. reflexivity. Qed.

Lemma read_row_no_ts (r : gmap string (Val F)) :
  r !! "ts" = None -> read_row r = Raises (KeyError "ts").
Proof. intros Hr. unfold read_row, getitem. rewrite Hr. reflexivity. Qed.
End AggregateErrors.

(** [_aggregate_candles] fails fast and only on a row it cannot read.
    When every row reads, it returns, with at most one bar per row and
    at least one bar for a list that is not empty.  Otherwise the
    exception is that of the first row that does not read, whatever
    comes after it; a row with no key [ts] raises [KeyError('ts')]. *)
Theorem aggregate_raises_the_first_error :
  forall (F : Type) (A : Arith F) (tf : Z),
    let reads := fun q : gmap string (Val F) =>
                   exists b, read_row q = Returns b in
    (forall raw, Forall reads raw ->
       exists out, _aggregate_candles raw tf = Returns out /\
                   (length out <= length raw)%nat /\
                   (raw <> [] -> out <> [])) /\
    (forall pre r post e,
       Forall reads pre -> read_row r = Raises e ->
       _aggregate_candles (pre ++ r :: post) tf = Raises e) /\
    (forall r : gmap string (Val F),
       r !! "ts" = None -> read_row r = Raises (KeyError "ts")).
Proof.
  intros F A tf reads. split; [|split].
  - intros raw Hraw. destruct raw as [|q raw].
    + exists []. split; [reflexivity|]. split; [cbn; lia|]. intros Hn; exact Hn.
    + unfold _aggregate_candles.
      inversion Hraw as [|? ? [b Hq] Hrest]; subst.
      cbn [agg_loop]. rewrite Hq. destruct b as [[[[ts ro] rh] rl] rc].
      destruct (agg_loop_returns (Z.max 1 tf) raw
                  (Some ((ts / Z.max 1 tf * Z.max 1 tf)%Z, ro, rh, rl, rc)) []
                  Hrest (List.Forall_nil _)) as (res & -> & _ & Hlen & Hne).
      exists res. cbn in *. repeat split; [lia|]. intros _. by apply Hne.
  - intros pre r post e Hpre Hr. unfold _aggregate_candles.
    destruct (pre ++ r :: post) eqn:E; [by destruct pre|].
    rewrite <- E. by apply agg_loop_raises.
  - apply read_row_no_ts.
Qed.

(** An answer of [_aggregate_candles] is no input for it: the rows it
    returns are keyed [time], so feeding any answer that is not empty
    back, at any [tf], raises [KeyError('ts')]. *)
Theorem aggregate_output_cannot_be_fed_back :
  forall (F : Type) (A : Arith F) (raw out : list (gmap string (Val F)))
         (tf tf' : Z),
    _aggregate_candles raw tf = Returns out ->
    out <> [] ->
    _aggregate_candles out tf' = Raises (KeyError "ts").
Proof.
  intros F A raw out tf tf' Hrun Hne.
  assert (Hout : Forall (fun q => exists b : Bar F, q = out_row b) out).
  { unfold _aggregate_candles in Hrun. destruct raw as [|q raw].
    - injection Hrun as <-. constructor.
    - revert Hrun. generalize (q :: raw) as rows.
      generalize (@None (Bar F)) as cur.
      assert (Hnil : Forall (fun q => exists b : Bar F, q = out_row b) [])
        by constructor.
      revert Hnil. generalize (@nil (gmap string (Val F))) as acc.
      intros acc Hacc cur rows. revert acc Hacc cur.
      induction rows as [|r rows IH]; intros acc Hacc cur; cbn [agg_loop].
      + intros [= <-]. destruct cur; [|exact Hacc].
        apply Forall_app. split; [exact Hacc|].
        constructor; [by eexists|constructor].
      + destruct (read_row r) as [[[[[ts ro] rh] rl] rc]|]; [|discriminate].
        destruct cur as [[[[[cb o] h] l] c]|]; [destruct (negb _)|];
          apply IH; try exact Hacc.
        apply Forall_app. split; [exact Hacc|].
        constructor; [by eexists|constructor]. }
  destruct out as [|q out]; [congruence|].
  inversion Hout as [|? ? [b ->] _]; subst.
  apply (agg_loop_raises (Z.max 1 tf') [] (out_row b) out (KeyError "ts") None []).
  - constructor.
  - apply read_out_row.
Qed.

(** * More in exact arithmetic *)

(** Opens the test at the head of a run under [fst]. *)
Ltac walk_fst :=
  cbv zeta;
  lazymatch goal with
  | |- context [fst (if ?b then _ else _)] =>
      let E := fresh "G" in destruct b eqn:E
  | |- context [fst (match ?o with Some _ => _ | None => _ end)] =>
      let E := fresh "G" in destruct o eqn:E
  end.

(** Hides the products and the quotients of the context, so that what
    is left is linear. *)
Ltac hide_nonlinear :=
  repeat match goal with
         | H : context [@fdiv Qc exact ?a ?b] |- _ =>
             let q := fresh "q" in
             set (q := @fdiv Qc exact a b) in *; clearbody q
         | H : context [@fmul Qc exact ?a ?b] |- _ =>
             let q := fresh "q" in
             set (q := @fmul Qc exact a b) in *; clearbody q
         | |- context [@fdiv Qc exact ?a ?b] =>
             let q := fresh "q" in
             set (q := @fdiv Qc exact a b) in *; clearbody q
         | |- context [@fmul Qc exact ?a ?b] =>
             let q := fresh "q" in
             set (q := @fmul Qc exact a b) in *; clearbody q
         end.

(** An equation of [Qc] as two inequalities. *)
Ltac split_equations :=
  repeat match goal with
         | H : @eq Qc ?a ?b |- _ =>
             assert (a <= b)%Qc by (rewrite H; apply Qcle_refl);
             assert (b <= a)%Qc by (rewrite H; apply Qcle_refl);
             clear H
         end.

Lemma exact_zero (a : Qc) : is_zero a = true <-> a = 0%Qc.
Proof. unfold is_zero. apply exact_eq. Qed.

(** A run that ends in an exception contradicts its own tests. *)
Ltac dead_end :=
  exfalso; split_guards;
  repeat match goal with
         | H : is_zero _ = true |- _ => apply exact_zero in H
         end;
  exact_props; cbn [pool_x pool_y pool_k price with_pool] in *;
  hide_nonlinear; split_equations; qc_lra.

Section NoException.
Local Open Scope num_scope.

Lemma market_buy_returns cfg now code usd_in (w : World Qc) :
  exists res, fst (market_buy cfg now code usd_in w) = Returns res.
Proof.
  unfold market_buy, reject.
  repeat walk_fst; try (eexists; reflexivity); dead_end.
Qed.

Lemma market_sell_returns cfg now code rich_in (w : World Qc) :
  exists res, fst (market_sell cfg now code rich_in w) = Returns res.
Proof.
  unfold market_sell, reject.
  repeat walk_fst; try (eexists; reflexivity); dead_end.
Qed.
End NoException.

Section Fractions.

Lemma Qc_inv_pos (z : Qc) : (0 < z -> 0 < / z)%Qc.
Proof.
  unfold Qclt. cbn. intros Hz. rewrite !Qred_correct in *.
  by apply Qinv_lt_0_compat.
Qed.

Lemma Qc_pos_neq (z : Qc) : (0 < z)%Qc -> z <> 0%Qc.
Proof. intros Hz ->. exact (Qclt_not_eq _ _ Hz eq_refl). Qed.

Lemma Qc_mul_pos (a b : Qc) : (0 < a -> 0 < b -> 0 < a * b)%Qc.
Proof.
  intros Ha Hb. rewrite <- (Qcmult_0_l b). by apply Qcmult_lt_compat_r.
Qed.

Lemma Qc_div_pos (a b : Qc) : (0 < a -> 0 < b -> 0 < a / b)%Qc.
Proof. intros Ha Hb. apply Qc_mul_pos; [exact Ha|by apply Qc_inv_pos]. Qed.

(** Two fractions with positive denominators compare as their cross
    products. *)
Lemma Qc_frac_lt (a b c d : Qc) :
  (0 < b -> 0 < d -> a * d < c * b -> a / b < c / d)%Qc.
Proof.
  intros Hb Hd Hlt.
  assert (Hbd : (0 < / (b * d))%Qc) by (apply Qc_inv_pos; by apply Qc_mul_pos).
  replace (a / b)%Qc with (a * d * / (b * d))%Qc
    by (field; split; by apply Qc_pos_neq).
  replace (c / d)%Qc with (c * b * / (b * d))%Qc
    by (field; split; by apply Qc_pos_neq).
  by apply Qcmult_lt_compat_r.
Qed.

Lemma Qc_mul_lt_l (a b c : Qc) : (0 < a -> b < c -> a * b < a * c)%Qc.
Proof.
  intros Ha Hbc. rewrite (Qcmult_comm a b), (Qcmult_comm a c).
  by apply Qcmult_lt_compat_r.
Qed.
End Fractions.

Section ExactOrders.
Local Open Scope num_scope.

Lemma pymax_floor (a b : Qc) : (a <= pymax a b)%Qc.
Proof.
  unfold pymax. destruct (a <? b) eqn:E.
  - apply exact_lt in E. by apply Qclt_le_weak.
  - apply Qcle_refl.
Qed.

Lemma tiny_pos : (0 < @dec Qc _ 1 4)%Qc.
Proof. apply exact_lt. reflexivity. Qed.

Lemma thousand_pos : (0 < @of_Z Qc _ 1000)%Qc.
Proof. apply exact_lt. reflexivity. Qed.

Lemma engine_call_exact cfg now code side usd (w : World Qc) :
  engine_call cfg now code side usd w
  = market_order cfg now code side
      match side with
      | BUY => usd
      | SELL => usd / pymax (dec 1 4) (price (engine w))
      end w.
Proof.
  destruct side; cbn [engine_call market_order]; [reflexivity|]. cbv zeta.
  destruct (is_zero _) eqn:E; [exfalso|reflexivity].
  apply exact_zero in E.
  pose proof (pymax_floor (dec 1 4) (price (engine w))) as Hf.
  rewrite E in Hf. exact (Qclt_not_le _ _ tiny_pos Hf).
Qed.

Lemma market_order_returns cfg now code side amount (w : World Qc) :
  exists res, fst (market_order cfg now code side amount w) = Returns res.
Proof.
  destruct side; [apply market_buy_returns|apply market_sell_returns].
Qed.

(** The facts an accepted order has tested, as order on [Qc]. *)
Lemma buy_accepted_facts cfg now code usd_in (w : World Qc) r w' :
  market_buy cfg now code usd_in w = (Returns (Accepted r), w') ->
  let e := engine w in
  let usd_eff := usd_in - usd_in * fee_rate cfg in
  let y_new := pool_y e + usd_eff in
  let x_new := pool_k e / y_new in
  (0 < pool_x e /\ 0 < pool_y e /\ 0 < pool_k e /\ 0 < usd_eff /\
   0 < x_new /\ x_new < pool_x e /\ pool_y e < y_new /\ 0 < usd_in)%Qc /\
  pool_x (engine w') = x_new /\ pool_y (engine w') = y_new /\
  price (engine w') = y_new / x_new /\
  r_avg_price r = usd_eff / (pool_x e - x_new) /\
  r_amount_out r = pool_x e - x_new /\
  r_fee r = usd_in * fee_rate cfg.
Proof.
  intros Hrun. cbv zeta.
  destruct (market_buy_accepted _ _ _ _ _ _ _ Hrun)
    as (row & _ & Hg & Hw & Hr).
  destruct Hg as (G1 & _ & G2 & G3 & G4 & _ & G5 & _ & G6 & G7 & _).
  match type of Hw with
  | _ = commit_trade ?c ?n ?t0 ?e1 ?d =>
      pose proof (commit_trade_engine c n t0 e1 d) as (Hx & Hy & _ & Hp & _)
  end.
  rewrite <- Hw in Hx, Hy, Hp. cbn [pool_x pool_y price with_pool] in Hx, Hy, Hp.
  rewrite Hr. cbn [r_avg_price r_amount_out r_fee].
  split; [|repeat split; assumption].
  exact_props.
  set (q := pool_k (engine w) / _) in *. clearbody q.
  set (m := usd_in * fee_rate cfg) in *. clearbody m.
  repeat split; qc_lra.
Qed.

Lemma sell_accepted_facts cfg now code rich_in (w : World Qc) r w' :
  market_sell cfg now code rich_in w = (Returns (Accepted r), w') ->
  let e := engine w in
  let x_new := pool_x e + rich_in in
  let y_new := pool_k e / x_new in
  let gross := pool_y e - y_new in
  let net := gross - gross * fee_rate cfg in
  (0 < pool_x e /\ 0 < pool_y e /\ 0 < pool_k e /\ 0 < rich_in /\
   0 < y_new /\ y_new < pool_y e /\ pool_x e < x_new /\ 0 < net)%Qc /\
  pool_x (engine w') = x_new /\ pool_y (engine w') = y_new /\
  price (engine w') = y_new / x_new /\
  r_avg_price r = (gross - gross * fee_rate cfg) / rich_in /\
  r_amount_out r = gross - gross * fee_rate cfg /\
  r_fee r = gross * fee_rate cfg.
Proof.
  intros Hrun. cbv zeta.
  destruct (market_sell_accepted _ _ _ _ _ _ _ Hrun)
    as (row & _ & Hg & Hw & Hr).
  destruct Hg as (G1 & _ & G2 & G3 & G4 & _ & G5 & G6 & G7 & _).
  match type of Hw with
  | _ = commit_trade ?c ?n ?t0 ?e1 ?d =>
      pose proof (commit_trade_engine c n t0 e1 d) as (Hx & Hy & _ & Hp & _)
  end.
  rewrite <- Hw in Hx, Hy, Hp. cbn [pool_x pool_y price with_pool] in Hx, Hy, Hp.
  rewrite Hr. cbn [r_avg_price r_amount_out r_fee].
  split; [|repeat split; assumption].
  exact_props.
  set (q := pool_k (engine w) / _) in *. clearbody q.
  set (m := (pool_y (engine w) - q) * fee_rate cfg) in *. clearbody m.
  repeat split; qc_lra.
Qed.
End ExactOrders.

(** In exact arithmetic no market order ends in an exception, and
    [POST /api/trade] never answers 500: every division of the two
    orders and of the endpoint has a divisor its tests keep from zero. *)
Theorem no_exception_in_exact_arithmetic :
  forall cfg now t code side amount usd (w : World Qc) (c : StatsCache Qc),
    (exists res, fst (market_order cfg now code side amount w) = Returns res) /\
    (forall ex, fst (fst (trade cfg now t code side usd w c)) <> Http500 ex).
Proof.
  intros cfg now t code side amount usd w c.
  split; [apply market_order_returns|].
  intros ex. unfold trade, get_player.
  destruct (players (db w) !! strip code); [|discriminate].
  rewrite engine_call_exact.
  match goal with
  | |- context [market_order ?a ?b ?c0 ?d ?e ?f] =>
      destruct (market_order_returns a b c0 d e f) as [res Hres];
      destruct (market_order a b c0 d e f) as [out w1] eqn:Hrun
  end.
  cbn [fst] in Hres. subst out. destruct res as [r|err]; [|discriminate].
  destruct (order_accepted_wallet _ _ _ _ _ _ _ _ Hrun)
    as (row0 & _ & Hrow' & _).
  rewrite strip_strip in Hrow'. rewrite Hrow'.
  destruct (_compute_stats_from_trades t (strip code) (db w1) _)
    as [[[avg real] pc] c2].
  discriminate.
Qed.

(** An accepted order moves the price its way (exact arithmetic).  The
    quotient of the reserves, which the engine takes as its price, is
    strictly higher after an accepted BUY and strictly lower after an
    accepted SELL; both reserves stay positive. *)
Theorem order_moves_the_price :
  forall cfg now code side amount (w : World Qc) r w',
    market_order cfg now code side amount w = (Returns (Accepted r), w') ->
    let e := engine w in
    let e' := engine w' in
    (0 < pool_x e' /\ 0 < pool_y e')%Qc /\
    price e' = (pool_y e' / pool_x e')%Qc /\
    match side with
    | BUY => (pool_y e / pool_x e < pool_y e' / pool_x e')%Qc
    | SELL => (pool_y e' / pool_x e' < pool_y e / pool_x e)%Qc
    end.
Proof.
  intros cfg now code [] amount w r w' Hrun; cbn [market_order] in Hrun;
    cbv zeta.
  - destruct (buy_accepted_facts _ _ _ _ _ _ _ Hrun)
      as ((Hx & Hy & _ & He & Hx' & Hxx & Hyy & _) & -> & -> & -> & _).
    split; [split; [exact Hx'|by apply (Qclt_trans _ (pool_y (engine w)))]|].
    split; [reflexivity|].
    apply Qc_frac_lt; [exact Hx|exact Hx'|].
    eapply Qclt_trans; [apply Qc_mul_lt_l; [exact Hy|exact Hxx]|].
    by apply Qcmult_lt_compat_r.
  - destruct (sell_accepted_facts _ _ _ _ _ _ _ Hrun)
      as ((Hx & Hy & _ & Ha & Hy' & Hyy & Hxx & _) & -> & -> & -> & _).
    split; [split; [by apply (Qclt_trans _ (pool_x (engine w)))|exact Hy']|].
    split; [reflexivity|].
    apply Qc_frac_lt; [by apply (Qclt_trans _ (pool_x (engine w)))|exact Hx|].
    eapply Qclt_trans; [apply Qcmult_lt_compat_r; [exact Hx|exact Hyy]|].
    by apply Qc_mul_lt_l.
Qed.

Section Slippage.

Lemma buy_price_identity (x y eff : Qc) :
  (0 < x -> 0 < y -> 0 < eff ->
   eff / (x - x * y / (y + eff)) = (y + eff) / x)%Qc.
Proof.
  intros Hx Hy He. field.
  split; [by apply Qc_pos_neq|]. split.
  - apply Qc_pos_neq. apply (Qclt_trans _ y); [exact Hy|].
    rewrite <- (Qcplus_0_r y) at 1. by apply Qcplus_lt_mono_l.
  - replace (x * (y + eff) - x * y)%Qc with (x * eff)%Qc by ring.
    apply Qc_pos_neq. by apply Qc_mul_pos.
Qed.

Lemma sell_price_identity (x y a : Qc) :
  (0 < x -> 0 < a -> (y - x * y / (x + a)) / a = y / (x + a))%Qc.
Proof.
  intros Hx Ha. field.
  split; [|by apply Qc_pos_neq].
  apply Qc_pos_neq. apply (Qclt_trans _ x); [exact Hx|].
  rewrite <- (Qcplus_0_r x) at 1. by apply Qcplus_lt_mono_l.
Qed.
End Slippage.

(** The price a trade is filled at lies between the price before and
    the price after (exact arithmetic, on every reachable state).  An
    accepted BUY is filled at [y' / x], the new USD reserve over the old
    RICH reserve, which is above the price of the pool before and below
    the engine's price after.  An accepted SELL pays, before the fee,
    [y / x'] per RICH: below the price of the pool before and above the
    engine's price after; the recorded average price is that less the
    fee. *)
Theorem execution_price_is_between :
  forall cfg now code side amount (w : World Qc) r w',
    reachable cfg w ->
    market_order cfg now code side amount w = (Returns (Accepted r), w') ->
    let e := engine w in
    let e' := engine w' in
    match side with
    | BUY =>
        r_avg_price r = (pool_y e' / pool_x e)%Qc /\
        (pool_y e / pool_x e < r_avg_price r)%Qc /\
        (r_avg_price r < price e')%Qc
    | SELL =>
        ((r_amount_out r + r_fee r) / amount = pool_y e / pool_x e')%Qc /\
        r_avg_price r = (pool_y e / pool_x e' * (1 - fee_rate cfg))%Qc /\
        (price e' < pool_y e / pool_x e')%Qc /\
        (pool_y e / pool_x e' < pool_y e / pool_x e)%Qc
    end.
Proof.
  intros cfg now code side amount w r w' Hreach Hrun.
  destruct (reachable_pool_consistent _ _ Hreach) as [Hk _].
  destruct side; cbn [market_order] in Hrun; cbv zeta.
  - destruct (buy_accepted_facts _ _ _ _ _ _ _ Hrun)
      as ((Hx & Hy & _ & He & Hx' & Hxx & Hyy & _) & Hpx & Hpy & Hp & Ha & _).
    rewrite Hp, Hpy, Ha. clear Hpx Hpy Hp Ha Hrun.
    revert He Hx' Hxx Hyy. rewrite Hk.
    generalize (amount - amount * fee_rate cfg)%num. intros eff He Hx' Hxx Hyy.
    assert (Hid : (eff / (pool_x (engine w)
                          - pool_x (engine w) * pool_y (engine w)
                            / (pool_y (engine w) + eff))
                   = (pool_y (engine w) + eff) / pool_x (engine w))%Qc)
      by (by apply buy_price_identity).
    split; [exact Hid|]. change fdiv with Qcdiv. change fsub with Qcminus.
    change fadd with Qcplus. change fmul with Qcmult. rewrite Hid. split.
    + apply Qc_frac_lt; try assumption. by apply Qcmult_lt_compat_r.
    + apply Qc_frac_lt; try assumption. by apply Qc_mul_lt_l;
        [apply (Qclt_trans _ (pool_y (engine w)))|].
  - destruct (sell_accepted_facts _ _ _ _ _ _ _ Hrun)
      as ((Hx & Hy & _ & Ha & Hy' & Hyy & Hxx & _) & Hpx & Hpy & Hp & Hav & Ho & Hf).
    rewrite Hp, Hpx, Hav, Ho, Hf. clear Hpx Hpy Hp Hav Ho Hf Hrun.
    revert Hy' Hyy. rewrite Hk. intros Hy' Hyy.
    change fdiv with Qcdiv in *. change fsub with Qcminus in *.
    change fadd with Qcplus in *. change fmul with Qcmult in *.
    pose proof (sell_price_identity (pool_x (engine w)) (pool_y (engine w))
                  amount Hx Ha) as Hid.
    assert (Hx' : (0 < pool_x (engine w) + amount)%Qc)
      by (by apply (Qclt_trans _ (pool_x (engine w)))).
    split; [|split; [|split]].
    + rewrite <- Hid. f_equal. ring.
    + rewrite <- Hid. field. split; by apply Qc_pos_neq.
    + apply Qc_frac_lt; try assumption. by apply Qcmult_lt_compat_r.
    + apply Qc_frac_lt; try assumption. by apply Qc_mul_lt_l.
Qed.

Section StartGame.
Local Open Scope num_scope.

Lemma exact_nonzero_pos (a : Qc) : (0 < a)%Qc -> is_zero a = false.
Proof. intros Ha. apply exact_nonzero. by apply Qc_pos_neq. Qed.

Lemma quotient_back (l p : Qc) : (0 < l -> 0 < p -> l / (l / p) = p)%Qc.
Proof. intros Hl Hp. field. split; by apply Qc_pos_neq. Qed.
End StartGame.

(** [start_game] opens the pool once, and a second call never returns.
    In any arithmetic, on a game that runs with positive reserves the
    call changes nothing and blocks for ever: it asks for the engine lock
    while it holds it.  In exact arithmetic, on any other state the call
    returns: it leaves a started game with positive reserves, on which
    every later call blocks; it puts [max(1000, initial_usd_liquidity)]
    USD against that much RICH at [max(0.0001, price)], keeps that price,
    sets the pool constant to the product of the reserves, opens a flat
    live candle at the bucket of the clock, and stores the engine. *)
Theorem start_game_opens_the_pool_once :
  (forall (F : Type) (A : Arith F) cfg now (w : World F),
     started (engine w) && fltb (of_Z 0) (pool_x (engine w))
       && fltb (of_Z 0) (pool_y (engine w)) = true ->
     start_game cfg now w = (Deadlock, w)) /\
  (forall cfg now (w : World Qc),
     let e := engine w in
     started e && fltb (of_Z 0) (pool_x e) && fltb (of_Z 0) (pool_y e)
     = false ->
     exists w',
       start_game cfg now w = (Ends (Returns tt), w') /\
       started (engine w') = true /\
       (0 < pool_x (engine w') /\ 0 < pool_y (engine w'))%Qc /\
       (forall now', start_game cfg now' w' = (Deadlock, w')) /\
       let e' := engine w' in
       let cs := Z.max 1 (candle_seconds cfg) in
       pool_y e' = pymax (of_Z 1000) (initial_usd_liquidity cfg) /\
       price e' = pymax (dec 1 4) (price e) /\
       pool_x e' = (pool_y e' / price e')%Qc /\
       pool_k e' = (pool_x e' * pool_y e')%Qc /\
       snap_candle (snapshot e')
       = ((now / cs * cs)%Z,
          {| c_open := price e'; c_high := price e'; c_low := price e';
             c_close := price e' |}) /\
       db w' = _set_pool_state e' (db w)).
Proof.
  assert (Hagain : forall (F : Type) (A : Arith F) cfg now (w : World F),
            started (engine w) && fltb (of_Z 0) (pool_x (engine w))
              && fltb (of_Z 0) (pool_y (engine w)) = true ->
            start_game cfg now w = (Deadlock, w)).
  { intros F A cfg now w Hrun. unfold start_game. cbv zeta.
    by rewrite Hrun. }
  split; [exact Hagain|].
  intros cfg now w e Hrun.
  set (l := pymax (of_Z 1000) (initial_usd_liquidity cfg)).
  set (p := pymax (dec 1 4) (price e)).
  assert (Hl : (0 < l)%Qc)
    by (eapply Qclt_le_trans; [exact thousand_pos|apply pymax_floor]).
  assert (Hp : (0 < p)%Qc)
    by (eapply Qclt_le_trans; [exact tiny_pos|apply pymax_floor]).
  assert (Hx : (0 < l / p)%Qc) by (by apply Qc_div_pos).
  assert (Hback : (l / (l / p))%Qc = p) by (by apply quotient_back).
  unfold start_game. cbv zeta. fold e. rewrite Hrun.
  fold l. fold p.
  rewrite (exact_nonzero_pos p Hp).
  change (l / p)%num with (l / p)%Qc.
  rewrite (exact_nonzero_pos (l / p)%Qc Hx).
  eexists. split; [reflexivity|].
  split; [reflexivity|]. split; [split; [exact Hx|exact Hl]|].
  split.
  { intros now'. apply Hagain.
    cbn [engine started pool_x pool_y]. apply andb_true_iff. split.
    - apply exact_lt. exact Hx.
    - apply exact_lt. exact Hl. }
  cbn [engine db started pool_x pool_y pool_k price snapshot snap_candle
       candle_ts candle_o candle_h candle_l candle_c].
  change fdiv with Qcdiv. change fmul with Qcmult. rewrite !Hback.
  repeat split.
Qed.

(** ** Money in exact arithmetic *)

Section Money.
Local Open Scope num_scope.

Lemma order_wallets cfg now code side amount (w : World Qc) out w' :
  market_order cfg now code side amount w = (out, w') ->
  forall c row',
    players (db w') !! c = Some row' ->
    players (db w) !! c = Some row' \/
    exists r row,
      out = Returns (Accepted r) /\ c = strip code /\
      players (db w) !! c = Some row /\
      match side with
      | BUY => (amount <= cash row)%Qc /\ cash row' = cash row - amount /\
               pos row' = pos row + r_amount_out r
      | SELL => (0 < r_amount_out r)%Qc /\
                cash row' = cash row + r_amount_out r /\
                pos row' = pos row - amount
      end.
Proof.
  intros Hrun c row' Hrow'.
  destruct out as [[r|err]|ex].
  - destruct (order_accepted_wallet _ _ _ _ _ _ _ _ Hrun)
      as (row & Hrow & Hnew & Hother & _).
    destruct (decide (c = strip code)) as [->|Hne].
    + right. exists r, row. split; [reflexivity|]. split; [reflexivity|].
      split; [exact Hrow|].
      rewrite Hnew in Hrow'. injection Hrow' as <-. cbn [cash pos].
      destruct side; cbn [market_order] in Hrun.
      * destruct (market_buy_accepted _ _ _ _ _ _ _ Hrun)
          as (row0 & Hrow0 & Hg & _ & Hr).
        rewrite Hrow in Hrow0. injection Hrow0 as <-.
        destruct Hg as (_ & _ & _ & _ & _ & G & _). apply exact_lt_false in G.
        rewrite Hr. cbn [r_cash_after r_pos_after r_amount_out].
        repeat split. exact G.
      * destruct (market_sell_accepted _ _ _ _ _ _ _ Hrun)
          as (row0 & Hrow0 & Hg & _ & Hr).
        rewrite Hrow in Hrow0. injection Hrow0 as <-.
        destruct Hg as (_ & _ & _ & _ & _ & _ & _ & _ & G & _).
        apply exact_le_false in G.
        rewrite Hr. cbn [r_cash_after r_pos_after r_amount_out].
        repeat split. exact G.
    + left. rewrite <- (Hother c Hne). exact Hrow'.
  - left. rewrite <- (market_order_refused _ _ _ _ _ _ _ _ Hrun); [exact Hrow'|].
    discriminate.
  - left. rewrite <- (market_order_refused _ _ _ _ _ _ _ _ Hrun); [exact Hrow'|].
    discriminate.
Qed.

End Money.

(** No wallet goes below zero cash (exact arithmetic).  In every state
    the engine reaches, whatever was joined, traded, ticked or stopped
    out, every player holds a cash balance of zero or more: debt shows
    only as a negative position. *)
Theorem reachable_cash_is_never_negative :
  forall cfg (w : World Qc),
    reachable cfg w ->
    forall code row, players (db w) !! code = Some row -> (0 <= cash row)%Qc.
Proof.
  intros cfg w Hreach.
  induction Hreach as [|w now0 now u _ IH|w now _ IH|w now code nick0 _ IH
                       |w now code usd_in _ IH|w now code rich_in _ IH
                       |w now_s now _ IH]; intros c row Hrow.
  - cbn in Hrow. by rewrite lookup_empty in Hrow.
  - destruct (init_or_load_tables cfg now0 now u w) as (Hp & _).
    rewrite Hp in Hrow. by apply (IH c).
  - destruct (start_game_tables cfg now w) as (Hp & _).
    rewrite Hp in Hrow. by apply (IH c).
  - cbn [db] in Hrow. unfold join in Hrow.
    destruct (negb _); [by apply (IH c)|].
    destruct (has_blank _); [by apply (IH c)|].
    destruct (String.eqb _ _); [by apply (IH c)|]. cbn [snd] in Hrow.
    destruct (decide (c = strip code)) as [->|Hne].
    + unfold upsert_player in Hrow.
      destruct (players (db w) !! strip code) as [p|] eqn:Hp;
        cbn [players with_players] in Hrow;
        rewrite lookup_insert_eq in Hrow; injection Hrow as <-; cbn [cash].
      * by apply (IH (strip code)).
      * apply exact_le. reflexivity.
    + rewrite upsert_player_other in Hrow by exact Hne. by apply (IH c).
  - destruct (market_buy cfg now code usd_in w) as [out w'] eqn:Hrun.
    destruct (order_wallets cfg now code BUY usd_in w out w' Hrun c row Hrow)
      as [Hsame|(r & row0 & _ & _ & Hrow0 & Hle & Hc & _)];
      [by apply (IH c)|].
    rewrite Hc. specialize (IH c row0 Hrow0).
    revert Hle IH. generalize (cash row0). intros a Hle Ha. qc_lra.
  - destruct (market_sell cfg now code rich_in w) as [out w'] eqn:Hrun.
    destruct (order_wallets cfg now code SELL rich_in w out w' Hrun c row Hrow)
      as [Hsame|(r & row0 & _ & _ & Hrow0 & Hpos & Hc & _)];
      [by apply (IH c)|].
    rewrite Hc. specialize (IH c row0 Hrow0).
    revert Hpos IH. generalize (cash row0) (r_amount_out r).
    intros a b Hb Ha. qc_lra.
  - rewrite tick_players in Hrow.
    destruct (players (db w) !! c) as [row0|] eqn:Hrow0; [|discriminate].
    cbn in Hrow. injection Hrow as <-.
    destruct (_ && _); [apply exact_le; reflexivity|by apply (IH c)].
Qed.

(** An accepted order conserves RICH and accounts for every dollar
    (exact arithmetic).  The RICH the player gains is the RICH the pool
    loses, and the other way round; the USD the player pays is what the
    pool gains plus the fee, and the USD the pool pays out is what the
    player receives plus the fee: the fee is credited to nobody. *)
Theorem order_conserves_rich_and_usd :
  forall cfg now code side amount (w : World Qc) r w',
    market_order cfg now code side amount w = (Returns (Accepted r), w') ->
    exists row row',
      players (db w) !! strip code = Some row /\
      players (db w') !! strip code = Some row' /\
      (pool_x (engine w') + pos row' = pool_x (engine w) + pos row)%Qc /\
      (pool_y (engine w') + cash row' + r_fee r
       = pool_y (engine w) + cash row)%Qc.
Proof.
  intros cfg now code side amount w r w' Hrun.
  destruct (order_accepted_wallet _ _ _ _ _ _ _ _ Hrun)
    as (row & Hrow & Hnew & _).
  exists row. eexists. split; [exact Hrow|]. split; [exact Hnew|].
  cbn [cash pos].
  destruct side; cbn [market_order] in Hrun.
  - destruct (buy_accepted_facts _ _ _ _ _ _ _ Hrun)
      as (_ & -> & -> & _ & _ & _ & Hf).
    destruct (market_buy_accepted _ _ _ _ _ _ _ Hrun)
      as (row0 & Hrow0 & _ & _ & Hr).
    rewrite Hrow in Hrow0. injection Hrow0 as <-.
    rewrite Hr. cbn [r_cash_after r_pos_after r_fee]. split; cbn; ring.
  - destruct (sell_accepted_facts _ _ _ _ _ _ _ Hrun)
      as (_ & -> & -> & _ & _ & _ & Hf).
    destruct (market_sell_accepted _ _ _ _ _ _ _ Hrun)
      as (row0 & Hrow0 & _ & _ & Hr).
    rewrite Hrow in Hrow0. injection Hrow0 as <-.
    rewrite Hr. cbn [r_cash_after r_pos_after r_fee]. split; cbn; ring.
Qed.

(** ** A restart *)

Section Restart.
Context {F : Type} `{Arith F}.
Local Open Scope num_scope.

Lemma seed_loop_returns cfg u seed_cs n i ts last_close (d : Db F) :
  is_zero (start_price cfg) = false ->
  fst (seed_loop cfg u seed_cs n i ts last_close d) = Returns tt.
Proof.
  intros Hz. revert i ts last_close d.
  induction n as [|n IH]; intros i ts last_close d; cbn [seed_loop].
  - reflexivity.
  - rewrite Hz. apply IH.
Qed.

Lemma seed_history_returns cfg now u (d : Db F) :
  is_zero (start_price cfg) = false ->
  fst (seed_history_if_needed cfg now u d) = Returns tt.
Proof.
  intros Hz. unfold seed_history_if_needed.
  destruct (negb _); [reflexivity|]. cbv zeta.
  match goal with |- context [if ?c then _ else _] => destruct c end;
    [reflexivity|].
  match goal with
  | |- context [seed_loop ?a ?b ?c ?n ?i ?t ?lc ?dd] =>
      pose proof (seed_loop_returns a b c n i t lc dd Hz) as Hl;
      destruct (seed_loop a b c n i t lc dd) as [[[]|ex] d1]
  end; [reflexivity|discriminate Hl].
Qed.
End Restart.

(** A restart finds the pool again (exact arithmetic).  After an accepted
    order, a new process on the same database (a new engine, then
    [init_or_load] at any clocks and with any draws of the seeder, for a
    [start_price] that is not zero) comes back started, with the
    reserves, the pool constant and the price the order left, and with
    the players and the trades as they were. *)
Theorem restart_restores_the_pool :
  forall cfg now code side amount (w : World Qc) r w' now0 now1 u,
    market_order cfg now code side amount w = (Returns (Accepted r), w') ->
    is_zero (start_price cfg) = false ->
    let booted :=
      init_or_load cfg now0 now1 u {| engine := new_engine cfg; db := db w' |} in
    fst booted = Returns tt /\
    pool_x (engine (snd booted)) = pool_x (engine w') /\
    pool_y (engine (snd booted)) = pool_y (engine w') /\
    pool_k (engine (snd booted)) = pool_k (engine w') /\
    price (engine (snd booted)) = price (engine w') /\
    started (engine (snd booted)) = true /\
    players (db (snd booted)) = players (db w') /\
    trades (db (snd booted)) = trades (db w').
Proof.
  intros cfg now code side amount w r w' now0 now1 u Hrun Hz booted.
  (* what the order stored *)
  destruct (order_accepted_commit _ _ _ _ _ _ _ _ Hrun)
    as (_ & _ & _ & _ & e1 & Hw & Hs1).
  pose proof (commit_trade_reads cfg now (trade_row now code side amount r)
                e1 (db w)) as Hreads.
  pose proof (commit_trade_engine cfg now (trade_row now code side amount r)
                e1 (db w)) as (_ & _ & _ & _ & Hst).
  cbv zeta in Hreads. rewrite <- Hw in Hreads, Hst.
  destruct Hreads as (Rx & Ry & Rk & _ & _ & Rs).
  rewrite Hst, Hs1 in Rs.
  (* what the order left in the engine *)
  assert (Hpos : (0 < pool_x (engine w') /\ 0 < pool_y (engine w') /\
                  0 < pool_k (engine w'))%Qc /\
                 price (engine w') = (pool_y (engine w') / pool_x (engine w'))%Qc).
  { destruct (order_accepted_pool _ _ _ _ _ _ _ _ Hrun) as (Hk & Hp & _).
    split; [|exact Hp]. rewrite Hk.
    destruct side; cbn [market_order] in Hrun.
    - destruct (buy_accepted_facts _ _ _ _ _ _ _ Hrun)
        as ((_ & Hy & Hkp & _ & Hx' & _ & Hyy & _) & -> & -> & _).
      repeat split; try assumption. by apply (Qclt_trans _ (pool_y (engine w))).
    - destruct (sell_accepted_facts _ _ _ _ _ _ _ Hrun)
        as ((Hx & _ & Hkp & _ & Hy' & _ & Hxx & _) & -> & -> & _).
      repeat split; try assumption. by apply (Qclt_trans _ (pool_x (engine w))). }
  destruct Hpos as ((Hx & Hy & Hk) & Hp).
  (* the loader *)
  pose proof (init_or_load_tables cfg now0 now1 u
                {| engine := new_engine cfg; db := db w' |}) as (Hpl & Htr).
  fold booted in Hpl, Htr. cbn [db] in Hpl, Htr.
  enough (fst booted = Returns tt /\
          pool_x (engine (snd booted)) = pool_x (engine w') /\
          pool_y (engine (snd booted)) = pool_y (engine w') /\
          pool_k (engine (snd booted)) = pool_k (engine w') /\
          price (engine (snd booted)) = price (engine w') /\
          started (engine (snd booted)) = true) as (? & ? & ? & ? & ? & ?)
    by (repeat split; assumption).
  clear Hpl Htr. subst booted. unfold init_or_load. cbn [db engine].
  pose proof (seed_history_returns cfg now0 u (db w') Hz) as Hret.
  pose proof (seed_history_frame cfg now0 u (db w')) as (_ & _ & Hkeep).
  destruct (seed_history_if_needed cfg now0 u (db w')) as [[[]|ex] d];
    [|discriminate Hret].
  cbn [snd] in Hkeep. cbv zeta. unfold _get_state_float.
  rewrite !Hkeep by discriminate. rewrite Rx, Ry, Rk, Rs.
  assert (Gx : fltb (of_Z 0) (pool_x (engine w')) = true) by (by apply exact_lt).
  assert (Gy : fltb (of_Z 0) (pool_y (engine w')) = true) by (by apply exact_lt).
  assert (Gk : fltb (of_Z 0) (pool_k (engine w')) = true) by (by apply exact_lt).
  rewrite Gx, Gy, Gk. cbn [andb].
  rewrite (exact_nonzero_pos _ Hx).
  cbn [fst snd engine db pool_x pool_y pool_k price started with_pool].
  rewrite Hp. repeat split.
Qed.

(** ** The replay of a log in exact arithmetic *)

Section ReplayExact.
Local Open Scope num_scope.

Lemma Qc_abs_nonneg (a : Qc) : (0 <= fabs a)%Qc.
Proof.
  unfold Qcle. cbn. rewrite !Qred_correct. apply Qabs_nonneg.
Qed.

Lemma Qc_mul_nonneg (a b : Qc) : (0 <= a -> 0 <= b -> 0 <= a * b)%Qc.
Proof.
  intros Ha Hb. rewrite <- (Qcmult_0_l b). by apply Qcmult_le_compat_r.
Qed.

Lemma Qc_div_nonneg (a b : Qc) : (0 <= a -> 0 < b -> 0 <= a / b)%Qc.
Proof.
  intros Ha Hb. apply Qc_mul_nonneg; [exact Ha|].
  apply Qclt_le_weak. by apply Qc_inv_pos.
Qed.

Lemma Qc_nonneg_pos (a : Qc) : (0 <= a)%Qc -> a <> 0%Qc -> (0 < a)%Qc.
Proof.
  intros Ha Hne. destruct (Qcle_lt_or_eq _ _ Ha) as [Hlt|E]; [exact Hlt|].
  by destruct Hne.
Qed.

Lemma fneb_exact (a : Qc) : fneb a (of_Z 0) = true -> a <> 0%Qc.
Proof.
  unfold fneb. intros Hn E. apply negb_true_iff in Hn.
  apply exact_eq in E. change (of_Z 0) with 0%Qc in Hn. congruence.
Qed.

(** One turn of the replay keeps the average price at zero or above. *)
Lemma stats_step_avg_nonneg (s : Stats Qc) (t : Trade Qc) :
  (0 <= s_avg s)%Qc -> (0 <= t_qty t)%Qc -> (0 <= t_price t)%Qc ->
  (0 <= s_avg (stats_step s t))%Qc.
Proof.
  intros Ha Hq Hp. unfold stats_step.
  destruct (t_side t).
  - destruct (of_Z 0 <=? s_pos s) eqn:Hpos.
    + cbn [s_avg]. destruct (fneb _ _) eqn:Hn; [|apply Qcle_refl].
      apply fneb_exact in Hn. apply exact_le in Hpos.
      apply Qc_div_nonneg.
      * rewrite <- (Qcplus_0_r 0). apply Qcplus_le_compat;
          by apply Qc_mul_nonneg.
      * apply Qc_nonneg_pos; [|exact Hn].
        rewrite <- (Qcplus_0_r 0). by apply Qcplus_le_compat.
    + destruct (_ <? dec 1 12); destruct (of_Z 0 <? _); cbn [s_avg];
        first [assumption | apply Qcle_refl].
  - destruct (s_pos s <=? of_Z 0) eqn:Hpos.
    + cbn [s_avg]. destruct (fneb _ _) eqn:Hn; [|apply Qcle_refl].
      apply fneb_exact in Hn.
      apply Qc_div_nonneg.
      * rewrite <- (Qcplus_0_r 0). apply Qcplus_le_compat;
          apply Qc_mul_nonneg; try assumption. apply Qc_abs_nonneg.
      * apply Qc_nonneg_pos; [apply Qc_abs_nonneg|exact Hn].
    + destruct (_ <? dec 1 12); destruct (of_Z 0 <? _); cbn [s_avg];
        first [assumption | apply Qcle_refl].
Qed.

Lemma fold_stats_avg_nonneg (log : list (Trade Qc)) (s : Stats Qc) :
  Forall (fun t => (0 <= t_qty t)%Qc /\ (0 <= t_price t)%Qc) log ->
  (0 <= s_avg s)%Qc ->
  (0 <= s_avg (fold_left stats_step log s))%Qc.
Proof.
  intros Hlog. revert s.
  induction Hlog as [|t log [Hq Hp] _ IH]; intros s Hs; cbn [fold_left].
  - exact Hs.
  - apply IH. by apply stats_step_avg_nonneg.
Qed.

(** A BUY of [q] from a flat position opens a long of [q] at the price
    of the trade; a SELL of [q] opens a short of [q]. *)
Lemma stats_step_open (s : Stats Qc) (t : Trade Qc) :
  s_pos s = 0%Qc -> (0 < t_qty t)%Qc ->
  stats_step s t
  = {| s_pos := match t_side t with BUY => t_qty t | SELL => (- t_qty t)%Qc end;
       s_avg := t_price t;
       s_realized := (s_realized s - t_fee t)%Qc |}.
Proof.
  intros Hs Hq. unfold stats_step. rewrite Hs.
  change (of_Z 0 <=? 0%Qc) with true. change (0%Qc <=? of_Z 0) with true.
  assert (Hne : t_qty t <> 0%Qc) by (by apply Qc_pos_neq).
  destruct (t_side t); cbv zeta.
  - assert (E : (0%Qc + t_qty t)%num = t_qty t) by (cbn; ring).
    rewrite E.
    assert (Hn : fneb (t_qty t) (of_Z 0) = true).
    { unfold fneb. apply negb_true_iff.
      destruct (t_qty t =? of_Z 0) eqn:Ez; [|reflexivity].
      apply exact_eq in Ez. by destruct Hne. }
    rewrite Hn. f_equal. cbn. field. exact Hne.
  - assert (E : (0%Qc - t_qty t)%num = (- t_qty t)%Qc) by (cbn; ring).
    rewrite E.
    assert (Habs : fabs (- t_qty t)%Qc = t_qty t).
    { apply Qc_is_canon. cbn. rewrite !Qred_correct.
      rewrite Qabs_opp. apply Qabs_pos. by apply Qlt_le_weak. }
    rewrite Habs.
    assert (Hn : fneb (t_qty t) (of_Z 0) = true).
    { unfold fneb. apply negb_true_iff.
      destruct (t_qty t =? of_Z 0) eqn:Ez; [|reflexivity].
      apply exact_eq in Ez. by destruct Hne. }
    rewrite Hn. f_equal.
    change (fabs 0%Qc) with 0%Qc. cbn. field. exact Hne.
Qed.

(** The opposite trade of the same size closes the position and
    realizes the difference of the two prices on it. *)
Lemma stats_step_close (s : Stats Qc) (t : Trade Qc) :
  (0 < t_qty t)%Qc ->
  s_pos s = match t_side t with BUY => (- t_qty t)%Qc | SELL => t_qty t end ->
  stats_step s t
  = {| s_pos := 0%Qc; s_avg := 0%Qc;
       s_realized :=
         (s_realized s
          + match t_side t with
            | BUY => (s_avg s - t_price t) * t_qty t
            | SELL => (t_price t - s_avg s) * t_qty t
            end - t_fee t)%Qc |}.
Proof.
  intros Hq Hs. unfold stats_step.
  assert (Habs : fabs (- t_qty t)%Qc = t_qty t).
  { apply Qc_is_canon. cbn. rewrite !Qred_correct.
    rewrite Qabs_opp. apply Qabs_pos. by apply Qlt_le_weak. }
  assert (Hmin : pymin (t_qty t) (t_qty t) = t_qty t)
    by (unfold pymin; by destruct (_ <? _)).
  assert (Hz1 : (- t_qty t + t_qty t)%Qc = 0%Qc) by ring.
  assert (Hz2 : (t_qty t - t_qty t)%Qc = 0%Qc) by ring.
  destruct (t_side t); rewrite Hs; cbv zeta.
  - assert (G : (of_Z 0 <=? (- t_qty t)%Qc) = false).
    { apply exact_le_false. revert Hq. generalize (t_qty t). intros q Hq.
      qc_lra. }
    rewrite G, Habs, Hmin.
    change (((- t_qty t)%Qc + t_qty t)%num) with (- t_qty t + t_qty t)%Qc.
    change ((t_qty t - t_qty t)%num) with (t_qty t - t_qty t)%Qc.
    rewrite Hz1, Hz2. reflexivity.
  - assert (G : (t_qty t <=? of_Z 0) = false) by (by apply exact_le_false).
    rewrite G, Hmin.
    change ((t_qty t - t_qty t)%num) with (t_qty t - t_qty t)%Qc.
    rewrite Hz2. reflexivity.
Qed.
End ReplayExact.

(** The average price of the replay is never negative (exact
    arithmetic): for a log whose quantities and prices are zero or more,
    the [avg_price] the statistics return is zero or more, whatever the
    sides, the sizes and the fees. *)
Theorem replay_avg_is_never_negative :
  forall log : list (Trade Qc),
    Forall (fun t => (0 <= t_qty t)%Qc /\ (0 <= t_price t)%Qc) log ->
    (0 <= s_avg (replay log))%Qc.
Proof.
  intros log Hlog. unfold replay. apply fold_stats_avg_nonneg; [exact Hlog|].
  apply Qcle_refl.
Qed.

(** Opening and closing realizes the price difference (exact
    arithmetic).  After a log that leaves the player flat, a trade of
    size [q > 0] followed by the opposite trade of the same size leaves
    the player flat again with [avg_price = 0], and adds to the realized
    PnL the difference of the two prices times [q], in favour of a long
    opened by a BUY and of a short opened by a SELL, less the two
    fees. *)
Theorem replay_open_then_close :
  forall (log : list (Trade Qc)) (t1 t2 : Trade Qc),
    s_pos (replay log) = 0%Qc ->
    (0 < t_qty t1)%Qc ->
    t_qty t2 = t_qty t1 ->
    t_side t2 = match t_side t1 with BUY => SELL | SELL => BUY end ->
    replay (log ++ [t1; t2])
    = {| s_pos := 0%Qc; s_avg := 0%Qc;
         s_realized :=
           (s_realized (replay log)
            + match t_side t1 with
              | BUY => (t_price t2 - t_price t1) * t_qty t1
              | SELL => (t_price t1 - t_price t2) * t_qty t1
              end - t_fee t1 - t_fee t2)%Qc |}.
Proof.
  intros log t1 t2 Hflat Hq Hsame Hside. unfold replay in *.
  rewrite fold_left_app. cbn [fold_left].
  rewrite (stats_step_open _ t1 Hflat Hq).
  rewrite stats_step_close.
  - cbn [s_realized s_avg]. rewrite Hside, Hsame.
    destruct (t_side t1); f_equal; ring.
  - by rewrite Hsame.
  - cbn [s_pos]. rewrite Hside, Hsame. by destruct (t_side t1).
Qed.

(** ** The listings of the candles *)

Section Listings.
Context {F : Type} `{Arith F}.

Lemma sorted_strict (l : list Z) :
  StronglySorted Z.le l -> NoDup l -> StronglySorted Z.lt l.
Proof.
  induction 1 as [|x l Hs IH Hx]; intros Hnd; [constructor|].
  apply NoDup_cons in Hnd as [Hnotin Hnd].
  constructor; [by apply IH|].
  rewrite Forall_forall in Hx |- *. intros y Hy.
  specialize (Hx y Hy). assert (x <> y) by (intros ->; by apply Hnotin). lia.
Qed.

Lemma sorted_filter (P : Z * Candle F -> Prop) `{forall r, Decision (P r)}
    (l : list (Z * Candle F)) :
  StronglySorted Z.lt (fst <$> l) -> StronglySorted Z.lt (fst <$> filter P l).
Proof.
  induction l as [|x l IH]; intros Hs; [constructor|].
  rewrite fmap_cons in Hs. apply StronglySorted_inv in Hs as [Hs Hx].
  rewrite filter_cons. destruct (decide (P x)); [|by apply IH].
  rewrite fmap_cons. constructor; [by apply IH|].
  rewrite Forall_forall in Hx |- *. intros y Hy. apply Hx.
  apply list_elem_of_fmap in Hy as (r & -> & Hr).
  apply list_elem_of_filter in Hr as [_ Hr]. by apply list_elem_of_fmap_2.
Qed.

(** The rows in the order of [ORDER BY ts ASC]: each row of the table
    once, by strictly growing [ts]. *)
Lemma candles_asc_spec (d : Db F) :
  StronglySorted Z.lt (fst <$> candles_asc d) /\
  (forall r, r ∈ candles_asc d <-> candles d !! fst r = Some (snd r)) /\
  length (candles_asc d) = size (candles d).
Proof.
  unfold candles_asc.
  pose proof (merge_sort_Permutation ts_le (map_to_list (candles d))) as Hperm.
  split; [|split].
  - apply sorted_strict.
    + apply (StronglySorted_fmap fst ts_le Z.le); [by intros x y|].
      apply StronglySorted_merge_sort.
      * intros x y z. unfold ts_le. lia.
      * intros x y. unfold ts_le. lia.
    + rewrite Hperm. apply NoDup_fst_map_to_list.
  - intros r. rewrite Hperm. apply elem_of_map_to_list'.
  - rewrite Hperm. apply length_map_to_list.
Qed.

Lemma newest_rows (n : Z) (l : list (Z * Candle F)) :
  rev (sql_limit n (rev l))
  = drop (length l - (if (n <? 0)%Z then length l
                      else Nat.min (Z.to_nat n) (length l))) l.
Proof.
  unfold sql_limit. destruct (n <? 0)%Z.
  - rewrite rev_involutive, Nat.sub_diag. reflexivity.
  - rewrite firstn_rev, rev_involutive. f_equal. lia.
Qed.
End Listings.

(** The two listings of the candles are sorted slices of the table, in
    any arithmetic.  [_last_candles_raw(n)] returns rows of the table by
    strictly growing [ts]: the [min(n, size)] newest ones (all of them
    under a negative [n]), so that a row left out is older than every row
    listed.  [get_candles_since(ts_from, n)] returns rows of the table at
    or after [ts_from] by strictly growing [ts]; a row at or after
    [ts_from] is left out only when the listing is full, and then it is
    newer than every row listed. *)
Theorem candle_listings_are_sorted_slices :
  forall (F : Type) (A : Arith F) (d : Db F) (n ts_from : Z),
    (exists rows,
       _last_candles_raw n d = raw_row <$> rows /\
       StronglySorted Z.lt (fst <$> rows) /\
       (forall r, r ∈ rows -> candles d !! fst r = Some (snd r)) /\
       length rows = (if (n <? 0)%Z then size (candles d)
                      else Nat.min (Z.to_nat n) (size (candles d))) /\
       (forall r, candles d !! fst r = Some (snd r) -> r ∉ rows ->
          forall q, q ∈ rows -> (fst r < fst q)%Z)) /\
    (exists rows,
       get_candles_since ts_from n d = raw_row <$> rows /\
       StronglySorted Z.lt (fst <$> rows) /\
       (forall r, r ∈ rows ->
          candles d !! fst r = Some (snd r) /\ (ts_from <= fst r)%Z) /\
       (forall r, candles d !! fst r = Some (snd r) -> (ts_from <= fst r)%Z ->
          r ∉ rows ->
          (0 <= n)%Z /\ length rows = Z.to_nat n /\
          forall q, q ∈ rows -> (fst q < fst r)%Z)).
Proof.
  intros F A d n ts_from.
  destruct (candles_asc_spec d) as (Hsorted & Hmem & Hlen).
  set (l := candles_asc d) in *.
  split.
  - set (k := if (n <? 0)%Z then length l else Nat.min (Z.to_nat n) (length l)).
    exists (drop (length l - k) l).
    assert (Hsplit : l = take (length l - k) l ++ drop (length l - k) l)
      by (by rewrite take_drop).
    split.
    { unfold _last_candles_raw. rewrite fmap_rev. f_equal. apply newest_rows. }
    rewrite Hsplit, fmap_app in Hsorted.
    split; [by apply StronglySorted_app_1_r in Hsorted|].
    split.
    { intros r Hr. apply Hmem. rewrite Hsplit. apply elem_of_app. by right. }
    split.
    { rewrite length_drop. unfold k. rewrite <- Hlen.
      destruct (n <? 0)%Z; lia. }
    intros r Hr Hout q Hq. apply Hmem in Hr. rewrite Hsplit in Hr.
    apply elem_of_app in Hr as [Hr|Hr]; [|by destruct Hout].
    eapply (StronglySorted_app_1_elem_of Z.lt); [exact Hsorted| |];
      by apply list_elem_of_fmap_2.
  - set (fl := filter (fun r : Z * Candle F => (ts_from <= fst r)%Z) l).
    assert (Hfs : StronglySorted Z.lt (fst <$> fl)) by (by apply sorted_filter).
    assert (Hfm : forall r, r ∈ fl <->
                    candles d !! fst r = Some (snd r) /\ (ts_from <= fst r)%Z).
    { intros r. unfold fl. rewrite list_elem_of_filter, Hmem. tauto. }
    exists (sql_limit n fl). split; [reflexivity|].
    unfold sql_limit. destruct (n <? 0)%Z eqn:Hn.
    + split; [exact Hfs|]. split; [intros r Hr; by apply Hfm|].
      intros r Hr Hts Hout. destruct Hout. by apply Hfm.
    + apply Z.ltb_ge in Hn.
      assert (Hsplit : fl = take (Z.to_nat n) fl ++ drop (Z.to_nat n) fl)
        by (by rewrite take_drop).
      rewrite Hsplit, fmap_app in Hfs.
      split; [by apply StronglySorted_app_1_l in Hfs|].
      split.
      { intros r Hr. apply Hfm. rewrite Hsplit. apply elem_of_app. by left. }
      intros r Hr Hts Hout.
      assert (Hin : r ∈ fl) by (by apply Hfm).
      rewrite Hsplit in Hin. apply elem_of_app in Hin as [Hin|Hin];
        [by destruct Hout|].
      split; [exact Hn|]. split.
      { rewrite length_take. apply Nat.min_l.
        destruct (Nat.le_gt_cases (Z.to_nat n) (length fl)) as [Hle|Hgt];
          [exact Hle|].
        rewrite drop_ge in Hin by lia. inversion Hin. }
      intros q Hq.
      eapply (StronglySorted_app_1_elem_of Z.lt); [exact Hfs| |];
        by apply list_elem_of_fmap_2.
Qed.

(** ** The bars the candles endpoint serves *)

Section ServedBars.
Local Open Scope num_scope.

Lemma well_formed_merge (o h l c ro rh rl rc : Qc) :
  well_formed o h l c = true -> well_formed ro rh rl rc = true ->
  well_formed o (pymax h rh) (pymin l rl) rc = true.
Proof.
  rewrite !well_formed_exact. intros (H1 & H2 & H3 & H4) (G1 & G2 & G3 & G4).
  unfold pymax, pymin.
  destruct (h <? rh) eqn:E1; destruct (rl <? l) eqn:E2; exact_props;
    repeat split; qc_lra.
Qed.

Lemma agg_fold_wf tf (rest : list (Z * Candle Qc)) out cur :
  Forall (fun r => row_well_formed (snd r) = true) rest ->
  Forall (fun b => bar_well_formed b = true) out ->
  bar_well_formed cur = true ->
  let st := fold_left (agg_step tf) rest (out, cur) in
  Forall (fun b => bar_well_formed b = true) (fst st ++ [snd st]).
Proof.
  intros Hrest. revert out cur.
  induction Hrest as [|r rest Hr _ IH]; intros out cur Hout Hcur; cbn [fold_left].
  - cbn. apply Forall_app. split; [exact Hout|]. by constructor.
  - destruct cur as [[[[cb o] h] l] c]. unfold agg_step.
    destruct (negb _).
    + apply IH; [|exact Hr].
      apply Forall_app. split; [exact Hout|]. by constructor.
    + apply IH; [exact Hout|].
      change (well_formed o (pymax h (c_high (snd r)))
                (pymin l (c_low (snd r))) (c_close (snd r)) = true).
      apply (well_formed_merge o h l c (c_open (snd r))); [exact Hcur|exact Hr].
Qed.

Lemma agg_bars_wf tf (cs : list (Z * Candle Qc)) :
  Forall (fun r => row_well_formed (snd r) = true) cs ->
  Forall (fun b => bar_well_formed b = true) (agg_bars tf cs).
Proof.
  intros Hcs. destruct cs as [|r0 rest]; [constructor|].
  inversion Hcs as [|? ? Hr0 Hrest]; subst.
  unfold agg_bars, agg_run. apply agg_fold_wf; [exact Hrest|constructor|exact Hr0].
Qed.

Lemma JSONResponse_exact (l : list Qc) : JSONResponse l = Returns tt.
Proof.
  unfold JSONResponse.
  by replace (forallb finite l) with true by (by induction l).
Qed.

End ServedBars.

(** Every bar that [GET /api/candles] serves is well formed (exact
    arithmetic): on every state the engine reaches, whatever [limit] and
    [tf] are asked, each bar of the answer has [low <= min(open, close)
    <= max(open, close) <= high]. *)
Theorem api_candles_serves_well_formed_bars :
  forall cfg (w : World Qc) limit tf,
    reachable cfg w ->
    exists bars,
      api_candles limit tf w = Returns (out_row <$> bars) /\
      Forall (fun b => bar_well_formed b = true) bars.
Proof.
  intros cfg w limit tf Hreach.
  destruct (exact_candles_well_formed cfg w Hreach) as [Hlive Hrows].
  unfold api_candles. cbv zeta.
  set (lim := Z.max 10 (Z.min limit 2000)).
  set (tf' := Z.max 1 (Z.min tf (3600 * 24))).
  set (live := snap_candle (snapshot (engine w))).
  unfold _last_candles_raw. rewrite fmap_rev.
  set (cs := rev (sql_limit (Z.max 500 (Z.min (lim * tf') 60000))
                    (rev (candles_asc (db w))))).
  assert (Hcs : forall r, r ∈ cs -> row_well_formed (snd r) = true).
  { intros r Hr. apply (Hrows (fst r)).
    apply (proj1 (proj2 (candles_asc_spec (db w)))).
    unfold cs in Hr. rewrite newest_rows in Hr.
    revert Hr. apply subseteq_drop. }
  destruct (live_row_last cs live) as (cs1 & _ & Hmem & ->).
  cbn [mbind Outcome_bind]. rewrite aggregate_typed. cbn [mbind Outcome_bind].
  assert (Hwf : Forall (fun b => bar_well_formed b = true)
                  (agg_bars (Z.max 1 tf') cs1)).
  { apply agg_bars_wf. apply Forall_forall. intros r Hr.
    destruct (Hmem r Hr) as [Hin| ->]; [by apply Hcs|exact Hlive]. }
  rewrite length_fmap.
  destruct (_ <? _)%Z; rewrite JSONResponse_exact; cbn [mbind Outcome_bind].
  - eexists. rewrite fmap_drop. split; [reflexivity|]. by apply Forall_drop.
  - eexists. split; [reflexivity|exact Hwf].
Qed.

(** * These theorems at work on the two sessions *)

Lemma scene_joined_served {F : Type} `{Arith F} (cfg : MarketConfig F) :
  served cfg (scene_joined cfg) no_cache.
Proof.
  unfold scene_joined. apply served_join, served_start, served_new.
Qed.

Lemma scene_bought_served {F : Type} `{Arith F} (cfg : MarketConfig F) :
  served cfg (scene_bought cfg) no_cache.
Proof. unfold scene_bought. apply served_buy, scene_joined_served. Qed.

Section MoreWitnesses.
Local Open Scope num_scope.

(** [start_game] twice in doubles: the second call, on the game the
    first one started, blocks; in exact arithmetic the first call
    returns. *)
Lemma start_game_opens_the_pool_once_witness :
  (let cfg : MarketConfig float := engine_config in
   let w := snd (start_game cfg 1000 (fresh cfg)) in
   start_game cfg 1001 w = (Deadlock, w)) /\
  (let cfg : MarketConfig Qc := engine_config in
   exists w',
     start_game cfg 1000 (fresh cfg) = (Ends (Returns tt), w') /\
     started (engine w') = true /\
     pool_y (engine w') = of_Z 2000000 /\
     forall now', start_game cfg now' w' = (Deadlock, w')).
Proof.
  cbv zeta. split.
  - apply (proj1 start_game_opens_the_pool_once float binary64).
    vm_compute. reflexivity.
  - assert (Hoff : started (engine (fresh (engine_config : MarketConfig Qc)))
                   && fltb (of_Z 0) (pool_x (engine (fresh (engine_config : MarketConfig Qc))))
                   && fltb (of_Z 0) (pool_y (engine (fresh (engine_config : MarketConfig Qc))))
                   = false) by reflexivity.
    destruct (proj2 start_game_opens_the_pool_once engine_config 1000%Z
                (fresh engine_config) Hoff)
      as (w' & Hrun & Hs & _ & Hagain & Hy & _).
    exists w'. split; [exact Hrun|]. split; [exact Hs|].
    split; [|exact Hagain].
    rewrite Hy. vm_compute. reflexivity.
Defined.

(** C4 at work in the doubles of the sources: the first BUY of 1000 USD
    takes the cash of ["alice01"] from 10000 to 9000, the SELL of 5 RICH
    that follows brings it to [9500.3749687108211], a tick leaves it
    there; and in exact arithmetic the same BUY lowers her cash. *)
Lemma cash_flow_law_witness :
  let cfg : MarketConfig float := engine_config in
  let w := scene_joined cfg in
  (exists r w' row row',
     market_order cfg 1001 "alice01" BUY (of_Z 1000) w
     = (Returns (Accepted r), w') /\
     players (db w) !! "alice01" = Some row /\
     players (db w') !! "alice01" = Some row' /\
     cash row = of_Z 10000 /\ cash row' = cash row - of_Z 1000 /\
     cash row' = of_Z 9000) /\
  (exists r w' row row',
     market_order cfg 1002 "alice01" SELL (of_Z 5) (scene_bought cfg)
     = (Returns (Accepted r), w') /\
     players (db (scene_bought cfg)) !! "alice01" = Some row /\
     players (db w') !! "alice01" = Some row' /\
     cash row' = cash row + r_amount_out r) /\
  (exists row row',
     players (db (scene_bought cfg)) !! "alice01" = Some row /\
     players (db (run_op cfg (OpTick 1002 1002) (scene_bought cfg)))
       !! "alice01" = Some row' /\
     cash row' = cash row) /\
  (exists r w' row row',
     market_order (engine_config : MarketConfig Qc) 1001 "alice01" BUY
       (of_Z 1000) (scene_joined engine_config)
     = (Returns (Accepted r), w') /\
     players (db (scene_joined engine_config)) !! "alice01" = Some row /\
     players (db w') !! "alice01" = Some row' /\
     (cash row' < cash row)%Qc).
Proof.
  cbv zeta. split; [|split; [|split]].
  - destruct (market_order (engine_config : MarketConfig float) 1001 "alice01"
                BUY (of_Z 1000) (scene_joined engine_config))
      as [[[r|e]|ex] w'] eqn:Hrun;
      [|vm_compute in Hrun; discriminate Hrun
       |vm_compute in Hrun; discriminate Hrun].
    destruct (proj1 cash_flow_law float binary64 _ _ _ _ _ _ _ _ Hrun)
      as (row & row' & Hrow & Hrow' & _ & _ & Hcash).
    exists r, w', row, row'. split; [reflexivity|].
    split; [exact Hrow|]. split; [exact Hrow'|].
    assert (Hc : cash row = of_Z 10000).
    { apply (f_equal (fmap cash)) in Hrow. vm_compute in Hrow.
      injection Hrow as Hrow. vm_compute. symmetry. exact Hrow. }
    split; [exact Hc|]. split; [exact Hcash|].
    rewrite Hcash, Hc. vm_compute. reflexivity.
  - destruct (market_order (engine_config : MarketConfig float) 1002 "alice01"
                SELL (of_Z 5) (scene_bought engine_config))
      as [[[r|e]|ex] w'] eqn:Hrun;
      [|vm_compute in Hrun; discriminate Hrun
       |vm_compute in Hrun; discriminate Hrun].
    destruct (proj1 cash_flow_law float binary64 _ _ _ _ _ _ _ _ Hrun)
      as (row & row' & Hrow & Hrow' & _ & _ & Hout & Hcash).
    exists r, w', row, row'. split; [reflexivity|].
    split; [exact Hrow|]. split; [exact Hrow'|].
    rewrite Hout. exact Hcash.
  - destruct (players (db (scene_bought (engine_config : MarketConfig float)))
                !! "alice01") as [row|] eqn:Hrow;
      [|vm_compute in Hrow; discriminate Hrow].
    destruct (proj1 (proj2 cash_flow_law) float binary64 engine_config
                (OpTick 1002 1002) _ _ _ Hrow)
      as (row' & Hrow' & [Hsame|[Hord|Hstop]]).
    + exists row, row'. split; [reflexivity|]. split; [exact Hrow'|exact Hsame].
    + destruct Hord as (now & c & side & amount & r & Ho & _). discriminate Ho.
    + destruct Hstop as (now_s & now & _ & Hon & _).
      vm_compute in Hon. discriminate Hon.
  - destruct (market_order (engine_config : MarketConfig Qc) 1001 "alice01" BUY
                (of_Z 1000) (scene_joined engine_config))
      as [[[r|e]|ex] w'] eqn:Hrun;
      [|vm_compute in Hrun; discriminate Hrun
       |vm_compute in Hrun; discriminate Hrun].
    destruct (proj2 (proj2 cash_flow_law) _ _ _ _ _ _ _ _ Hrun)
      as (row & row' & Hrow & Hrow' & _ & Hlt).
    exists r, w', row, row'. split; [reflexivity|].
    split; [exact Hrow|]. split; [exact Hrow'|exact Hlt].
Defined.

(** The refusal of the margin in doubles: the SELL of [33665 / price]
    RICH after the first BUY writes to no table. *)
Lemma refused_order_writes_nothing_witness :
  let cfg : MarketConfig float := engine_config in
  let w := scene_bought cfg in
  let amount := of_Z 33665 / price (engine w) in
  fst (market_order cfg 1002 "alice01" SELL amount w)
  = Returns (Rejected MarginRefused) /\
  db (snd (market_order cfg 1002 "alice01" SELL amount w)) = db w /\
  pool_k (engine (snd (market_order cfg 1002 "alice01" SELL amount w)))
  = pool_k (engine w).
Proof.
  cbv zeta.
  destruct (market_order (engine_config : MarketConfig float) 1002 "alice01"
              SELL (of_Z 33665 / price (engine (scene_bought engine_config)))
              (scene_bought engine_config))
    as [[[r|e]|ex] w'] eqn:Hrun.
  - vm_compute in Hrun. discriminate Hrun.
  - split.
    + destruct e; try (vm_compute in Hrun; discriminate Hrun). reflexivity.
    + assert (Hno : forall r : TradeOk float,
                Returns (Rejected e) <> Returns (Accepted r)) by discriminate.
      destruct (refused_order_writes_nothing _ _ _ _ _ _ _ _ _ _ Hrun Hno)
        as (Hdb & Hk & _).
      split; [exact Hdb|exact Hk].
  - vm_compute in Hrun. discriminate Hrun.
Defined.

(** The first BUY of 1000 USD in doubles: one row is logged, with the
    first [id], and the state is stored. *)
Lemma accepted_order_logs_one_trade_witness :
  let cfg : MarketConfig float := engine_config in
  let w := scene_joined cfg in
  exists r w',
    market_order cfg 1001 "alice01" BUY (of_Z 1000) w
    = (Returns (Accepted r), w') /\
    trades (db w')
    = trades (db w) ++ [trade_row 1001 "alice01" BUY (of_Z 1000) r] /\
    _last_trade_id (strip "alice01") (db w')
    = Z.of_nat (length (trades (db w'))).
Proof.
  cbv zeta.
  destruct (market_order (engine_config : MarketConfig float) 1001 "alice01"
              BUY (of_Z 1000) (scene_joined engine_config))
    as [[[r|e]|ex] w'] eqn:Hrun.
  - destruct (accepted_order_logs_one_trade _ _ _ _ _ _ _ _ _ _ Hrun)
      as (Ht & _ & _ & _ & _ & Hid & _).
    exists r, w'. split; [reflexivity|]. split; [exact Ht|exact Hid].
  - vm_compute in Hrun. discriminate Hrun.
  - vm_compute in Hrun. discriminate Hrun.
Defined.

Lemma accepted_order_persists_engine_witness :
  let cfg : MarketConfig float := engine_config in
  let w := scene_joined cfg in
  exists r w',
    market_order cfg 1001 "alice01" BUY (of_Z 1000) w
    = (Returns (Accepted r), w') /\
    get_state STATE_POOL_X (db w') = Some (SNum (pool_x (engine w'))) /\
    _get_state_float STATE_POOL_K (db w') = Some (pool_k (engine w')).
Proof.
  cbv zeta.
  destruct (market_order (engine_config : MarketConfig float) 1001 "alice01"
              BUY (of_Z 1000) (scene_joined engine_config))
    as [[[r|e]|ex] w'] eqn:Hrun.
  - destruct (accepted_order_persists_engine _ _ _ _ _ _ _ _ _ _ Hrun)
      as (_ & Hx & _ & _ & _ & _ & _ & _ & _ & Hk).
    exists r, w'. split; [reflexivity|]. split; [exact Hx|exact Hk].
  - vm_compute in Hrun. discriminate Hrun.
  - vm_compute in Hrun. discriminate Hrun.
Defined.

(** A cache hit in doubles: the statistics asked at second 5 and again
    at second 6. *)
Lemma stats_cache_is_transparent_witness :
  let cfg : MarketConfig float := engine_config in
  let w := scene_bought cfg in
  let c := snd (_compute_stats_from_trades (of_Z 5) "alice01" (db w) no_cache) in
  served cfg w c /\
  fst (_compute_stats_from_trades (of_Z 6) "alice01" (db w) c)
  = stats_triple (replay (_list_trades_asc "alice01" (db w))).
Proof.
  cbv zeta. split.
  - apply served_stats, scene_bought_served.
  - apply (stats_cache_is_transparent float binary64 engine_config).
    apply served_stats, scene_bought_served.
Defined.

Lemma me_repeats_the_trade_answer_witness :
  let cfg : MarketConfig float := engine_config in
  let w := scene_joined cfg in
  exists r me w' c' nick0 pos_calc,
    served cfg w no_cache /\
    trade cfg 1001 (of_Z 5) "alice01" BUY (of_Z 1000) w no_cache
    = (Http200 r me, w', c') /\
    fst (api_me (of_Z 9) (strip "alice01") w' c')
    = Some (strip "alice01", nick0, me, pos_calc).
Proof.
  cbv zeta.
  destruct (trade (engine_config : MarketConfig float) 1001 (of_Z 5) "alice01"
              BUY (of_Z 1000) (scene_joined engine_config) no_cache)
    as [[res w'] c'] eqn:Ht.
  destruct res as [r me|e| |ex];
    try (vm_compute in Ht; discriminate Ht).
  destruct (me_repeats_the_trade_answer _ _ _ _ _ _ _ _ _ _ _ _ _ _
              (scene_joined_served engine_config) Ht (of_Z 9))
    as (nick0 & pc & Hme).
  exists r, me, w', c', nick0, pc.
  split; [apply scene_joined_served|]. split; [reflexivity|exact Hme].
Defined.

(** A table with one candle at second 0, seeded at second 1000000 and
    again a minute later. *)
Lemma seeding_again_writes_nothing_witness :
  let cfg : MarketConfig float := engine_config in
  let d := upsert_candle 0 (of_Z 100) (of_Z 100) (of_Z 100) (of_Z 100) init_db in
  let u : nat -> float := fun _ => of_Z 0 in
  let d1 := snd (seed_history_if_needed cfg 1000000 u d) in
  seed_history_if_needed cfg 1000000 u d = (Returns tt, d1) /\
  (1000000 <= 1000060)%Z /\
  candles d1 <> ∅ /\
  seed_history_if_needed cfg 1000060 u d1 = (Returns tt, d1).
Proof.
  cbv zeta.
  assert (H1 : seed_history_if_needed (engine_config : MarketConfig float)
                 1000000 (fun _ => of_Z 0)
                 (upsert_candle 0 (of_Z 100) (of_Z 100) (of_Z 100) (of_Z 100)
                    init_db)
               = (Returns tt,
                  snd (seed_history_if_needed (engine_config : MarketConfig float)
                         1000000 (fun _ => of_Z 0)
                         (upsert_candle 0 (of_Z 100) (of_Z 100) (of_Z 100)
                            (of_Z 100) init_db))))
    by (vm_compute; reflexivity).
  assert (H2 : (1000000 <= 1000060)%Z) by lia.
  assert (H3 : candles
                 (snd (seed_history_if_needed (engine_config : MarketConfig float)
                         1000000 (fun _ => of_Z 0)
                         (upsert_candle 0 (of_Z 100) (of_Z 100) (of_Z 100)
                            (of_Z 100) init_db))) <> ∅).
  { intros E. apply (f_equal (fun m => m !! 0%Z)) in E.
    vm_compute in E. discriminate E. }
  split; [exact H1|]. split; [exact H2|]. split; [exact H3|].
  exact (seeding_again_writes_nothing float binary64 _ _ _ _ (fun _ => of_Z 0)
           _ _ H1 H2 H3).
Defined.

(** One stored candle, aggregated at one minute and fed back. *)
Lemma aggregate_output_cannot_be_fed_back_witness :
  let raw : list (gmap string (Val float)) :=
    [raw_row (1000%Z, {| c_open := of_Z 100; c_high := of_Z 101;
                         c_low := of_Z 99; c_close := of_Z 100 |})] in
  exists out,
    _aggregate_candles raw 60 = Returns out /\ out <> [] /\
    _aggregate_candles out 60 = Raises (KeyError "ts").
Proof.
  cbv zeta.
  destruct (_aggregate_candles
              [raw_row (1000%Z, {| c_open := of_Z 100 : float;
                                   c_high := of_Z 101; c_low := of_Z 99;
                                   c_close := of_Z 100 |})] 60)
    as [out|ex] eqn:Hrun; [|vm_compute in Hrun; discriminate Hrun].
  assert (Hne : out <> []).
  { intros ->. vm_compute in Hrun. discriminate Hrun. }
  exists out. split; [reflexivity|]. split; [exact Hne|].
  exact (aggregate_output_cannot_be_fed_back float binary64 _ _ 60 60 Hrun Hne).
Defined.

(** The first BUY in exact arithmetic: the price rises, the fill lies
    between the two prices, RICH and USD are conserved. *)
Lemma order_moves_the_price_witness :
  let cfg : MarketConfig Qc := engine_config in
  let w := scene_joined cfg in
  exists r w',
    market_order cfg 1001 "alice01" BUY (of_Z 1000) w
    = (Returns (Accepted r), w') /\
    (pool_y (engine w) / pool_x (engine w)
     < pool_y (engine w') / pool_x (engine w'))%Qc.
Proof.
  cbv zeta.
  destruct (market_order (engine_config : MarketConfig Qc) 1001 "alice01" BUY
              (of_Z 1000) (scene_joined engine_config))
    as [[[r|e]|ex] w'] eqn:Hrun.
  - destruct (order_moves_the_price _ _ _ _ _ _ _ _ Hrun) as (_ & _ & Hup).
    exists r, w'. split; [reflexivity|exact Hup].
  - vm_compute in Hrun. discriminate Hrun.
  - vm_compute in Hrun. discriminate Hrun.
Defined.

Lemma execution_price_is_between_witness :
  let cfg : MarketConfig Qc := engine_config in
  let w := scene_joined cfg in
  exists r w',
    reachable cfg w /\
    market_order cfg 1001 "alice01" BUY (of_Z 1000) w
    = (Returns (Accepted r), w') /\
    (pool_y (engine w) / pool_x (engine w) < r_avg_price r)%Qc /\
    (r_avg_price r < price (engine w'))%Qc.
Proof.
  cbv zeta.
  destruct (market_order (engine_config : MarketConfig Qc) 1001 "alice01" BUY
              (of_Z 1000) (scene_joined engine_config))
    as [[[r|e]|ex] w'] eqn:Hrun.
  - destruct (execution_price_is_between _ _ _ _ _ _ _ _
                (scene_joined_reachable engine_config) Hrun) as (_ & Hlo & Hhi).
    exists r, w'. split; [apply scene_joined_reachable|].
    split; [reflexivity|]. split; [exact Hlo|exact Hhi].
  - vm_compute in Hrun. discriminate Hrun.
  - vm_compute in Hrun. discriminate Hrun.
Defined.

Lemma order_conserves_rich_and_usd_witness :
  let cfg : MarketConfig Qc := engine_config in
  let w := scene_joined cfg in
  exists r w' row row',
    market_order cfg 1001 "alice01" BUY (of_Z 1000) w
    = (Returns (Accepted r), w') /\
    players (db w) !! strip "alice01" = Some row /\
    players (db w') !! strip "alice01" = Some row' /\
    (pool_x (engine w') + pos row' = pool_x (engine w) + pos row)%Qc.
Proof.
  cbv zeta.
  destruct (market_order (engine_config : MarketConfig Qc) 1001 "alice01" BUY
              (of_Z 1000) (scene_joined engine_config))
    as [[[r|e]|ex] w'] eqn:Hrun.
  - destruct (order_conserves_rich_and_usd _ _ _ _ _ _ _ _ Hrun)
      as (row & row' & Hrow & Hrow' & Hx & _).
    exists r, w', row, row'. split; [reflexivity|].
    split; [exact Hrow|]. split; [exact Hrow'|exact Hx].
  - vm_compute in Hrun. discriminate Hrun.
  - vm_compute in Hrun. discriminate Hrun.
Defined.

Lemma reachable_cash_is_never_negative_witness :
  let cfg : MarketConfig Qc := engine_config in
  exists row,
    reachable cfg (scene_bought cfg) /\
    players (db (scene_bought cfg)) !! "alice01" = Some row /\
    (0 <= cash row)%Qc.
Proof.
  cbv zeta.
  destruct (players (db (scene_bought (engine_config : MarketConfig Qc)))
              !! "alice01") as [row|] eqn:Hrow;
    [|vm_compute in Hrow; discriminate Hrow].
  exists row. split; [apply scene_bought_reachable|].
  split; [reflexivity|].
  exact (reachable_cash_is_never_negative engine_config _
           (scene_bought_reachable engine_config) "alice01" row Hrow).
Defined.

(** The first BUY in exact arithmetic, then a restart with the seeder
    switched on, at second 2000. *)
Lemma restart_restores_the_pool_witness :
  let cfg : MarketConfig Qc := engine_config in
  let w := scene_joined cfg in
  let u : nat -> Qc := fun _ => of_Z 0 in
  exists r w',
    market_order cfg 1001 "alice01" BUY (of_Z 1000) w
    = (Returns (Accepted r), w') /\
    is_zero (start_price cfg) = false /\
    pool_x (engine (snd (init_or_load cfg 2000 2000 u
                           {| engine := new_engine cfg; db := db w' |})))
    = pool_x (engine w') /\
    started (engine (snd (init_or_load cfg 2000 2000 u
                            {| engine := new_engine cfg; db := db w' |})))
    = true.
Proof.
  cbv zeta.
  destruct (market_order (engine_config : MarketConfig Qc) 1001 "alice01" BUY
              (of_Z 1000) (scene_joined engine_config))
    as [[[r|e]|ex] w'] eqn:Hrun.
  - assert (Hz : is_zero (start_price (engine_config : MarketConfig Qc)) = false)
      by reflexivity.
    destruct (restart_restores_the_pool _ _ _ _ _ _ _ _ 2000 2000
                (fun _ => of_Z 0) Hrun Hz) as (_ & Hx & _ & _ & _ & Hs & _).
    exists r, w'. split; [reflexivity|]. split; [exact Hz|].
    split; [exact Hx|exact Hs].
  - vm_compute in Hrun. discriminate Hrun.
  - vm_compute in Hrun. discriminate Hrun.
Defined.

(** The log [BUY 5 @ 100; SELL 8 @ 110] in exact arithmetic: the short
    of 3 it ends with has the average 110. *)
Lemma replay_avg_is_never_negative_witness :
  Forall (fun t : Trade Qc => (0 <= t_qty t)%Qc /\ (0 <= t_price t)%Qc)
    flip_log /\
  (0 <= s_avg (replay (flip_log : list (Trade Qc))))%Qc.
Proof.
  assert (Hlog : Forall (fun t : Trade Qc =>
                           (0 <= t_qty t)%Qc /\ (0 <= t_price t)%Qc) flip_log).
  { repeat constructor; vm_compute; discriminate. }
  split; [exact Hlog|].
  exact (replay_avg_is_never_negative flip_log Hlog).
Defined.

(** A BUY of 5 at 100 closed by a SELL of 5 at 110, with fees 1 and 2,
    from the empty log: the position is flat and 47 is realized. *)
Lemma replay_open_then_close_witness :
  let t1 : Trade Qc :=
    {| t_code := "alice01"; t_ts := 1001; t_side := BUY;
       t_qty := of_Z 5; t_price := of_Z 100; t_notional := of_Z 500;
       t_fee := of_Z 1; t_cash_after := of_Z 9499; t_pos_after := of_Z 5 |} in
  let t2 : Trade Qc :=
    {| t_code := "alice01"; t_ts := 1002; t_side := SELL;
       t_qty := of_Z 5; t_price := of_Z 110; t_notional := of_Z 550;
       t_fee := of_Z 2; t_cash_after := of_Z 10047; t_pos_after := of_Z 0 |} in
  replay ([] ++ [t1; t2])
  = {| s_pos := 0%Qc; s_avg := 0%Qc;
       s_realized := (s_realized (replay [])
                      + (t_price t2 - t_price t1) * t_qty t1
                      - t_fee t1 - t_fee t2)%Qc |}.
Proof.
  cbv zeta.
  refine (replay_open_then_close [] _ _ _ _ _ _).
  - reflexivity.
  - vm_compute. reflexivity.
  - reflexivity.
  - reflexivity.
Defined.

(** The candles served after the first BUY in exact arithmetic. *)
Lemma api_candles_serves_well_formed_bars_witness :
  let cfg : MarketConfig Qc := engine_config in
  reachable cfg (scene_bought cfg) /\
  exists bars,
    api_candles 100 60 (scene_bought cfg) = Returns (out_row <$> bars) /\
    Forall (fun b => bar_well_formed b = true) bars.
Proof.
  cbv zeta. split; [apply scene_bought_reachable|].
  exact (api_candles_serves_well_formed_bars engine_config _ 100 60
           (scene_bought_reachable engine_config)).
Defined.
End MoreWitnesses.
